(** * ecowitt2mqtt: frame codec, tag decoder and observation cache

    A shallow embedding of [src/ecowitt2mqtt.c] (with the tag identifiers of
    [src/ecowitt.h]).

    Conventions of the embedding:
    - an [unsigned char] is a [Z] in [0, 256); an [int] is a [Z], and the one
      place where the C arithmetic can leave the [int] range (the 4-byte
      big-endian read) has its wrap-around written out;
    - a C array is a [list Z] (or [list ascii] for text) indexed from 0; a
      read or write outside the array, a [NULL] dereference and a read of a
      character array up to a terminator that is not there are undefined
      behaviour in C and are [None] here;
    - the globals the daemon mutates ([tagData], [data_buffer], ...) and what
      it hands to the broker and to [stderr] are one explicit [world] value
      threaded through the functions;
    - [time()] is an oracle [nat -> Z]: the n-th call of the run returns
      [time n]; nothing is assumed about it. *)

From Stdlib Require Import ZArith Lia Ascii String.
From stdpp Require Import base option list strings pretty.

Local Open Scope Z_scope.

(** * Arrays *)

Module Mem.

(** [buf[i]] *)
Definition rd {A} (buf : list A) (i : Z) : option A :=
  if decide (0 ≤ i) then buf !! Z.to_nat i else None.

(** [buf[i] = v] *)
Definition wr {A} (buf : list A) (i : Z) (v : A) : option (list A) :=
  if decide (0 ≤ i < Z.of_nat (length buf))
  then Some (<[Z.to_nat i := v]> buf) else None.

(** [memcpy(&dst[off], src, n)] for [0 < n]: [src] is [None] for a [NULL]
    pointer, else the array it points to. *)
Fixpoint copy_from (dst : list Z) (off : Z) (src : list Z) (n : nat)
  : option (list Z) :=
  match n with
  | O => Some dst
  | S n' =>
      match src with
      | [] => None
      | x :: src' => dst' ← wr dst off x; copy_from dst' (off + 1) src' n'
      end
  end.

Definition memcpy (dst : list Z) (off : Z) (src : option (list Z)) (n : Z)
  : option (list Z) :=
  match src with
  | None => None
  | Some s => copy_from dst off s (Z.to_nat n)
  end.

(** An [unsigned char] array holds values in [0, 256). *)
Definition is_byte (b : Z) : Prop := 0 ≤ b < 256.
Definition bytes (buf : list Z) : Prop := Forall is_byte buf.

End Mem.

Import Mem.

(** * Frame codec *)

Definition RECEIVE_BUFFER_OK : Z := 0.
Definition INVALID_HEADER : Z := -1.
Definition INVALID_CHECKSUM : Z := -2.
Definition INVALID_LENGTH : Z := -3.

Definition CMD_GW1000_LIVEDATA : Z := 0x27.

(** The checksum loop shared by both codec functions:
    [for (i = from; i <= to; i++) checksum += buf[i];] run for [n]
    iterations from index [i] with the running sum [acc]. *)
Fixpoint sum_bytes (buf : list Z) (i : Z) (n : nat) (acc : Z) : option Z :=
  match n with
  | O => Some acc
  | S n' => b ← rd buf i; sum_bytes buf (i + 1) n' (acc + b)
  end.

(** [for (int i = 2; i <= length; i++)] runs [length - 1] times (none when
    [length < 2]). *)
Definition checksum_loop (buf : list Z) (length : Z) : option Z :=
  sum_bytes buf 2 (Z.to_nat (length - 1)) 0.

(** The 16-bit big-endian length [check_receive_buffer] reads at offsets 3-4. *)
Definition frame_length (receive_buffer : list Z) : option Z :=
  b3 ← rd receive_buffer 3;
  b4 ← rd receive_buffer 4;
  Some (Z.shiftl b3 8 + b4).

Definition check_receive_buffer (receive_buffer : list Z) : option Z :=
  b0 ← rd receive_buffer 0;
  if negb (b0 =? 0xFF) then Some INVALID_HEADER else
  b1 ← rd receive_buffer 1;
  if negb (b1 =? 0xFF) then Some INVALID_HEADER else
  length ← frame_length receive_buffer;
  checksum ← checksum_loop receive_buffer length;
  let checksum := checksum `mod` 256 in
  c ← rd receive_buffer (length + 1);
  if negb (checksum =? c) then Some INVALID_CHECKSUM
  else Some RECEIVE_BUFFER_OK.

(** [prepare_command_buffer]: returns the C return value and the command
    buffer after the call; [length] is the [unsigned int] argument. The two
    messages to [stderr] on the failing paths are not recorded. *)
Definition prepare_command_buffer (command_buffer : list Z) (cmd : Z)
    (payload : option (list Z)) (length : Z) : option (Z * list Z) :=
  if 0xFF - 3 <=? length then Some (-1, command_buffer)
  else if (0 <? length) && bool_decide (payload ≠ None)
  then Some (-1, command_buffer)
  else
    b ← wr command_buffer 0 0xFF;
    b ← wr b 1 0xFF;
    b ← wr b 2 cmd;
    b ← wr b 3 ((3 + length) `mod` 256);
    b ← (if negb (length =? 0) then memcpy b 4 payload length else Some b);
    checksum ← checksum_loop b (3 + length);
    b ← wr b (3 + length + 1) (Z.land 0xFF (checksum `mod` 256));
    Some (5 + length, b).

(** [unsigned char COMMAND_BUFFER[260]] and [RECEIVE_BUFFER[1024]] of [main]. *)
Definition COMMAND_BUFFER_SIZE : nat := 260.
Definition RECEIVE_BUFFER_SIZE : nat := 1024.


(** * Text *)

(** [snprintf(payload, sizeof(payload), "%d", n)] *)
Definition fmt_d (n : Z) : string := pretty n.

(** [snprintf(payload, sizeof(payload), "%.1f", n / 10.0)] for an [int] [n]:
    the double nearest to [n/10] is within [2^-25] of it for every 32-bit
    [n], so rounding it to one decimal gives the decimal expansion of [n/10]
    itself: sign, integer part, point, one digit. *)
Definition fmt_tenths (n : Z) : string :=
  (if n <? 0 then "-" else EmptyString) +:+ pretty (Z.abs n / 10) +:+ "."
  +:+ pretty (Z.abs n `mod` 10).

(** [snprintf(payload, sizeof(payload), "%.2f", b * 0.02)] for a byte [b]:
    the product is within [2^-40] of [2*b/100], a multiple of [0.01], so the
    two printed decimals are those of [2*b/100]. *)
Definition fmt_battery (b : Z) : string :=
  let h := 2 * b in
  pretty (h / 100) +:+ "." +:+ pretty ((h / 10) `mod` 10)
  +:+ pretty (h `mod` 10).

(** [strrchr(s, c)] for [c] other than the terminator: the suffix of [s] that
    starts at the last [c], [None] for [NULL]. *)
Fixpoint strrchr (s : string) (c : ascii) : option string :=
  match s with
  | EmptyString => None
  | String a s' =>
      match strrchr s' c with
      | Some r => Some r
      | None => if decide (a = c) then Some s else None
      end
  end.

Definition NUL : ascii := zero.
Definition LF : string := String "010"%char EmptyString.
Definition DQUOTE : string := String "034"%char EmptyString.

(** [if (s[0])] on a string *)
Definition nonempty (s : string) : bool :=
  match s with
  | EmptyString => false
  | String _ _ => true
  end.

(** [strncpy(dst, src, n)] into an array of [n] characters: the first [n]
    characters of [src], padded with terminators when [src] is shorter, and
    with no terminator at all when it is not. *)
Definition strncpy (src : string) (n : nat) : list ascii :=
  take n (list_ascii_of_string src ++ replicate n NUL).

(** Reading a character array as a string ([%s]): the characters before the
    first terminator; reading past the end of the array is undefined. *)
Fixpoint c_str (a : list ascii) : option string :=
  match a with
  | [] => None
  | c :: a' => if decide (c = NUL) then Some EmptyString
               else String c <$> c_str a'
  end.

(** [strcat] and [sprintf] into a [char dst[cap]]: the result and its
    terminator have to fit. *)
Definition fits (cap : nat) (s : string) : option string :=
  if decide (String.length s < cap)%nat then Some s else None.

(** * Tag registry *)

Inductive TAG_PROCESSING_TYPE :=
  | TAG_TYPE_BYTE_LEAVE_ALONE
  | TAG_TYPE_SHORT_LEAVE_ALONE
  | TAG_TYPE_3_BYTES_LEAVE_ALONE
  | TAG_TYPE_INT_LEAVE_ALONE
  | TAG_TYPE_SHORT_DIVIDE_BY_10_UNSIGNED
  | TAG_TYPE_SHORT_DIVIDE_BY_10_SIGNED
  | TAG_TYPE_3_BYTES_TEMP_AND_BATT
  | TAG_TYPE_3_BYTES_TIME
  | TAG_TYPE_6_BYTES_TIME
  | TAG_TYPE_16_BYTES_BITMASK
  | TAG_TYPE_16_BYTES_CO2
  | TAG_TYPE_20_BYTES_PIEZO_GAIN
  | TAG_TYPE_PM25_AQI.

Global Instance TAG_PROCESSING_TYPE_eq_dec : EqDecision TAG_PROCESSING_TYPE.
Proof. solve_decision. Defined.

Definition tagTypeDataLength (tagType : TAG_PROCESSING_TYPE) : Z :=
  match tagType with
  | TAG_TYPE_BYTE_LEAVE_ALONE => 1
  | TAG_TYPE_SHORT_LEAVE_ALONE
  | TAG_TYPE_SHORT_DIVIDE_BY_10_UNSIGNED
  | TAG_TYPE_SHORT_DIVIDE_BY_10_SIGNED => 2
  | TAG_TYPE_3_BYTES_LEAVE_ALONE
  | TAG_TYPE_3_BYTES_TEMP_AND_BATT
  | TAG_TYPE_3_BYTES_TIME => 3
  | TAG_TYPE_INT_LEAVE_ALONE => 4
  | TAG_TYPE_6_BYTES_TIME => 6
  | TAG_TYPE_16_BYTES_BITMASK
  | TAG_TYPE_16_BYTES_CO2 => 16
  | TAG_TYPE_20_BYTES_PIEZO_GAIN => 20
  | TAG_TYPE_PM25_AQI => 0
  end.

Definition MQTT_MESSAGE_MAXLEN : nat := 32.
Definition MESSAGE_EXPIRATION_SECONDS : Z := 60.

Record TagSpec := {
  tag : Z;
  type : TAG_PROCESSING_TYPE;
  topic : string;
  lastMessage : list ascii;
  lastMessageTimestamp : Z
}.

(** A table row as the initialiser leaves it: [lastMessage] is not named, so
    it is all zero. *)
Definition mkTag (tg : Z) (ty : TAG_PROCESSING_TYPE) (tp : string) : TagSpec :=
  {| tag := tg; type := ty; topic := tp;
     lastMessage := replicate MQTT_MESSAGE_MAXLEN NUL;
     lastMessageTimestamp := 0 |}.

Definition ITEM_INTEMP : Z := 0x01.
Definition ITEM_OUTTEMP : Z := 0x02.
Definition ITEM_DEWPOINT : Z := 0x03.
Definition ITEM_WINDCHILL : Z := 0x04.
Definition ITEM_HEATINDEX : Z := 0x05.
Definition ITEM_INHUMI : Z := 0x06.
Definition ITEM_OUTHUMI : Z := 0x07.
Definition ITEM_ABSBARO : Z := 0x08.
Definition ITEM_RELBARO : Z := 0x09.
Definition ITEM_WINDDIRECTION : Z := 0x0A.
Definition ITEM_WINDSPEED : Z := 0x0B.
Definition ITEM_GUSTSPEED : Z := 0x0C.
Definition ITEM_RAINEVENT : Z := 0x0D.
Definition ITEM_RAINRATE : Z := 0x0E.
Definition ITEM_RAINHOUR : Z := 0x0F.
Definition ITEM_RAINDAY : Z := 0x10.
Definition ITEM_RAINWEEK : Z := 0x11.
Definition ITEM_RAINMONTH : Z := 0x12.
Definition ITEM_RAINYEAR : Z := 0x13.
Definition ITEM_RAINTOTALS : Z := 0x14.
Definition ITEM_LIGHT : Z := 0x15.
Definition ITEM_UV : Z := 0x16.
Definition ITEM_UVI : Z := 0x17.
Definition ITEM_TIME : Z := 0x18.
Definition ITEM_DAYLWINDMAX : Z := 0x19.
Definition ITEM_TEMP1 : Z := 0x1A.
Definition ITEM_TEMP2 : Z := 0x1B.
Definition ITEM_TEMP3 : Z := 0x1C.
Definition ITEM_TEMP4 : Z := 0x1D.
Definition ITEM_TEMP5 : Z := 0x1E.
Definition ITEM_TEMP6 : Z := 0x1F.
Definition ITEM_TEMP7 : Z := 0x20.
Definition ITEM_TEMP8 : Z := 0x21.
Definition ITEM_HUMI1 : Z := 0x22.
Definition ITEM_HUMI2 : Z := 0x23.
Definition ITEM_HUMI3 : Z := 0x24.
Definition ITEM_HUMI4 : Z := 0x25.
Definition ITEM_HUMI5 : Z := 0x26.
Definition ITEM_HUMI6 : Z := 0x27.
Definition ITEM_HUMI7 : Z := 0x28.
Definition ITEM_HUMI8 : Z := 0x29.
Definition ITEM_PM25_CH1 : Z := 0x2A.
Definition ITEM_SOILTEMP1 : Z := 0x2B.
Definition ITEM_SOILMOISTURE1 : Z := 0x2C.
Definition ITEM_SOILTEMP2 : Z := 0x2D.
Definition ITEM_SOILMOISTURE2 : Z := 0x2E.
Definition ITEM_SOILTEMP3 : Z := 0x2F.
Definition ITEM_SOILMOISTURE3 : Z := 0x30.
Definition ITEM_SOILTEMP4 : Z := 0x31.
Definition ITEM_SOILMOISTURE4 : Z := 0x32.
Definition ITEM_SOILTEMP5 : Z := 0x33.
Definition ITEM_SOILMOISTURE5 : Z := 0x34.
Definition ITEM_SOILTEMP6 : Z := 0x35.
Definition ITEM_SOILMOISTURE6 : Z := 0x36.
Definition ITEM_SOILTEMP7 : Z := 0x37.
Definition ITEM_SOILMOISTURE7 : Z := 0x38.
Definition ITEM_SOILTEMP8 : Z := 0x39.
Definition ITEM_SOILMOISTURE8 : Z := 0x3A.
Definition ITEM_SOILTEMP9 : Z := 0x3B.
Definition ITEM_SOILMOISTURE9 : Z := 0x3C.
Definition ITEM_SOILTEMP10 : Z := 0x3D.
Definition ITEM_SOILMOISTURE10 : Z := 0x3E.
Definition ITEM_SOILTEMP11 : Z := 0x3F.
Definition ITEM_SOILMOISTURE11 : Z := 0x40.
Definition ITEM_SOILTEMP12 : Z := 0x41.
Definition ITEM_SOILMOISTURE12 : Z := 0x42.
Definition ITEM_SOILTEMP13 : Z := 0x43.
Definition ITEM_SOILMOISTURE13 : Z := 0x44.
Definition ITEM_SOILTEMP14 : Z := 0x45.
Definition ITEM_SOILMOISTURE14 : Z := 0x46.
Definition ITEM_SOILTEMP15 : Z := 0x47.
Definition ITEM_SOILMOISTURE15 : Z := 0x48.
Definition ITEM_SOILTEMP16 : Z := 0x49.
Definition ITEM_SOILMOISTURE16 : Z := 0x4A.
Definition ITEM_LOWBATT : Z := 0x4C.
Definition ITEM_PM25_24HAVG1 : Z := 0x4D.
Definition ITEM_PM25_24HAVG2 : Z := 0x4E.
Definition ITEM_PM25_24HAVG3 : Z := 0x4F.
Definition ITEM_PM25_24HAVG4 : Z := 0x50.
Definition ITEM_PM25_CH2 : Z := 0x51.
Definition ITEM_PM25_CH3 : Z := 0x52.
Definition ITEM_PM25_CH4 : Z := 0x53.
Definition ITEM_LEAK_CH1 : Z := 0x58.
Definition ITEM_LEAK_CH2 : Z := 0x59.
Definition ITEM_LEAK_CH3 : Z := 0x5A.
Definition ITEM_LEAK_CH4 : Z := 0x5B.
Definition ITEM_LIGHTNING : Z := 0x60.
Definition ITEM_LIGHTNING_TIME : Z := 0x61.
Definition ITEM_LIGHTNING_POWER : Z := 0x62.
Definition ITEM_TF_USR1 : Z := 0x63.
Definition ITEM_TF_USR2 : Z := 0x64.
Definition ITEM_TF_USR3 : Z := 0x65.
Definition ITEM_TF_USR4 : Z := 0x66.
Definition ITEM_TF_USR5 : Z := 0x67.
Definition ITEM_TF_USR6 : Z := 0x68.
Definition ITEM_TF_USR7 : Z := 0x69.
Definition ITEM_TF_USR8 : Z := 0x6A.
Definition ITEM_SENSOR_CO2 : Z := 0x70.
Definition ITEM_PM25_AQI : Z := 0x71.
Definition ITEM_LEAF_WETNESS_CH1 : Z := 0x72.
Definition ITEM_LEAF_WETNESS_CH2 : Z := 0x73.
Definition ITEM_LEAF_WETNESS_CH3 : Z := 0x74.
Definition ITEM_LEAF_WETNESS_CH4 : Z := 0x75.
Definition ITEM_LEAF_WETNESS_CH5 : Z := 0x76.
Definition ITEM_LEAF_WETNESS_CH6 : Z := 0x77.
Definition ITEM_LEAF_WETNESS_CH7 : Z := 0x78.
Definition ITEM_LEAF_WETNESS_CH8 : Z := 0x79.
Definition ITEM_Piezo_Rain_Rate : Z := 0x80.
Definition ITEM_Piezo_Event_Rain : Z := 0x81.
Definition ITEM_Piezo_Hourly_Rain : Z := 0x82.
Definition ITEM_Piezo_Daily_Rain : Z := 0x83.
Definition ITEM_Piezo_Weekly_Rain : Z := 0x84.
Definition ITEM_Piezo_Monthly_Rain : Z := 0x85.
Definition ITEM_Piezo_yearly_Rain : Z := 0x86.
Definition ITEM_Piezo_Gain10 : Z := 0x87.
Definition ITEM_RST_RainTime : Z := 0x88.

Definition tagData_init : list TagSpec := [
  mkTag ITEM_INTEMP              TAG_TYPE_SHORT_DIVIDE_BY_10_SIGNED     "temperature/indoors";
  mkTag ITEM_OUTTEMP             TAG_TYPE_SHORT_DIVIDE_BY_10_SIGNED     "temperature/outdoors";
  mkTag ITEM_DEWPOINT            TAG_TYPE_SHORT_DIVIDE_BY_10_SIGNED     "dew_point";
  mkTag ITEM_WINDCHILL           TAG_TYPE_SHORT_DIVIDE_BY_10_SIGNED     "wind_chill";
  mkTag ITEM_HEATINDEX           TAG_TYPE_SHORT_DIVIDE_BY_10_SIGNED     "heat_index";
  mkTag ITEM_INHUMI              TAG_TYPE_BYTE_LEAVE_ALONE              "humidity/indoors";
  mkTag ITEM_OUTHUMI             TAG_TYPE_BYTE_LEAVE_ALONE              "humidity/outdoors";
  mkTag ITEM_ABSBARO             TAG_TYPE_SHORT_DIVIDE_BY_10_UNSIGNED   "barometric/absolute";
  mkTag ITEM_RELBARO             TAG_TYPE_SHORT_DIVIDE_BY_10_UNSIGNED   "barometric/relative";
  mkTag ITEM_WINDDIRECTION       TAG_TYPE_SHORT_LEAVE_ALONE             "wind/direction";
  mkTag ITEM_WINDSPEED           TAG_TYPE_SHORT_LEAVE_ALONE             "wind/speed";
  mkTag ITEM_GUSTSPEED           TAG_TYPE_SHORT_LEAVE_ALONE             "wind/gust_speed";
  mkTag ITEM_RAINEVENT           TAG_TYPE_SHORT_LEAVE_ALONE             "rain/event";
  mkTag ITEM_RAINRATE            TAG_TYPE_SHORT_LEAVE_ALONE             "rain/rate";
  mkTag ITEM_RAINHOUR            TAG_TYPE_SHORT_LEAVE_ALONE             "rain/hour";
  mkTag ITEM_RAINDAY             TAG_TYPE_SHORT_LEAVE_ALONE             "rain/day";
  mkTag ITEM_RAINWEEK            TAG_TYPE_SHORT_LEAVE_ALONE             "rain/week";
  mkTag ITEM_RAINMONTH           TAG_TYPE_SHORT_LEAVE_ALONE             "rain/month";
  mkTag ITEM_RAINYEAR            TAG_TYPE_SHORT_LEAVE_ALONE             "rain/year";
  mkTag ITEM_RAINTOTALS          TAG_TYPE_SHORT_LEAVE_ALONE             "rain/totals";
  mkTag ITEM_LIGHT               TAG_TYPE_INT_LEAVE_ALONE               "light";
  mkTag ITEM_UV                  TAG_TYPE_SHORT_LEAVE_ALONE             "uv/intensity";
  mkTag ITEM_UVI                 TAG_TYPE_BYTE_LEAVE_ALONE              "uv/index";
  mkTag ITEM_TIME                TAG_TYPE_6_BYTES_TIME                  "date_and_time";
  mkTag ITEM_DAYLWINDMAX         TAG_TYPE_SHORT_LEAVE_ALONE             "wind/day_max";
  mkTag ITEM_TEMP1               TAG_TYPE_SHORT_DIVIDE_BY_10_SIGNED     "temperature/th_1";
  mkTag ITEM_TEMP2               TAG_TYPE_SHORT_DIVIDE_BY_10_SIGNED     "temperature/th_2";
  mkTag ITEM_TEMP3               TAG_TYPE_SHORT_DIVIDE_BY_10_SIGNED     "temperature/th_3";
  mkTag ITEM_TEMP4               TAG_TYPE_SHORT_DIVIDE_BY_10_SIGNED     "temperature/th_4";
  mkTag ITEM_TEMP5               TAG_TYPE_SHORT_DIVIDE_BY_10_SIGNED     "temperature/th_5";
  mkTag ITEM_TEMP6               TAG_TYPE_SHORT_DIVIDE_BY_10_SIGNED     "temperature/th_6";
  mkTag ITEM_TEMP7               TAG_TYPE_SHORT_DIVIDE_BY_10_SIGNED     "temperature/th_7";
  mkTag ITEM_TEMP8               TAG_TYPE_SHORT_DIVIDE_BY_10_SIGNED     "temperature/th_8";
  mkTag ITEM_HUMI1               TAG_TYPE_BYTE_LEAVE_ALONE              "humidity/th_1";
  mkTag ITEM_HUMI2               TAG_TYPE_BYTE_LEAVE_ALONE              "humidity/th_2";
  mkTag ITEM_HUMI3               TAG_TYPE_BYTE_LEAVE_ALONE              "humidity/th_3";
  mkTag ITEM_HUMI4               TAG_TYPE_BYTE_LEAVE_ALONE              "humidity/th_4";
  mkTag ITEM_HUMI5               TAG_TYPE_BYTE_LEAVE_ALONE              "humidity/th_5";
  mkTag ITEM_HUMI6               TAG_TYPE_BYTE_LEAVE_ALONE              "humidity/th_6";
  mkTag ITEM_HUMI7               TAG_TYPE_BYTE_LEAVE_ALONE              "humidity/th_7";
  mkTag ITEM_HUMI8               TAG_TYPE_BYTE_LEAVE_ALONE              "humidity/th_8";
  mkTag ITEM_PM25_CH1            TAG_TYPE_SHORT_LEAVE_ALONE             "air_quality";
  mkTag ITEM_SOILTEMP1           TAG_TYPE_SHORT_DIVIDE_BY_10_SIGNED     "temperature/soil_1";
  mkTag ITEM_SOILMOISTURE1       TAG_TYPE_BYTE_LEAVE_ALONE              "moisture/soil_1";
  mkTag ITEM_SOILTEMP2           TAG_TYPE_SHORT_DIVIDE_BY_10_SIGNED     "temperature/soil_2";
  mkTag ITEM_SOILMOISTURE2       TAG_TYPE_BYTE_LEAVE_ALONE              "moisture/soil_2";
  mkTag ITEM_SOILTEMP3           TAG_TYPE_SHORT_DIVIDE_BY_10_SIGNED     "temperature/soil_3";
  mkTag ITEM_SOILMOISTURE3       TAG_TYPE_BYTE_LEAVE_ALONE              "moisture/soil_3";
  mkTag ITEM_SOILTEMP4           TAG_TYPE_SHORT_DIVIDE_BY_10_SIGNED     "temperature/soil_4";
  mkTag ITEM_SOILMOISTURE4       TAG_TYPE_BYTE_LEAVE_ALONE              "moisture/soil_4";
  mkTag ITEM_SOILTEMP5           TAG_TYPE_SHORT_DIVIDE_BY_10_SIGNED     "temperature/soil_5";
  mkTag ITEM_SOILMOISTURE5       TAG_TYPE_BYTE_LEAVE_ALONE              "moisture/soil_5";
  mkTag ITEM_SOILTEMP6           TAG_TYPE_SHORT_DIVIDE_BY_10_SIGNED     "temperature/soil_6";
  mkTag ITEM_SOILMOISTURE6       TAG_TYPE_BYTE_LEAVE_ALONE              "moisture/soil_6";
  mkTag ITEM_SOILTEMP7           TAG_TYPE_SHORT_DIVIDE_BY_10_SIGNED     "temperature/soil_7";
  mkTag ITEM_SOILMOISTURE7       TAG_TYPE_BYTE_LEAVE_ALONE              "moisture/soil_7";
  mkTag ITEM_SOILTEMP8           TAG_TYPE_SHORT_DIVIDE_BY_10_SIGNED     "temperature/soil_8";
  mkTag ITEM_SOILMOISTURE8       TAG_TYPE_BYTE_LEAVE_ALONE              "moisture/soil_8";
  mkTag ITEM_SOILTEMP9           TAG_TYPE_SHORT_DIVIDE_BY_10_SIGNED     "temperature/soil_9";
  mkTag ITEM_SOILMOISTURE9       TAG_TYPE_BYTE_LEAVE_ALONE              "moisture/soil_9";
  mkTag ITEM_SOILTEMP10          TAG_TYPE_SHORT_DIVIDE_BY_10_SIGNED     "temperature/soil_10";
  mkTag ITEM_SOILMOISTURE10      TAG_TYPE_BYTE_LEAVE_ALONE              "moisture/soil_10";
  mkTag ITEM_SOILTEMP11          TAG_TYPE_SHORT_DIVIDE_BY_10_SIGNED     "temperature/soil_11";
  mkTag ITEM_SOILMOISTURE11      TAG_TYPE_BYTE_LEAVE_ALONE              "moisture/soil_11";
  mkTag ITEM_SOILTEMP12          TAG_TYPE_SHORT_DIVIDE_BY_10_SIGNED     "temperature/soil_12";
  mkTag ITEM_SOILMOISTURE12      TAG_TYPE_BYTE_LEAVE_ALONE              "moisture/soil_12";
  mkTag ITEM_SOILTEMP13          TAG_TYPE_SHORT_DIVIDE_BY_10_SIGNED     "temperature/soil_13";
  mkTag ITEM_SOILMOISTURE13      TAG_TYPE_BYTE_LEAVE_ALONE              "moisture/soil_13";
  mkTag ITEM_SOILTEMP14          TAG_TYPE_SHORT_DIVIDE_BY_10_SIGNED     "temperature/soil_14";
  mkTag ITEM_SOILMOISTURE14      TAG_TYPE_BYTE_LEAVE_ALONE              "moisture/soil_14";
  mkTag ITEM_SOILTEMP15          TAG_TYPE_SHORT_DIVIDE_BY_10_SIGNED     "temperature/soil_15";
  mkTag ITEM_SOILMOISTURE15      TAG_TYPE_BYTE_LEAVE_ALONE              "moisture/soil_15";
  mkTag ITEM_SOILTEMP16          TAG_TYPE_SHORT_DIVIDE_BY_10_SIGNED     "temperature/soil_16";
  mkTag ITEM_SOILMOISTURE16      TAG_TYPE_BYTE_LEAVE_ALONE              "moisture/soil_16";
  mkTag ITEM_LOWBATT             TAG_TYPE_16_BYTES_BITMASK              "all_sensor_low_battery";
  mkTag ITEM_PM25_24HAVG1        TAG_TYPE_SHORT_LEAVE_ALONE             "pm25/ch1";
  mkTag ITEM_PM25_24HAVG2        TAG_TYPE_SHORT_LEAVE_ALONE             "pm25/ch2";
  mkTag ITEM_PM25_24HAVG3        TAG_TYPE_SHORT_LEAVE_ALONE             "pm25/ch3";
  mkTag ITEM_PM25_24HAVG4        TAG_TYPE_SHORT_LEAVE_ALONE             "pm25/ch4";
  mkTag ITEM_PM25_CH2            TAG_TYPE_SHORT_LEAVE_ALONE             "aqs/2";
  mkTag ITEM_PM25_CH3            TAG_TYPE_SHORT_LEAVE_ALONE             "aqs/3";
  mkTag ITEM_PM25_CH4            TAG_TYPE_SHORT_LEAVE_ALONE             "aqs/4";
  mkTag ITEM_LEAK_CH1            TAG_TYPE_BYTE_LEAVE_ALONE              "leak/1";
  mkTag ITEM_LEAK_CH2            TAG_TYPE_BYTE_LEAVE_ALONE              "leak/2";
  mkTag ITEM_LEAK_CH3            TAG_TYPE_BYTE_LEAVE_ALONE              "leak/3";
  mkTag ITEM_LEAK_CH4            TAG_TYPE_BYTE_LEAVE_ALONE              "leak/4";
  mkTag ITEM_LIGHTNING           TAG_TYPE_BYTE_LEAVE_ALONE              "lightning/distance";
  mkTag ITEM_LIGHTNING_TIME      TAG_TYPE_INT_LEAVE_ALONE               "lightning/time";
  mkTag ITEM_LIGHTNING_POWER     TAG_TYPE_INT_LEAVE_ALONE               "lightning/day_counter";
  mkTag ITEM_TF_USR1             TAG_TYPE_3_BYTES_TEMP_AND_BATT         "temperature/t1";
  mkTag ITEM_TF_USR2             TAG_TYPE_3_BYTES_TEMP_AND_BATT         "temperature/t2";
  mkTag ITEM_TF_USR3             TAG_TYPE_3_BYTES_TEMP_AND_BATT         "temperature/t3";
  mkTag ITEM_TF_USR4             TAG_TYPE_3_BYTES_TEMP_AND_BATT         "temperature/t4";
  mkTag ITEM_TF_USR5             TAG_TYPE_3_BYTES_TEMP_AND_BATT         "temperature/t5";
  mkTag ITEM_TF_USR6             TAG_TYPE_3_BYTES_TEMP_AND_BATT         "temperature/t6";
  mkTag ITEM_TF_USR7             TAG_TYPE_3_BYTES_TEMP_AND_BATT         "temperature/t7";
  mkTag ITEM_TF_USR8             TAG_TYPE_3_BYTES_TEMP_AND_BATT         "temperature/t8";
  mkTag ITEM_SENSOR_CO2          TAG_TYPE_16_BYTES_CO2                  "co2";
  mkTag ITEM_PM25_AQI            TAG_TYPE_PM25_AQI                      "aqi";
  mkTag ITEM_LEAF_WETNESS_CH1    TAG_TYPE_BYTE_LEAVE_ALONE              "leaf_wetness/1";
  mkTag ITEM_LEAF_WETNESS_CH2    TAG_TYPE_BYTE_LEAVE_ALONE              "leaf_wetness/2";
  mkTag ITEM_LEAF_WETNESS_CH3    TAG_TYPE_BYTE_LEAVE_ALONE              "leaf_wetness/3";
  mkTag ITEM_LEAF_WETNESS_CH4    TAG_TYPE_BYTE_LEAVE_ALONE              "leaf_wetness/4";
  mkTag ITEM_LEAF_WETNESS_CH5    TAG_TYPE_BYTE_LEAVE_ALONE              "leaf_wetness/5";
  mkTag ITEM_LEAF_WETNESS_CH6    TAG_TYPE_BYTE_LEAVE_ALONE              "leaf_wetness/6";
  mkTag ITEM_LEAF_WETNESS_CH7    TAG_TYPE_BYTE_LEAVE_ALONE              "leaf_wetness/7";
  mkTag ITEM_LEAF_WETNESS_CH8    TAG_TYPE_BYTE_LEAVE_ALONE              "leaf_wetness/8";
  mkTag ITEM_Piezo_Rain_Rate     TAG_TYPE_SHORT_LEAVE_ALONE             "rain/piezo/rate";
  mkTag ITEM_Piezo_Event_Rain    TAG_TYPE_SHORT_LEAVE_ALONE             "rain/piezo/event";
  mkTag ITEM_Piezo_Hourly_Rain   TAG_TYPE_SHORT_LEAVE_ALONE             "rain/piezo/hourly";
  mkTag ITEM_Piezo_Daily_Rain    TAG_TYPE_INT_LEAVE_ALONE               "rain/piezo/daily";
  mkTag ITEM_Piezo_Weekly_Rain   TAG_TYPE_INT_LEAVE_ALONE               "rain/piezo/weekly";
  mkTag ITEM_Piezo_Monthly_Rain  TAG_TYPE_INT_LEAVE_ALONE               "rain/piezo/monthly";
  mkTag ITEM_Piezo_yearly_Rain   TAG_TYPE_INT_LEAVE_ALONE               "rain/piezo/yearly";
  mkTag ITEM_Piezo_Gain10        TAG_TYPE_20_BYTES_PIEZO_GAIN           "rain/piezo/gain";
  mkTag ITEM_RST_RainTime        TAG_TYPE_3_BYTES_TIME                  "rain/rst/time"
].

(** [tag_index]: the scan runs from the last row down, [n] rows still to look
    at. *)
Fixpoint tag_index_from (tbl : list TagSpec) (n : nat) (tg : Z) : Z :=
  match n with
  | O => -1
  | S i =>
      match tbl !! i with
      | Some s => if tg =? tag s then Z.of_nat i else tag_index_from tbl i tg
      | None => -1
      end
  end.

Definition tag_index (tbl : list TagSpec) (tg : Z) : Z :=
  tag_index_from tbl (length tbl) tg.

(** * The daemon's state and its outputs *)

Inductive event :=
  | Publish (topic_suffix payload : string)
  | Stderr (msg : string).

Record world := {
  tagData : list TagSpec;
  data_buffer : list Z;
  data_buffer_len : Z;
  data_buffer_last_update : Z;
  time_calls : nat;
  events : list event
}.

Definition world_init : world :=
  {| tagData := tagData_init;
     data_buffer := replicate 1024 0;
     data_buffer_len := 0;
     data_buffer_last_update := 0;
     time_calls := 0;
     events := [] |}.

Definition emit (e : event) (w : world) : world :=
  {| tagData := tagData w; data_buffer := data_buffer w;
     data_buffer_len := data_buffer_len w;
     data_buffer_last_update := data_buffer_last_update w;
     time_calls := time_calls w; events := events w ++ [e] |}.

(** [mqtt_publish(mosq, topic_suffix, payload)]: the broker side is external;
    what is handed to it is recorded. *)
Definition mqtt_publish (topic_suffix payload : string) (w : world) : world :=
  emit (Publish topic_suffix payload) w.

Definition set_tagData (tbl : list TagSpec) (w : world) : world :=
  {| tagData := tbl; data_buffer := data_buffer w;
     data_buffer_len := data_buffer_len w;
     data_buffer_last_update := data_buffer_last_update w;
     time_calls := time_calls w; events := events w |}.

Definition set_data_buffer (buf : list Z) (len : Z) (w : world) : world :=
  {| tagData := tagData w; data_buffer := buf; data_buffer_len := len;
     data_buffer_last_update := data_buffer_last_update w;
     time_calls := time_calls w; events := events w |}.

Definition set_data_buffer_last_update (t : Z) (w : world) : world :=
  {| tagData := tagData w; data_buffer := data_buffer w;
     data_buffer_len := data_buffer_len w; data_buffer_last_update := t;
     time_calls := time_calls w; events := events w |}.

Definition tick (w : world) : world :=
  {| tagData := tagData w; data_buffer := data_buffer w;
     data_buffer_len := data_buffer_len w;
     data_buffer_last_update := data_buffer_last_update w;
     time_calls := S (time_calls w); events := events w |}.

(** [strncpy(tagData[ti].lastMessage, payload, MQTT_MESSAGE_MAXLEN);
     time(&tagData[ti].lastMessageTimestamp);] on one row *)
Definition record (payload : string) (now : Z) (s : TagSpec) : TagSpec :=
  {| tag := tag s; type := type s; topic := topic s;
     lastMessage := strncpy payload MQTT_MESSAGE_MAXLEN;
     lastMessageTimestamp := now |}.

(** The outcome of a loop run with fuel. *)
Inductive outcome (A : Type) :=
  | Done (a : A)
  | Undefined
  | OutOfFuel.
Arguments Done {A} a.
Arguments Undefined {A}.
Arguments OutOfFuel {A}.

(** * Value decoder *)

(** An [int] after an operation that can leave its range. *)
Definition wrap_int (x : Z) : Z := (x + 2 ^ 31) `mod` 2 ^ 32 - 2 ^ 31.

(** [tmpInt = buf[1]; tmpInt = (tmpInt << 8) + buf[2];] *)
Definition read_short (b1 b2 : Z) : Z := Z.shiftl b1 8 + b2.

(** The signed 16-bit rule of the two temperature variants. *)
Definition read_short_signed (b1 b2 : Z) : Z :=
  let tmpInt := read_short b1 b2 in
  if negb (Z.land b1 0x80 =? 0) then tmpInt - 0xFFFF else tmpInt.

(** The two nested loops of the 16-byte bitmask,
    [payload[(8*i) + (7 - b)] = (buf[1 + i] & (1 << b)) ? '1' : '0';]
    with [nb] iterations of the inner loop and [ni] of the outer one left. *)
Definition bit_char (x : Z) (b : Z) : ascii :=
  if negb (Z.land x (Z.shiftl 1 b) =? 0) then "1"%char else "0"%char.

Fixpoint bit_loop (buf : list Z) (p i : Z) (nb : nat) (b : Z)
    (payload : list ascii) : option (list ascii) :=
  match nb with
  | O => Some payload
  | S nb' =>
      x ← rd buf (p + (1 + i));
      payload ← wr payload (8 * i + (7 - b)) (bit_char x b);
      bit_loop buf p i nb' (b + 1) payload
  end.

Fixpoint byte_loop (buf : list Z) (p : Z) (ni : nat) (i : Z)
    (payload : list ascii) : option (list ascii) :=
  match ni with
  | O => Some payload
  | S ni' =>
      payload ← bit_loop buf p i 8 0 payload;
      byte_loop buf p ni' (i + 1) payload
  end.

(** [char payload[256]; payload[0] = 0;]: only cells the code has written
    are ever read, so the cells not yet written are shown as terminators. *)
Definition payload_init : list ascii := replicate 256 NUL.

(** What the [switch] of [process_tag] leaves behind: the world (one variant
    publishes inside the switch) and [payload], or an early [return]. *)
Inductive switched :=
  | Payload (w : world) (payload : string)
  | Return (rc : Z).

Definition decode (buf : list Z) (p : Z) (subtopic : string)
    (tagType : TAG_PROCESSING_TYPE) (w : world) : option switched :=
  match tagType with
  | TAG_TYPE_BYTE_LEAVE_ALONE =>
      b1 ← rd buf (p + 1);
      Some (Payload w (fmt_d b1))
  | TAG_TYPE_SHORT_LEAVE_ALONE =>
      b1 ← rd buf (p + 1); b2 ← rd buf (p + 2);
      Some (Payload w (fmt_d (read_short b1 b2)))
  | TAG_TYPE_3_BYTES_LEAVE_ALONE =>
      b1 ← rd buf (p + 1); b2 ← rd buf (p + 2); b3 ← rd buf (p + 3);
      Some (Payload w (fmt_d (Z.shiftl (read_short b1 b2) 8 + b3)))
  | TAG_TYPE_INT_LEAVE_ALONE =>
      b1 ← rd buf (p + 1); b2 ← rd buf (p + 2); b3 ← rd buf (p + 3);
      b4 ← rd buf (p + 4);
      Some (Payload w
              (fmt_d (wrap_int (Z.shiftl (Z.shiftl (read_short b1 b2) 8 + b3) 8
                                + b4))))
  | TAG_TYPE_SHORT_DIVIDE_BY_10_UNSIGNED =>
      b1 ← rd buf (p + 1); b2 ← rd buf (p + 2);
      Some (Payload w (fmt_tenths (read_short b1 b2)))
  | TAG_TYPE_SHORT_DIVIDE_BY_10_SIGNED =>
      b1 ← rd buf (p + 1); b2 ← rd buf (p + 2);
      Some (Payload w (fmt_tenths (read_short_signed b1 b2)))
  | TAG_TYPE_3_BYTES_TEMP_AND_BATT =>
      b1 ← rd buf (p + 1); b2 ← rd buf (p + 2);
      let tmpInt := read_short_signed b1 b2 in
      sensor ← strrchr subtopic "/";
      batttopic ← fits 256 ("battery" +:+ sensor);
      b3 ← rd buf (p + 3);
      let w := mqtt_publish batttopic (fmt_battery b3) w in
      Some (Payload w (fmt_tenths tmpInt))
  | TAG_TYPE_3_BYTES_TIME => Some (Payload w EmptyString)
  | TAG_TYPE_6_BYTES_TIME => Some (Payload w EmptyString)
  | TAG_TYPE_16_BYTES_BITMASK =>
      payload ← byte_loop buf p 16 0 payload_init;
      payload ← wr payload 128 NUL;
      payload ← c_str payload;
      Some (Payload w payload)
  | TAG_TYPE_16_BYTES_CO2
  | TAG_TYPE_20_BYTES_PIEZO_GAIN => Some (Payload w EmptyString)
  | TAG_TYPE_PM25_AQI => Some (Return (-1))
  end.

Section Daemon.

(** The clock: the value the n-th call of [time()] returns. *)
Variable time : nat → Z.

Definition process_tag (buf : list Z) (p : Z) (w : world)
  : option (Z * world) :=
  b0 ← rd buf p;
  let ti := tag_index (tagData w) b0 in
  if 0 <=? ti then
    row ← rd (tagData w) ti;
    let subtopic := topic row in
    let tagType := type row in
    let length := tagTypeDataLength tagType in
    sw ← decode buf p subtopic tagType w;
    match sw with
    | Return rc => Some (rc, w)
    | Payload w payload =>
        if nonempty payload then
          let w := mqtt_publish subtopic payload w in
          let now := time (time_calls w) in
          let w := tick w in
          tbl ← wr (tagData w) ti (record payload now row);
          Some (1 + length, set_tagData tbl w)
        else Some (1 + length, emit (Stderr ("No payload to publish" +:+ LF)) w)
    end
  else Some (-1, w).

(** The [while (readBytes < length)] loop of [parse_and_publish]; [p] is the
    offset of the cursor [buf] in the receive buffer. *)
Fixpoint parse_loop (fuel : nat) (buf : list Z) (p readBytes length : Z)
    (w : world) : outcome world :=
  if readBytes <? length then
    match fuel with
    | O => OutOfFuel
    | S fuel' =>
        match process_tag buf p w with
        | None => Undefined
        | Some (tagChunkSize, w') =>
            if 0 <? tagChunkSize
            then parse_loop fuel' buf (p + tagChunkSize)
                            (readBytes + tagChunkSize) length w'
            else Done w'
        end
    end
  else Done w.

(** The part of [parse_and_publish] before the loop: the declared length and
    the world after the raw copy. *)
Definition parse_prologue (buf : list Z) (w : world) : option (Z * world) :=
  b3 ← rd buf 3;
  b4 ← rd buf 4;
  let length := Z.shiftl b3 8 + b4 in
  raw ← copy_from (data_buffer w) 0 (drop 5 buf) (Z.to_nat length);
  let w := set_data_buffer raw length w in
  let now := time (time_calls w) in
  Some (length, set_data_buffer_last_update now (tick w)).

(** [parse_and_publish]: the loop starts with the cursor at offset 5 and
    [readBytes = 3], and runs with as much fuel as the declared length. *)
Definition parse_and_publish (buf : list Z) (w : world) : outcome world :=
  match parse_prologue buf w with
  | None => Undefined
  | Some (length, w) => parse_loop (Z.to_nat length) buf 5 3 length w
  end.

Definition TOPIC_ALL_DATA_JSON : string := "all_data/json".

(** [if (tagData[ti].lastMessage[0] && ((now - tagData[ti].lastMessageTimestamp)
         <= MESSAGE_EXPIRATION_SECONDS))] *)
Definition json_includes (now : Z) (row : TagSpec) : option bool :=
  c ← rd (lastMessage row) 0;
  Some (negb (bool_decide (c = NUL))
        && (now - lastMessageTimestamp row <=? MESSAGE_EXPIRATION_SECONDS)).

(** The [sprintf] into [char strbuf[128]]: the topic and [lastMessage], each
    between double quotes, with a colon and a space between them. *)
Definition json_entry (row : TagSpec) : option string :=
  msg ← c_str (lastMessage row);
  fits 128 (DQUOTE +:+ topic row +:+ DQUOTE +:+ ": " +:+ DQUOTE +:+ msg
            +:+ DQUOTE).

(** The [for (ti = tag_count() - 1; ti >= 0; ti--)] loop of [publish_json]
    with [n] rows still to visit, over [char json_buffer[1024]]. *)
Fixpoint json_loop (tbl : list TagSpec) (now : Z) (n : nat)
    (json_buffer : string) (firstTopic : bool) : option (string * bool) :=
  match n with
  | O => Some (json_buffer, firstTopic)
  | S ti =>
      row ← tbl !! ti;
      inc ← json_includes now row;
      if inc : bool then
        json_buffer ← (if firstTopic then Some json_buffer
                        else fits 1024 (json_buffer +:+ "," +:+ LF));
        strbuf ← json_entry row;
        json_buffer ← fits 1024 (json_buffer +:+ strbuf);
        json_loop tbl now ti json_buffer false
      else json_loop tbl now ti json_buffer firstTopic
  end.

Definition publish_json (w : world) : option world :=
  let now := time (time_calls w) in
  let w := tick w in
  r ← json_loop (tagData w) now (length (tagData w)) ("{" +:+ LF) true;
  json_buffer ← fits 1024 (r.1 +:+ LF +:+ "}");
  if r.2 : bool
  then Some (emit (Stderr ("No recent data to publish" +:+ LF)) w)
  else Some (mqtt_publish TOPIC_ALL_DATA_JSON json_buffer w).

End Daemon.

(** * Requests, raw snapshot and the dispatch of a reply *)

Definition TOPIC_ALL_DATA_REQUEST : string := "all_data/request".
Definition MSG_ALL_DATA_JSON : string := "json".
Definition MSG_ALL_DATA_RAW : string := "raw".
Definition TOPIC_ALL_DATA_RAW : string := "all_data/raw".

(** A payload of bytes as the event log shows it: one character per byte. *)
Definition byte_char (b : Z) : ascii := ascii_of_N (Z.to_N b).

Definition bytes_string (l : list Z) : string :=
  string_of_list_ascii (byte_char <$> l).

(** [mqtt_publish_data(mosq, topic_suffix, payload, payload_len)]: the first
    [payload_len] bytes of the array [payload] go to the broker. *)
Definition mqtt_publish_data (topic_suffix : string) (payload : list Z)
    (payload_len : Z) (w : world) : option world :=
  if decide (0 ≤ payload_len ≤ Z.of_nat (length payload))
  then Some (emit (Publish topic_suffix
                     (bytes_string (take (Z.to_nat payload_len) payload))) w)
  else None.

(** [snprintf(dst, cap, ...)]: the text, cut to [cap - 1] characters. *)
Definition snprintf (cap : nat) (s : string) : string :=
  String.substring 0 (cap - 1) s.

(** The characters [strncpy(dst, src, n)] takes from the array [src]: those
    before its first terminator, [n] at most. *)
Fixpoint strn_read (src : list ascii) (n : nat) : option string :=
  match n with
  | O => Some EmptyString
  | S n' =>
      match src with
      | [] => None
      | c :: src' => if decide (c = NUL) then Some EmptyString
                     else String c <$> strn_read src' n'
      end
  end.

(** Writing [cells] at the start of the array [dst]. *)
Definition write_cells {A} (dst cells : list A) : option (list A) :=
  if decide (length cells ≤ length dst)%nat
  then Some (cells ++ drop (length cells) dst) else None.

(** [%02X] of an [unsigned char] *)
Definition hex_digit (d : Z) : ascii :=
  if d <? 10 then ascii_of_N (Z.to_N (48 + d))
  else ascii_of_N (Z.to_N (55 + d)).

Definition fmt_02X (b : Z) : string :=
  String (hex_digit (b / 16)) (String (hex_digit (b `mod` 16)) EmptyString).

(** [struct mosquitto_message], the fields [on_message] reads;
    [message_payload] is the array behind the pointer [payload]. *)
Record mosquitto_message := {
  message_topic : string;
  message_payload : list ascii;
  message_payloadlen : Z
}.

Section Requests.

Variable time : nat → Z.

(** [char mqtt_base_topic[64]], as the configuration leaves it. *)
Variable mqtt_base_topic : string.

Definition publish_raw (w : world) : option world :=
  let now := time (time_calls w) in
  let w := tick w in
  if MESSAGE_EXPIRATION_SECONDS <? now - data_buffer_last_update w then
    Some (emit (Stderr ("Can't publish data, it's stale. Haven't received an update in "
                        +:+ fmt_d (now - data_buffer_last_update w)
                        +:+ " seconds" +:+ LF)) w)
  else if data_buffer_len w =? 0 then
    Some (emit (Stderr ("Can't publish data, there isn't any" +:+ LF)) w)
  else mqtt_publish_data TOPIC_ALL_DATA_RAW (data_buffer w) (data_buffer_len w) w.

(** [on_message]: [char payload[128]] receives the message payload and a
    terminator at [payloadlen]; the cells of [payload] not written are shown
    as terminators and are not read. *)
Definition on_message (message : mosquitto_message) (w : world)
  : option world :=
  let n := message_payloadlen message in
  if decide (0 ≤ n) then
    s ← strn_read (message_payload message) (Z.to_nat n);
    payload ← write_cells (replicate 128 NUL) (strncpy s (Z.to_nat n));
    payload ← wr payload n NUL;
    payload ← c_str payload;
    let full_topic :=
      snprintf 128 (mqtt_base_topic +:+ "/" +:+ TOPIC_ALL_DATA_REQUEST) in
    if decide (message_topic message = full_topic) then
      if decide (payload = MSG_ALL_DATA_JSON) then publish_json time w
      else if decide (payload = MSG_ALL_DATA_RAW) then publish_raw w
      else Some (emit (Stderr ("Data type not supported for message "
                               +:+ message_topic message +:+ ": " +:+ payload
                               +:+ LF)) w)
    else Some (emit (Stderr ("Missing topic handler for subscribed topic: "
                             +:+ message_topic message +:+ LF)) w)
  else None.

(** The [switch (check_receive_buffer(RECEIVE_BUFFER))] of the loop of
    [main], on the receive buffer as [recv] left it. *)
Definition main_switch (RECEIVE_BUFFER : list Z) (w : world) : outcome world :=
  match check_receive_buffer RECEIVE_BUFFER with
  | None => Undefined
  | Some rc =>
      if rc =? RECEIVE_BUFFER_OK then parse_and_publish time RECEIVE_BUFFER w
      else if rc =? INVALID_HEADER then
        match rd RECEIVE_BUFFER 0, rd RECEIVE_BUFFER 1 with
        | Some b0, Some b1 =>
            Done (emit (Stderr ("invalid header returned: 0x" +:+ fmt_02X b0
                                +:+ fmt_02X b1 +:+ LF)) w)
        | _, _ => Undefined
        end
      else if rc =? INVALID_CHECKSUM then
        Done (emit (Stderr ("invalid checksum" +:+ LF)) w)
      else if rc =? INVALID_LENGTH then
        Done (emit (Stderr ("invalid length" +:+ LF)) w)
      else Done w
  end.

End Requests.

(** * Closed forms and sample inputs used by the theorems *)

(** The eight characters one data byte contributes, in index order. *)
Definition byte_bits (x : Z) : list ascii :=
  [bit_char x 7; bit_char x 6; bit_char x 5; bit_char x 4;
   bit_char x 3; bit_char x 2; bit_char x 1; bit_char x 0].

(** A reply frame with two payload bytes: size 6, payload 04 00, checksum
    0 + 0 + 6 + 4 + 0 = 0x0A. *)
Definition frame_6 : list Z := [0xFF; 0xFF; 0; 0; 6; 4; 0; 10].

(** A clock that starts at 1000 and advances by one second per reading. *)
Definition clock_1000 : nat → Z := λ n, 1000 + Z.of_nat n.

(** A reply frame of declared length 0x10: indoor temperature 1.0, outdoor
    temperature -0.9, user temperature 1 with battery byte 0x4B, then the
    tag 0x4B, which the registry does not have, and two more bytes. *)
Definition frame_unknown : list Z :=
  [0xFF; 0xFF; 0x27; 0x00; 0x10;
   0x01; 0x00; 0x0A;
   0x02; 0xFF; 0xF6;
   0x63; 0x00; 0x0A; 0x4B;
   0x4B; 0x06; 0x2A; 0x00; 0x00; 0x00].

(** The state of a parse: cursor offset, [readBytes] and the world. *)
Definition parse_state : Type := Z * Z * world.

(** [decodes time buf length s s']: from [s] the loop of [parse_and_publish]
    decodes some tags one after the other, each call of [process_tag]
    returning a positive chunk size, and gets to [s']. *)
Inductive decodes (time : nat → Z) (buf : list Z) (length : Z)
  : parse_state → parse_state → Prop :=
  | decodes_nil s : decodes time buf length s s
  | decodes_cons p readBytes w tagChunkSize w1 s' :
      readBytes < length →
      process_tag time buf p w = Some (tagChunkSize, w1) →
      0 < tagChunkSize →
      decodes time buf length
              (p + tagChunkSize, readBytes + tagChunkSize, w1) s' →
      decodes time buf length (p, readBytes, w) s'.

(** The registry part of the table: what the daemon never writes. *)
Definition registry (tbl : list TagSpec) : list (Z * TAG_PROCESSING_TYPE * string) :=
  (λ row, (tag row, type row, topic row)) <$> tbl.

(** The last path segment of a topic: what follows its last slash (the whole
    topic when it has none). *)
Fixpoint last_segment (s : string) : string :=
  match s with
  | EmptyString => EmptyString
  | String a s' =>
      match strrchr s' "/" with
      | Some _ => last_segment s'
      | None => if decide (a = "/"%char) then s' else s
      end
  end.

(** The check the battery variant needs of a registry row: its topic has a
    slash, and the battery topic fits [char batttopic[256]]. *)
Definition batt_row_ok (r : Z * TAG_PROCESSING_TYPE * string) : bool :=
  match r.1.2 with
  | TAG_TYPE_3_BYTES_TEMP_AND_BATT =>
      match strrchr r.2 "/" with
      | Some sensor => bool_decide (String.length ("battery" +:+ sensor) < 256)%nat
      | None => false
      end
  | _ => true
  end.

(** The world after the bitmask tag with data 01 00 ... 00 is decoded in
    the initial world. *)
Definition world_after_bitmask : world :=
  match process_tag clock_1000 (ITEM_LOWBATT :: 0x01 :: replicate 15 0) 0
                    world_init with
  | Some (_, w') => w'
  | None => world_init
  end.

(** An observation has a value when its [lastMessage] starts with a
    character other than the terminator, and is fresh at [now] when it has a
    value no older than the expiration time. *)
Definition has_value (row : TagSpec) : Prop :=
  match lastMessage row with
  | c :: _ => c ≠ NUL
  | [] => False
  end.

Definition is_fresh (now : Z) (row : TagSpec) : Prop :=
  has_value row ∧ now - lastMessageTimestamp row ≤ MESSAGE_EXPIRATION_SECONDS.

Global Instance has_value_dec (row : TagSpec) : Decision (has_value row).
Proof. unfold has_value. destruct (lastMessage row); apply _. Defined.

Global Instance is_fresh_dec (now : Z) (row : TagSpec) :
  Decision (is_fresh now row).
Proof. unfold is_fresh. apply _. Defined.

(** The snapshot as a text: the entries between braces, one per line,
    separated by commas. *)
Definition render_snapshot (entries : list string) : string :=
  "{" +:+ LF +:+ String.concat ("," +:+ LF) entries +:+ LF +:+ "}".

(** What the loop of [publish_json] appends to [json_buffer] for a list of
    entries. *)
Fixpoint add_entries (firstTopic : bool) (json_buffer : string)
    (entries : list string) : string :=
  match entries with
  | [] => json_buffer
  | e :: entries' =>
      add_entries false
        ((if firstTopic then json_buffer else json_buffer +:+ "," +:+ LF) +:+ e)
        entries'
  end.

Fixpoint comma_lines (entries : list string) : string :=
  match entries with
  | [] => EmptyString
  | e :: entries' => ("," +:+ LF) +:+ e +:+ comma_lines entries'
  end.

(** A clock that advances by 30 seconds per reading, and the world after
    [frame_unknown] is parsed under it: the raw copy is stamped 1000, the
    three temperatures 1030, 1060 and 1090, and the next reading is 1120. *)
Definition clock_30 : nat → Z := λ n, 1000 + 30 * Z.of_nat n.

Definition world_after_frame : world :=
  match parse_and_publish clock_30 frame_unknown world_init with
  | Done w => w
  | _ => world_init
  end.

(** The snapshot asked for at 1120: the indoor temperature (1030) is 90
    seconds old and left out, the outdoor one (1060) is 60 seconds old and
    still in, after the user temperature (1090). *)
Definition snapshot_entry (topic value : string) : string :=
  DQUOTE +:+ topic +:+ DQUOTE +:+ ": " +:+ DQUOTE +:+ value +:+ DQUOTE.

Definition world_after_snapshot : world :=
  mqtt_publish TOPIC_ALL_DATA_JSON
    (render_snapshot [snapshot_entry "temperature/t1" "1.0";
                      snapshot_entry "temperature/outdoors" "-0.9"])
    (tick world_after_frame).

(** A string as C has it: no terminator among its characters. *)
Definition no_NUL (s : string) : Prop :=
  Forall (λ c, c ≠ NUL) (list_ascii_of_string s).

(** The sum of a list of bytes, and a reply frame as the gateway sends it:
    header, command, 16-bit big-endian size (command, size, payload and
    checksum), payload, checksum byte, then whatever follows in the buffer. *)
Definition sum_list (l : list Z) : Z := foldr Z.add 0 l.

Definition reply_size (payload : list Z) : Z := 4 + Z.of_nat (length payload).

Definition reply_frame (cmd : Z) (payload : list Z) (cs : Z) (rest : list Z)
  : list Z :=
  [0xFF; 0xFF; cmd; reply_size payload / 256; reply_size payload `mod` 256]
  ++ payload ++ cs :: rest.

Definition reply_checksum (cmd : Z) (payload : list Z) : Z :=
  (cmd + reply_size payload / 256 + reply_size payload `mod` 256
   + sum_list payload) `mod` 256.

(** The variants the decoder has no decoding for: it skips their data. *)
Definition is_reserved (tagType : TAG_PROCESSING_TYPE) : bool :=
  match tagType with
  | TAG_TYPE_3_BYTES_TIME | TAG_TYPE_6_BYTES_TIME
  | TAG_TYPE_16_BYTES_CO2 | TAG_TYPE_20_BYTES_PIEZO_GAIN => true
  | _ => false
  end.

(** The parts of the world a decode does not touch. *)
Definition same_raw (w w' : world) : Prop :=
  data_buffer w' = data_buffer w ∧ data_buffer_len w' = data_buffer_len w ∧
  data_buffer_last_update w' = data_buffer_last_update w.

(** No timestamp of the table is later than the next clock reading. *)
Definition stamped (time : nat → Z) (w : world) : Prop :=
  Forall (λ row, lastMessageTimestamp row ≤ time (time_calls w)) (tagData w).

(** The 16-bit two's-complement value of two bytes, high byte first. *)
Definition twos_complement_16 (b1 b2 : Z) : Z :=
  (256 * b1 + b2 + 32768) `mod` 65536 - 32768.

(** A valid live-data reply whose payload is one indoor temperature; its
    checksum byte, 0x39, is also the tag id of a soil temperature, and the
    buffer goes on with bytes of an earlier reply. *)
Definition frame_checksum_tag : list Z :=
  [0xFF; 0xFF; 0x27; 0x00; 0x07; 0x01; 0x00; 0x0A; 0x39; 0xFF; 0xF6; 0; 0; 0; 0].

(** A valid reply with an indoor temperature, the AQI record and an outdoor
    temperature, and three more bytes of the receive buffer. *)
Definition frame_aqi : list Z :=
  [0xFF; 0xFF; 0x27; 0x00; 0x0E; 0x01; 0x00; 0x0A; 0x71; 0x02; 0x00; 0x01;
   0x02; 0x00; 0x0A; 0xC0; 0; 0; 0].

(** A receive buffer of 1024 bytes that holds a frame of declared length
    1020 with a right checksum at offset 1021. *)
Definition frame_oversize : list Z :=
  [0xFF; 0xFF; 0x27; 0x03; 0xFC] ++ replicate 1016 0 ++ [0x26; 0; 0].

(** A clock read many times within one second, and the reply of a station
    that reports its own sensors, eight temperature and humidity sensors and
    sixteen soil sensors (rows 0 to 22 and 24 to 73 of the table), every
    reading zero; the world after that reply is parsed. *)
Definition clock_still : nat → Z := λ _, 1000.

Definition frame_full_station : list Z :=
  let rows := take 23 tagData_init ++ take 50 (drop 24 tagData_init) in
  let payload :=
    flat_map (λ row, tag row
                     :: replicate (Z.to_nat (tagTypeDataLength (type row))) 0)
             rows in
  reply_frame CMD_GW1000_LIVEDATA payload
              (reply_checksum CMD_GW1000_LIVEDATA payload) (replicate 32 0).

Definition world_full_station : world :=
  match parse_and_publish clock_still frame_full_station world_init with
  | Done w => w
  | _ => world_init
  end.

(** What a printed decimal denotes, read from the text alone. A decimal
    with [decimals] places is an optional minus sign, an integer part with
    no leading zero, a point and exactly [decimals] digits, and it is not
    minus zero; [decimal_value decimals s] is the number it denotes,
    counted in units of [10^-decimals]: tenths for one place, hundredths
    for two. *)
Definition digit_value (c : ascii) : option Z :=
  let n := Z.of_N (N_of_ascii c) in
  if (48 <=? n) && (n <=? 57) then Some (n - 48) else None.

Fixpoint digits_value (s : string) (acc : Z) : option Z :=
  match s with
  | EmptyString => Some acc
  | String c s' => d ← digit_value c; digits_value s' (10 * acc + d)
  end.

Fixpoint fixed_value (decimals : nat) (s : string) (acc : Z) : option Z :=
  match s with
  | EmptyString => None
  | String c s' =>
      if decide (c = "."%char) then
        if decide (String.length s' = decimals) then digits_value s' acc
        else None
      else d ← digit_value c; fixed_value decimals s' (10 * acc + d)
  end.

Definition no_leading_zero (s : string) : bool :=
  match s with
  | EmptyString => false
  | String c s' =>
      if decide (c = "."%char) then false
      else if decide (c = "0"%char) then
        match s' with
        | String c' _ => bool_decide (c' = "."%char)
        | EmptyString => false
        end
      else true
  end.

Definition decimal_value (decimals : nat) (s : string) : option Z :=
  match s with
  | EmptyString => None
  | String c s' =>
      if decide (c = "-"%char) then
        if no_leading_zero s' then
          v ← fixed_value decimals s' 0;
          if 0 <? v then Some (- v) else None
        else None
      else if no_leading_zero s then fixed_value decimals s 0 else None
  end.

(** * The model on sample inputs *)

Example prepare_livedata_query :
  prepare_command_buffer (replicate 8 0) CMD_GW1000_LIVEDATA None 0
  = Some (5, [0xFF; 0xFF; 0x27; 0x03; 0x2A; 0; 0; 0]).
Proof. reflexivity. Qed.

Example frame_6_accepted : check_receive_buffer frame_6 = Some RECEIVE_BUFFER_OK.
Proof. reflexivity. Qed.

Example bad_header_rejected :
  check_receive_buffer (<[1%nat := 0xFE]> frame_6) = Some INVALID_HEADER.
Proof. reflexivity. Qed.

Example registry_has_no_0x4B : tag_index tagData_init 0x4B = -1.
Proof. reflexivity. Qed.

Example indoor_temperature_published :
  events ∘ snd <$> process_tag clock_1000 [ITEM_INTEMP; 0x00; 0x0A] 0 world_init
  = Some [Publish "temperature/indoors" "1.0"].
Proof. vm_compute. reflexivity. Qed.

Example time_tag_publishes_nothing :
  events ∘ snd
    <$> process_tag clock_1000 [ITEM_TIME; 0; 0; 0; 0; 0; 0] 0 world_init
  = Some [Stderr ("No payload to publish" +:+ LF)].
Proof. vm_compute. reflexivity. Qed.

Example aqi_tag_ends_the_parse :
  process_tag clock_1000 [ITEM_PM25_AQI; 2; 0; 1] 0 world_init
  = Some (-1, world_init).
Proof. vm_compute. reflexivity. Qed.

Example light_above_int_max_wraps :
  decode [ITEM_LIGHT; 0xFF; 0x00; 0x00; 0x01] 0 "light"
         TAG_TYPE_INT_LEAVE_ALONE world_init
  = Some (Payload world_init "-16777215").
Proof. reflexivity. Qed.

(** * Reading and writing arrays *)

Lemma rd_Some {A} (buf : list A) (i : Z) (x : A) :
  rd buf i = Some x ↔ 0 ≤ i ∧ buf !! Z.to_nat i = Some x.
Proof.
  unfold rd. destruct (decide (0 ≤ i)) as [Hi|Hi].
  - split; [by intros ?|by intros [_ ?]].
  - split; [done|by intros [? _]].
Qed.

Lemma rd_nat {A} (buf : list A) (i : nat) : rd buf (Z.of_nat i) = buf !! i.
Proof. unfold rd. rewrite decide_True by lia. by rewrite Nat2Z.id. Qed.

Lemma rd_insert_ne {A} (buf : list A) (i k : Z) (v : A) :
  0 ≤ k → i ≠ k → rd (<[Z.to_nat k := v]> buf) i = rd buf i.
Proof.
  intros Hk Hne. unfold rd. case_decide; [|done].
  apply list_lookup_insert_ne. lia.
Qed.

Lemma rd_insert_eq {A} (buf : list A) (k : Z) (v : A) :
  0 ≤ k < Z.of_nat (length buf) → rd (<[Z.to_nat k := v]> buf) k = Some v.
Proof.
  intros Hk. unfold rd. rewrite decide_True by lia.
  apply list_lookup_insert_eq. lia.
Qed.

Lemma rd_lt {A} (buf : list A) (i : Z) (x : A) :
  rd buf i = Some x → 0 ≤ i < Z.of_nat (length buf).
Proof.
  rewrite rd_Some. intros [Hi Hx]. apply lookup_lt_Some in Hx. lia.
Qed.

Lemma rd_byte (buf : list Z) (i x : Z) :
  bytes buf → rd buf i = Some x → is_byte x.
Proof.
  intros Hb [_ Hx]%rd_Some. eapply Forall_lookup_1 in Hb; eauto.
Qed.

Lemma wr_Some {A} (buf : list A) (i : Z) (v : A) :
  0 ≤ i < Z.of_nat (length buf) → wr buf i v = Some (<[Z.to_nat i := v]> buf).
Proof. intros. unfold wr. by rewrite decide_True. Qed.

(** * The checksum loop *)

Lemma sum_bytes_shift (buf : list Z) (n : nat) :
  ∀ i acc d, sum_bytes buf i n (acc + d) = (λ s, s + d) <$> sum_bytes buf i n acc.
Proof.
  induction n as [|n IH]; intros i acc d; simpl; [done|].
  destruct (rd buf i) as [b|]; simpl; [|done].
  replace (acc + d + b) with (acc + b + d) by lia. apply IH.
Qed.

Lemma sum_bytes_insert_outside (buf : list Z) (k v : Z) (n : nat) :
  ∀ i acc, 0 ≤ k → k < i ∨ i + Z.of_nat n ≤ k →
    sum_bytes (<[Z.to_nat k := v]> buf) i n acc = sum_bytes buf i n acc.
Proof.
  induction n as [|n IH]; intros i acc Hk Hout; simpl; [done|].
  rewrite rd_insert_ne by lia.
  destruct (rd buf i) as [b|]; simpl; [|done].
  apply IH; lia.
Qed.

Lemma sum_bytes_insert_inside (buf : list Z) (k v old : Z) (n : nat) :
  ∀ i acc s, 0 ≤ i ≤ k → k < i + Z.of_nat n →
    rd buf k = Some old →
    sum_bytes buf i n acc = Some s →
    sum_bytes (<[Z.to_nat k := v]> buf) i n acc = Some (s - old + v).
Proof.
  induction n as [|n IH]; intros i acc s Hi Hk Hold Hs; [lia|].
  simpl in *. destruct (decide (i = k)) as [->|Hne].
  - rewrite rd_insert_eq by (by eapply rd_lt).
    rewrite Hold in Hs. simpl in *.
    rewrite sum_bytes_insert_outside by lia.
    replace (acc + v) with (acc + old + (v - old)) by lia.
    rewrite sum_bytes_shift, Hs. simpl. f_equal. lia.
  - rewrite rd_insert_ne by lia.
    destruct (rd buf i) as [b|]; simpl in *; [|done].
    apply IH; auto; lia.
Qed.

Lemma sum_bytes_bounds (buf : list Z) (n : nat) :
  ∀ i acc s, bytes buf → sum_bytes buf i n acc = Some s →
    acc ≤ s ≤ acc + 255 * Z.of_nat n.
Proof.
  induction n as [|n IH]; intros i acc s Hb Hs; simpl in *.
  - simplify_eq. lia.
  - destruct (rd buf i) as [b|] eqn:Hrd; simpl in *; [|done].
    apply IH in Hs; [|done]. pose proof (rd_byte _ _ _ Hb Hrd) as Hx.
    unfold is_byte in Hx. lia.
Qed.

Lemma sum_bytes_in_bounds (buf : list Z) (n : nat) :
  ∀ i acc s, 0 ≤ i → sum_bytes buf i n acc = Some s →
    n = 0%nat ∨ i + Z.of_nat n ≤ Z.of_nat (length buf).
Proof.
  induction n as [|n IH]; intros i acc s Hi Hs; [by left|]. right.
  cbn [sum_bytes] in Hs.
  destruct (rd buf i) as [b|] eqn:Hrd; cbn [mbind option_bind] in Hs; [|done].
  apply rd_lt in Hrd. apply IH in Hs as [->|Hs]; lia.
Qed.

(** * Frame codec: validation *)

Lemma check_receive_buffer_ok_inv (buf : list Z) :
  check_receive_buffer buf = Some RECEIVE_BUFFER_OK →
  ∃ L s, rd buf 0 = Some 0xFF ∧ rd buf 1 = Some 0xFF ∧
         frame_length buf = Some L ∧ checksum_loop buf L = Some s ∧
         rd buf (L + 1) = Some (s `mod` 256).
Proof.
  unfold check_receive_buffer, INVALID_HEADER, INVALID_CHECKSUM,
    RECEIVE_BUFFER_OK.
  intros H.
  destruct (rd buf 0) as [b0|]; simpl in H; [|done].
  destruct (b0 =? 255) eqn:E0; simpl in H; [|done].
  destruct (rd buf 1) as [b1|]; simpl in H; [|done].
  destruct (b1 =? 255) eqn:E1; simpl in H; [|done].
  destruct (frame_length buf) as [L|]; simpl in H; [|done].
  destruct (checksum_loop buf L) as [s|] eqn:Es; simpl in H; [|done].
  destruct (rd buf (L + 1)) as [c|] eqn:Ec'; simpl in H; [|done].
  destruct (s `mod` 256 =? c) eqn:Ec; simpl in H; [|done].
  apply Z.eqb_eq in E0, E1, Ec. subst. eauto 10.
Qed.

Lemma frame_length_insert (buf : list Z) (i v : Z) :
  0 ≤ i → i ≠ 3 → i ≠ 4 →
  frame_length (<[Z.to_nat i := v]> buf) = frame_length buf.
Proof.
  intros. unfold frame_length. by rewrite !rd_insert_ne by lia.
Qed.

Lemma mod_256_shift_ne (s old v : Z) :
  is_byte old → is_byte v → v ≠ old →
  (s - old + v) `mod` 256 ≠ s `mod` 256.
Proof.
  unfold is_byte. intros Ho Hv Hne Heq.
  assert (Hd : ((s - old + v) - s) `mod` 256 = 0).
  { rewrite Zminus_mod, Heq, Z.sub_diag. done. }
  apply Z.mod_divide in Hd; [|lia]. destruct Hd as [q Hq]. lia.
Qed.

(** C3, as amended: a frame [check_receive_buffer] accepts, with one byte
    other than the two size bytes changed (a header byte, the command byte, a
    payload byte or the checksum byte, at offset [i] up to [length + 1]), is
    rejected: with [INVALID_HEADER] for a header byte, with
    [INVALID_CHECKSUM] otherwise. *)
Theorem check_receive_buffer_detects_corruption
    (buf : list Z) (L i old v : Z) :
  bytes buf →
  check_receive_buffer buf = Some RECEIVE_BUFFER_OK →
  frame_length buf = Some L →
  0 ≤ i ≤ L + 1 → i ≠ 3 → i ≠ 4 →
  rd buf i = Some old → is_byte v → v ≠ old →
  check_receive_buffer (<[Z.to_nat i := v]> buf)
  = Some (if i <? 2 then INVALID_HEADER else INVALID_CHECKSUM).
Proof.
  intros Hb Hok HL Hi H3 H4 Hold Hv Hne.
  destruct (check_receive_buffer_ok_inv _ Hok)
    as (L' & s & H0 & H1 & HL' & Hs & Hc).
  rewrite HL in HL'; injection HL' as <-.
  pose proof (rd_lt _ _ _ Hold) as Hlt.
  unfold check_receive_buffer.
  destruct (decide (i = 0)) as [->|Hi0].
  { rewrite rd_insert_eq by done. simpl.
    assert (v ≠ 255) by congruence.
    by destruct (Z.eqb_spec v 255). }
  rewrite (rd_insert_ne buf 0 i v), H0 by lia. simpl.
  destruct (decide (i = 1)) as [->|Hi1].
  { rewrite rd_insert_eq by done. simpl.
    assert (v ≠ 255) by congruence.
    by destruct (Z.eqb_spec v 255). }
  rewrite (rd_insert_ne buf 1 i v), H1 by lia. simpl.
  rewrite frame_length_insert, HL by lia. simpl.
  destruct (Z.ltb_spec i 2) as [?|_]; [lia|].
  unfold checksum_loop in *.
  destruct (decide (i = L + 1)) as [->|HiL].
  - rewrite sum_bytes_insert_outside, Hs by lia. simpl.
    rewrite rd_insert_eq by done. simpl.
    assert (s `mod` 256 ≠ v) by congruence.
    by destruct (Z.eqb_spec (s `mod` 256) v).
  - erewrite sum_bytes_insert_inside by (eauto; lia). simpl.
    rewrite rd_insert_ne, Hc by lia. simpl.
    pose proof (mod_256_shift_ne s old v (rd_byte _ _ _ Hb Hold) Hv Hne).
    by destruct (Z.eqb_spec ((s - old + v) `mod` 256) (s `mod` 256)).
Qed.

Lemma check_receive_buffer_detects_corruption_witness :
  check_receive_buffer (<[Z.to_nat 5 := 5]> frame_6) = Some INVALID_CHECKSUM.
Proof.
  apply (check_receive_buffer_detects_corruption frame_6 6 5 4 5).
  - unfold bytes, frame_6, is_byte. repeat constructor; lia.
  - reflexivity.
  - reflexivity.
  - lia.
  - lia.
  - lia.
  - reflexivity.
  - unfold is_byte. lia.
  - lia.
Defined.

(** C3, as stated, fails for a size byte: [frame_6] is accepted, and so is
    the buffer that differs from it in the low size byte alone (offset 4,
    6 changed to 4). *)
Lemma size_byte_corruption_accepted :
  check_receive_buffer frame_6 = Some RECEIVE_BUFFER_OK ∧
  frame_6 !! 4%nat = Some 6 ∧
  check_receive_buffer (<[4%nat := 4]> frame_6) = Some RECEIVE_BUFFER_OK.
Proof. repeat split; reflexivity. Qed.

(** * Frame codec: command construction *)

Lemma land_FF (x : Z) : 0 ≤ x < 256 → Z.land 0xFF x = x.
Proof.
  intros Hx. rewrite Z.land_comm. change 0xFF with (Z.ones 8).
  rewrite Z.land_ones by lia. apply Z.mod_small. lia.
Qed.

Lemma prepare_command_buffer_too_large
    (buf : list Z) (cmd : Z) (payload : option (list Z)) (len : Z) :
  252 ≤ len → prepare_command_buffer buf cmd payload len = Some (-1, buf).
Proof.
  intros Hlen. unfold prepare_command_buffer.
  by destruct (Z.leb_spec (0xFF - 3) len) as [_|?]; [|lia].
Qed.

(** The guard on the payload pointer fires when the pointer is NOT null. *)
Lemma prepare_command_buffer_nonnull_rejected
    (buf : list Z) (cmd : Z) (data : list Z) (len : Z) :
  0 < len → prepare_command_buffer buf cmd (Some data) len = Some (-1, buf).
Proof.
  intros Hlen. unfold prepare_command_buffer.
  destruct (0xFF - 3 <=? len); [done|].
  by destruct (Z.ltb_spec 0 len) as [_|?]; [|lia].
Qed.

(** ... and a null pointer with a positive length reaches [memcpy]. *)
Lemma prepare_command_buffer_null_undefined
    (buf : list Z) (cmd : Z) (len : Z) :
  0 < len < 252 → prepare_command_buffer buf cmd None len = None.
Proof.
  intros Hlen. unfold prepare_command_buffer.
  destruct (Z.leb_spec (0xFF - 3) len) as [?|_]; [lia|].
  rewrite andb_false_r.
  destruct (wr buf 0 255) as [b0|]; simpl; [|done].
  destruct (wr b0 1 255) as [b1|]; simpl; [|done].
  destruct (wr b1 2 cmd) as [b2|]; simpl; [|done].
  destruct (wr b2 3 _) as [b3|]; simpl; [|done].
  by destruct (Z.eqb_spec len 0) as [?|_]; [lia|].
Qed.

(** C1, as amended: for every command id, the frame [prepare_command_buffer]
    builds for the empty payload is [FF FF cmd 03 cs] with
    [cs = (cmd + 3) mod 256], the rest of the buffer untouched. It carries a
    ONE-byte size: read with that size (3) it has the header and the
    checksum [check_receive_buffer] asks for (the bytes at offsets 2..size
    sum, modulo 256, to the byte at offset size + 1), but
    [check_receive_buffer] reads a 16-bit size at offsets 3-4, here
    [0x0300 + cs], so the frame is not one it validates: in a buffer of up
    to 768 bytes, such as the 260 bytes of [COMMAND_BUFFER], its checksum
    loop runs past the end of the buffer. *)
Theorem prepare_command_buffer_empty_payload (buf : list Z) (cmd : Z) :
  is_byte cmd → (5 ≤ length buf)%nat →
  ∃ b', prepare_command_buffer buf cmd None 0 = Some (5, b') ∧
        take 5 b' = [0xFF; 0xFF; cmd; 3; (cmd + 3) `mod` 256] ∧
        drop 5 b' = drop 5 buf ∧
        (∃ s, checksum_loop b' 3 = Some s ∧ rd b' (3 + 1) = Some (s `mod` 256)) ∧
        frame_length b' = Some (0x0300 + (cmd + 3) `mod` 256) ∧
        ((length buf ≤ 768)%nat → check_receive_buffer b' = None).
Proof.
  intros Hcmd Hlen.
  destruct buf as [|x0 [|x1 [|x2 [|x3 [|x4 rest]]]]]; simpl in Hlen; try lia.
  pose proof (Z.mod_pos_bound (cmd + 3) 256 ltac:(lia)) as Hcs.
  eexists. split.
  { unfold prepare_command_buffer, checksum_loop. simpl.
    do 3 (rewrite wr_Some by (simpl; lia); simpl).
    rewrite wr_Some by (simpl; lia). simpl.
    change ((3 + 0) `mod` 256) with 3.
    replace (0 + cmd + 3) with (cmd + 3) by lia.
    rewrite (land_FF _ Hcs). reflexivity. }
  split; [done|]. split; [done|]. split; [by exists (cmd + 3)|].
  split; [done|]. intros Hshort.
  set (b' := 255 :: 255 :: cmd :: 3 :: (cmd + 3) `mod` 256 :: rest).
  assert (H0 : rd b' 0 = Some 255) by reflexivity.
  assert (H1 : rd b' 1 = Some 255) by reflexivity.
  assert (H3 : rd b' 3 = Some 3) by reflexivity.
  assert (H4 : rd b' 4 = Some ((cmd + 3) `mod` 256)) by reflexivity.
  unfold check_receive_buffer, frame_length.
  rewrite H0. cbn [mbind option_bind]. change (negb (255 =? 255)) with false.
  cbv iota. rewrite H1. cbn [mbind option_bind].
  change (negb (255 =? 255)) with false. cbv iota.
  rewrite H3. cbn [mbind option_bind]. rewrite H4. cbn [mbind option_bind].
  destruct (checksum_loop _ _) as [s|] eqn:Hs; [|done]. exfalso.
  unfold checksum_loop in Hs.
  apply sum_bytes_in_bounds in Hs as [Hs|Hs]; [| |lia].
  - change (3 ≪ 8) with 768 in Hs. lia.
  - change (3 ≪ 8) with 768 in Hs. subst b'. simpl length in *. lia.
Qed.

Lemma prepare_command_buffer_empty_payload_witness :
  ∃ b', prepare_command_buffer (replicate 8 0) CMD_GW1000_LIVEDATA None 0
        = Some (5, b') ∧
        take 5 b' = [0xFF; 0xFF; 0x27; 3; 0x2A] ∧
        drop 5 b' = [0; 0; 0] ∧
        (∃ s, checksum_loop b' 3 = Some s ∧ rd b' (3 + 1) = Some (s `mod` 256)) ∧
        frame_length b' = Some 0x032A ∧
        ((length (replicate 8 0) ≤ 768)%nat → check_receive_buffer b' = None).
Proof.
  apply (prepare_command_buffer_empty_payload (replicate 8 0) CMD_GW1000_LIVEDATA).
  - unfold is_byte, CMD_GW1000_LIVEDATA. lia.
  - simpl. lia.
Defined.

(** C1, as stated, fails already for the live-data query of [main]
    (command 0x27, empty payload): built into a zeroed buffer of the size of
    the receive buffer, the frame is FF FF 27 03 2A; [check_receive_buffer]
    reads the length 0x032A = 810 from it, sums offsets 2..810 to 0x54 and
    compares with the 0 at offset 811. *)
Lemma command_frame_not_validated :
  ∃ b', prepare_command_buffer (replicate RECEIVE_BUFFER_SIZE 0)
          CMD_GW1000_LIVEDATA None 0 = Some (5, b') ∧
        check_receive_buffer b' = Some INVALID_CHECKSUM.
Proof. eexists. split; vm_compute; reflexivity. Qed.

(** C2 at the failing input: a 251-byte payload behind a non-null pointer is
    refused with -1 and nothing is written, where the size check alone
    (251 < 252) lets it through. *)
Lemma prepare_command_buffer_251_rejected :
  prepare_command_buffer (replicate COMMAND_BUFFER_SIZE 0) CMD_GW1000_LIVEDATA
    (Some (replicate 251 0)) 251
  = Some (-1, replicate COMMAND_BUFFER_SIZE 0).
Proof. reflexivity. Qed.

(** * Value decoder: what the printed decimals denote *)

Lemma digit_value_char (d : N) :
  (d < 10)%N →
  digit_value (pretty_N_char d) = Some (Z.of_N d)
  ∧ pretty_N_char d ≠ "."%char ∧ pretty_N_char d ≠ "-"%char.
Proof.
  intros Hd.
  assert (d = 0 ∨ d = 1 ∨ d = 2 ∨ d = 3 ∨ d = 4 ∨ d = 5 ∨ d = 6 ∨ d = 7
          ∨ d = 8 ∨ d = 9)%N as Hcases by lia.
  repeat (destruct Hcases as [->|Hcases]; [by repeat split|]).
  subst d. by repeat split.
Qed.

Lemma pretty_N_go_app (x : N) :
  ∀ s t, pretty_N_go x s +:+ t = pretty_N_go x (s +:+ t).
Proof.
  induction (N.lt_wf_0 x) as [x _ IH]; intros s t.
  destruct (decide (x = 0)%N) as [->|Hx]; [by rewrite !pretty_N_go_0|].
  rewrite (pretty_N_go_step x s), (pretty_N_go_step x (s +:+ t)) by lia.
  rewrite IH by (apply N.div_lt; lia). reflexivity.
Qed.

(** Reading the digits [pretty_N_go] puts in front of a text. *)
Lemma fixed_value_go (decimals : nat) (x : N) :
  ∀ s, fixed_value decimals (pretty_N_go x s) 0
       = fixed_value decimals s (Z.of_N x).
Proof.
  induction (N.lt_wf_0 x) as [x _ IH]; intros s.
  destruct (decide (x = 0)%N) as [->|Hx]; [by rewrite pretty_N_go_0|].
  rewrite pretty_N_go_step by lia.
  rewrite IH by (apply N.div_lt; lia). cbn [fixed_value].
  destruct (digit_value_char (x `mod` 10)%N) as (Hd & Hpt & _);
    [apply N.mod_lt; lia|].
  rewrite decide_False by done. rewrite Hd. cbn [mbind option_bind].
  f_equal. rewrite N2Z.inj_div, N2Z.inj_mod.
  pose proof (Z.div_mod (Z.of_N x) 10). lia.
Qed.

Lemma pretty_N_go_head (x : N) :
  ∀ s, (0 < x)%N →
       ∃ d s', (0 < d < 10)%N ∧ pretty_N_go x s = String (pretty_N_char d) s'.
Proof.
  induction (N.lt_wf_0 x) as [x _ IH]; intros s Hx.
  rewrite pretty_N_go_step by done.
  destruct (decide (x < 10)%N) as [Hlt|Hge].
  - rewrite N.div_small, N.mod_small by done. rewrite pretty_N_go_0.
    exists x, s. split; [lia|done].
  - apply IH; [apply N.div_lt; lia|].
    apply N.div_str_pos. lia.
Qed.

Lemma pretty_Z_nonneg (z : Z) :
  0 ≤ z →
  pretty z = "0" ∧ z = 0
  ∨ 0 < z ∧ pretty z = pretty_N_go (Z.to_N z) EmptyString.
Proof.
  intros Hz. destruct z as [|q|q]; [by left| |lia].
  right. split; [lia|]. unfold pretty, pretty_Z, pretty, pretty_positive,
    pretty, pretty_N.
  by rewrite decide_False.
Qed.

(** The integer part [pretty z] of a decimal: it is read as [z], has no
    leading zero and does not start with a minus sign. *)
Lemma integer_part (decimals : nat) (z : Z) (t : string) :
  0 ≤ z →
  fixed_value decimals (pretty z +:+ "." +:+ t) 0
  = (if decide (String.length t = decimals) then digits_value t z else None)
  ∧ no_leading_zero (pretty z +:+ "." +:+ t) = true
  ∧ ∃ c s', pretty z +:+ "." +:+ t = String c s' ∧ c ≠ "-"%char.
Proof.
  intros Hz. destruct (pretty_Z_nonneg z Hz) as [[-> ->]|[Hpos ->]].
  - split; [done|]. split; [done|]. by eexists _, _.
  - rewrite pretty_N_go_app. split; [|split].
    + rewrite fixed_value_go, Z2N.id by lia. done.
    + destruct (pretty_N_go_head (Z.to_N z) (EmptyString +:+ "." +:+ t))
        as (d & s' & Hd & ->); [lia|].
      assert (d = 1 ∨ d = 2 ∨ d = 3 ∨ d = 4 ∨ d = 5 ∨ d = 6 ∨ d = 7
              ∨ d = 8 ∨ d = 9)%N as Hcases by lia.
      repeat (destruct Hcases as [->|Hcases]; [done|]). by subst d.
    + destruct (pretty_N_go_head (Z.to_N z) (EmptyString +:+ "." +:+ t))
        as (d & s' & Hd & ->); [lia|].
      exists (pretty_N_char d), s'. split; [done|].
      apply digit_value_char. lia.
Qed.

(** One printed digit. *)
Lemma digit_text (d : Z) (t : string) (acc : Z) :
  0 ≤ d < 10 →
  (digits_value (pretty d +:+ t) acc = digits_value t (10 * acc + d)
   ∧ String.length (pretty d +:+ t) = S (String.length t))
  ∧ digits_value (pretty d) acc = Some (10 * acc + d)
  ∧ String.length (pretty d) = 1%nat.
Proof.
  intros Hd.
  assert (d = 0 ∨ d = 1 ∨ d = 2 ∨ d = 3 ∨ d = 4 ∨ d = 5 ∨ d = 6 ∨ d = 7
          ∨ d = 8 ∨ d = 9) as Hcases by lia.
  repeat (destruct Hcases as [->|Hcases]; [by repeat split|]).
  subst d. by repeat split.
Qed.

(** The text [fmt_tenths] prints denotes [n] tenths, for every [n]. *)
Lemma fmt_tenths_value (n : Z) : decimal_value 1 (fmt_tenths n) = Some n.
Proof.
  unfold fmt_tenths.
  set (q := Z.abs n / 10). set (r := Z.abs n `mod` 10).
  assert (Hq : 0 ≤ q) by (apply Z.div_pos; lia).
  assert (Hr : 0 ≤ r < 10) by (apply Z.mod_pos_bound; lia).
  assert (Hqr : 10 * q + r = Z.abs n)
    by (unfold q, r; pose proof (Z.div_mod (Z.abs n) 10); lia).
  destruct (integer_part 1 q (pretty r) Hq) as (Hval & Hlead & c & s' & Hs & Hc).
  destruct (digit_text r EmptyString q Hr) as (_ & Hdig & Hlen).
  rewrite decide_True, Hdig, Hqr in Hval by done.
  destruct (Z.ltb_spec n 0) as [Hneg|Hpos].
  - change ("-" +:+ ?x) with (String "-" x). cbn [decimal_value].
    rewrite decide_True by done. rewrite Hlead, Hval.
    cbn [mbind option_bind].
    destruct (Z.ltb_spec 0 (Z.abs n)) as [_|?]; [|lia]. f_equal. lia.
  - change (EmptyString +:+ ?x) with x. rewrite Hs in *.
    cbn [decimal_value]. rewrite decide_False by done.
    rewrite Hlead, Hval. f_equal. lia.
Qed.

(** The text [fmt_battery] prints denotes [2 * b] hundredths, that is
    [b * 0.02]. *)
Lemma fmt_battery_value (b : Z) :
  0 ≤ b → decimal_value 2 (fmt_battery b) = Some (2 * b).
Proof.
  intros Hb. unfold fmt_battery. cbv zeta.
  set (h := 2 * b).
  set (q := h / 100). set (d1 := (h / 10) `mod` 10). set (d2 := h `mod` 10).
  assert (Hq : 0 ≤ q) by (apply Z.div_pos; lia).
  assert (H1 : 0 ≤ d1 < 10) by (apply Z.mod_pos_bound; lia).
  assert (H2 : 0 ≤ d2 < 10) by (apply Z.mod_pos_bound; lia).
  assert (Hh : 10 * (10 * q + d1) + d2 = h).
  { unfold q, d1, d2. replace (h / 100) with (h / 10 / 10)
      by (rewrite Z.div_div by lia; done).
    pose proof (Z.div_mod h 10). pose proof (Z.div_mod (h / 10) 10). lia. }
  destruct (integer_part 2 q (pretty d1 +:+ pretty d2) Hq)
    as (Hval & Hlead & c & s' & Hs & Hc).
  destruct (digit_text d1 (pretty d2) q H1) as ([Hdig1 Hlen1] & _).
  destruct (digit_text d2 EmptyString (10 * q + d1) H2) as (_ & Hdig2 & Hlen2).
  rewrite Hlen1, Hlen2, decide_True, Hdig1, Hdig2, Hh in Hval by done.
  rewrite Hs in *. cbn [decimal_value]. rewrite decide_False by done.
  by rewrite Hlead, Hval.
Qed.

(** * Value decoder: the signed 16-bit rule *)

Lemma high_bit (b : Z) :
  is_byte b → negb (Z.land b 0x80 =? 0) = Z.testbit b 7.
Proof.
  intros [Hlo Hhi].
  assert (H : forallb (λ n, Bool.eqb (negb (Z.land (Z.of_nat n) 0x80 =? 0))
                                   (Z.testbit (Z.of_nat n) 7))
                      (seq 0 256) = true) by (vm_compute; reflexivity).
  rewrite forallb_forall in H. specialize (H (Z.to_nat b)).
  rewrite Z2Nat.id in H by lia. apply Bool.eqb_prop, H, in_seq. lia.
Qed.

Lemma read_short_signed_value (b1 b2 : Z) :
  is_byte b1 →
  read_short_signed b1 b2
  = 256 * b1 + b2 - (if Z.testbit b1 7 then 0xFFFF else 0).
Proof.
  intros Hb1. unfold read_short_signed, read_short.
  rewrite (high_bit _ Hb1), Z.shiftl_mul_pow2 by lia.
  destruct (Z.testbit b1 7); lia.
Qed.

(** C5: the decoder of the signed tenths variant maps the bytes 00 0A to
    "1.0" and FF F6 to "-0.9"; for every two data bytes it takes the 16-bit
    big-endian value, subtracts 0xFFFF when the high bit of the first byte
    is set, and prints the tenth of the result with one decimal: the
    payload is a decimal text with exactly one digit after the point which,
    read back digit by digit, denotes that number of tenths. *)
Theorem decode_short_scaled_signed
    (buf : list Z) (p : Z) (subtopic : string) (w : world) (b1 b2 : Z) :
  rd buf (p + 1) = Some b1 → rd buf (p + 2) = Some b2 →
  is_byte b1 → is_byte b2 →
  (∃ s, decode buf p subtopic TAG_TYPE_SHORT_DIVIDE_BY_10_SIGNED w
        = Some (Payload w s)
        ∧ decimal_value 1 s
          = Some (256 * b1 + b2 - (if Z.testbit b1 7 then 0xFFFF else 0)))
  ∧ decode buf p subtopic TAG_TYPE_SHORT_DIVIDE_BY_10_SIGNED w
    = Some (Payload w (fmt_tenths (256 * b1 + b2
                                   - (if Z.testbit b1 7 then 0xFFFF else 0))))
  ∧ (b1 = 0x00 → b2 = 0x0A →
     decode buf p subtopic TAG_TYPE_SHORT_DIVIDE_BY_10_SIGNED w
     = Some (Payload w "1.0"))
  ∧ (b1 = 0xFF → b2 = 0xF6 →
     decode buf p subtopic TAG_TYPE_SHORT_DIVIDE_BY_10_SIGNED w
     = Some (Payload w "-0.9")).
Proof.
  intros H1 H2 Hb1 Hb2.
  assert (Hd : decode buf p subtopic TAG_TYPE_SHORT_DIVIDE_BY_10_SIGNED w
               = Some (Payload w (fmt_tenths (read_short_signed b1 b2)))).
  { unfold decode. rewrite H1. simpl. rewrite H2. done. }
  rewrite Hd. split; [|split; [|split]].
  - eexists. split; [done|].
    by rewrite fmt_tenths_value, read_short_signed_value.
  - by rewrite read_short_signed_value.
  - by intros -> ->.
  - by intros -> ->.
Qed.

Lemma decode_short_scaled_signed_witness :
  decode [ITEM_OUTTEMP; 0xFF; 0xF6] 0 "temperature/outdoors"
         TAG_TYPE_SHORT_DIVIDE_BY_10_SIGNED world_init
  = Some (Payload world_init "-0.9")
  ∧ decimal_value 1 "-0.9" = Some (0xFFF6 - 0xFFFF).
Proof.
  destruct (decode_short_scaled_signed
              [ITEM_OUTTEMP; 0xFF; 0xF6] 0 "temperature/outdoors" world_init
              0xFF 0xF6)
    as ((s & Hs & Hv) & _ & _ & Hneg);
    [reflexivity|reflexivity|unfold is_byte; lia|unfold is_byte; lia|].
  specialize (Hneg eq_refl eq_refl). rewrite Hneg in Hs.
  injection Hs as <-. split; [exact Hneg|exact Hv].
Defined.

(** * Value decoder: the 16-byte bitmask *)

Lemma wr_app_at {A} (X Y : list A) (z : Z) (j : nat) (c : A) :
  z = Z.of_nat (length X + j) → (j < length Y)%nat →
  wr (X ++ Y) z c = Some (X ++ <[j := c]> Y).
Proof.
  intros -> Hj. rewrite wr_Some by (rewrite length_app; lia).
  by rewrite Nat2Z.id, insert_app_r.
Qed.

Local Ltac bit_step X j :=
  rewrite (wr_app_at X _ _ j);
    [|lia|rewrite ?length_insert; cbn [length]; lia];
  cbn [mbind option_bind].

Lemma bit_loop_byte (buf : list Z) (p : Z) (i : nat) (x : Z)
    (X : list ascii) (m : nat) :
  rd buf (p + (1 + Z.of_nat i)) = Some x →
  length X = (8 * i)%nat →
  bit_loop buf p (Z.of_nat i) 8 0 (X ++ replicate (8 + m) NUL)
  = Some (X ++ byte_bits x ++ replicate m NUL).
Proof.
  intros Hx HX. cbn [bit_loop]. rewrite !Hx. cbn [mbind option_bind].
  cbn [replicate Nat.add].
  bit_step X 7%nat. bit_step X 6%nat. bit_step X 5%nat. bit_step X 4%nat.
  bit_step X 3%nat. bit_step X 2%nat. bit_step X 1%nat. bit_step X 0%nat.
  reflexivity.
Qed.

Lemma byte_loop_data (buf : list Z) (p : Z) (data : list Z) :
  ∀ (i : nat) (X : list ascii) (m : nat),
    (∀ j x, data !! j = Some x →
            rd buf (p + (1 + Z.of_nat (i + j))) = Some x) →
    length X = (8 * i)%nat →
    byte_loop buf p (length data) (Z.of_nat i)
              (X ++ replicate (8 * length data + m) NUL)
    = Some (X ++ (data ≫= byte_bits) ++ replicate m NUL).
Proof.
  induction data as [|x data IH]; intros i X m Hrd HX; [done|].
  cbn [length byte_loop].
  replace (8 * S (length data) + m)%nat
    with (8 + (8 * length data + m))%nat by lia.
  rewrite (bit_loop_byte buf p i x X _); [|by rewrite <- (Nat.add_0_r i); apply Hrd|done].
  cbn [mbind option_bind].
  replace (Z.of_nat i + 1) with (Z.of_nat (S i)) by lia.
  rewrite app_assoc, IH.
  - by rewrite <- app_assoc.
  - intros j y Hy. replace (S i + j)%nat with (i + S j)%nat by lia.
    by apply Hrd.
  - rewrite length_app. simpl. lia.
Qed.

Lemma bit_char_not_NUL (x b : Z) : bit_char x b ≠ NUL.
Proof. unfold bit_char. by destruct (negb _). Qed.

Lemma bits_not_NUL (data : list Z) :
  Forall (λ c, c ≠ NUL) (data ≫= byte_bits).
Proof.
  induction data as [|x data IH]; [constructor|].
  cbn [mbind list_bind]. apply Forall_app. split; [|done].
  unfold byte_bits. repeat constructor; apply bit_char_not_NUL.
Qed.

Lemma bits_length (data : list Z) :
  length (data ≫= byte_bits) = (8 * length data)%nat.
Proof.
  induction data as [|x data IH]; [done|].
  cbn [mbind list_bind]. rewrite length_app, IH. simpl. lia.
Qed.

Lemma bits_lookup (data : list Z) :
  ∀ (i k : nat) (x : Z), data !! i = Some x → (k < 8)%nat →
    (data ≫= byte_bits) !! (8 * i + k)%nat
    = Some (bit_char x (7 - Z.of_nat k)).
Proof.
  induction data as [|y data IH]; intros i k x Hi Hk; [done|].
  cbn [mbind list_bind]. destruct i as [|i]; simpl in Hi.
  - injection Hi as ->. rewrite lookup_app_l by (simpl; lia).
    do 8 (destruct k as [|k]; [done|]). lia.
  - rewrite lookup_app_r by (simpl; lia).
    replace (8 * S i + k - length (byte_bits y))%nat with (8 * i + k)%nat
      by (simpl; lia).
    by apply IH.
Qed.

Lemma c_str_app (cs rest : list ascii) :
  Forall (λ c, c ≠ NUL) cs →
  c_str (cs ++ NUL :: rest) = Some (string_of_list_ascii cs).
Proof.
  induction 1 as [|c cs Hc _ IH]; [done|].
  cbn [app c_str]. by rewrite decide_False, IH.
Qed.

Lemma string_of_list_ascii_length (l : list ascii) :
  String.length (string_of_list_ascii l) = length l.
Proof. induction l; simpl; congruence. Qed.

Lemma string_of_list_ascii_get (l : list ascii) :
  ∀ n, String.get n (string_of_list_ascii l) = l !! n.
Proof. induction l as [|c l IH]; intros [|n]; simpl; auto. Qed.

Lemma land_pow2 (a n : Z) :
  0 ≤ n → Z.land a (2 ^ n) = if Z.testbit a n then 2 ^ n else 0.
Proof.
  intros Hn. apply Z.bits_inj'. intros m Hm.
  rewrite Z.land_spec, Z.pow2_bits_eqb by lia.
  destruct (Z.testbit a n) eqn:E.
  - rewrite Z.pow2_bits_eqb by lia.
    destruct (Z.eqb_spec n m) as [<-|_]; [by rewrite E|apply andb_false_r].
  - rewrite Z.bits_0.
    destruct (Z.eqb_spec n m) as [<-|_]; [by rewrite E|apply andb_false_r].
Qed.

Lemma bit_char_testbit (x b : Z) :
  0 ≤ b →
  bit_char x b = if Z.testbit x b then "1"%char else "0"%char.
Proof.
  intros Hb. unfold bit_char. rewrite Z.shiftl_1_l, land_pow2 by done.
  destruct (Z.testbit x b); [|done].
  destruct (Z.eqb_spec (2 ^ b) 0) as [H0|_]; [|done].
  pose proof (Z.pow_pos_nonneg 2 b). lia.
Qed.

(** The switch case of the bitmask in closed form. *)
Lemma decode_bitmask (buf : list Z) (p : Z) (subtopic : string) (w : world)
    (data : list Z) :
  length data = 16%nat →
  (∀ j x, data !! j = Some x → rd buf (p + (1 + Z.of_nat j)) = Some x) →
  decode buf p subtopic TAG_TYPE_16_BYTES_BITMASK w
  = Some (Payload w (string_of_list_ascii (data ≫= byte_bits))).
Proof.
  intros Hlen Hrd. unfold decode, payload_init.
  pose proof (byte_loop_data buf p data 0 [] 128) as Hloop.
  rewrite Hlen in Hloop.
  change (byte_loop buf p 16 0 (replicate 256 NUL))
    with (byte_loop buf p 16 (Z.of_nat 0) ([] ++ replicate (8 * 16 + 128) NUL)).
  rewrite Hloop by done. clear Hloop.
  cbn [mbind option_bind app].
  rewrite (wr_app_at _ _ 128 0);
    [|rewrite bits_length; lia|simpl; lia].
  cbn [mbind option_bind]. simpl insert.
  rewrite c_str_app by apply bits_not_NUL. done.
Qed.

(** C4, as amended: the bitmask decoder turns the 16 data bytes into a
    string of 128 characters; character [8*i + k] is '1' when bit [7 - k] of
    data byte [i] is set and '0' otherwise. So 16 zero bytes give 128 times
    '0'; bit 0 of byte 0 is the character at index 7 (the eighth one); and
    the last character (index 127) is '1' exactly when bit 0 of byte 15 is
    set. *)
Theorem bitmask_decoding (buf : list Z) (p : Z) (subtopic : string)
    (w : world) (data : list Z) :
  length data = 16%nat →
  (∀ j x, data !! j = Some x → rd buf (p + (1 + Z.of_nat j)) = Some x) →
  ∃ s, decode buf p subtopic TAG_TYPE_16_BYTES_BITMASK w = Some (Payload w s) ∧
       String.length s = 128%nat ∧
       (∀ (i k : nat) x, data !! i = Some x → (k < 8)%nat →
          String.get (8 * i + k) s
          = Some (if Z.testbit x (7 - Z.of_nat k) then "1" else "0")%char) ∧
       (data = replicate 16 0 →
          s = string_of_list_ascii (replicate 128 "0"%char)) ∧
       (∀ x, data !! 0%nat = Some x → Z.testbit x 0 = true →
          String.get 7 s = Some "1"%char) ∧
       (∀ x, data !! 15%nat = Some x →
          String.get 127 s = Some "1"%char ↔ Z.testbit x 0 = true).
Proof.
  intros Hlen Hrd. eexists. split; [by apply decode_bitmask|].
  assert (Hget : ∀ (i k : nat) x, data !! i = Some x → (k < 8)%nat →
            String.get (8 * i + k) (string_of_list_ascii (data ≫= byte_bits))
            = Some (if Z.testbit x (7 - Z.of_nat k) then "1" else "0")%char).
  { intros i k x Hi Hk.
    rewrite string_of_list_ascii_get, (bits_lookup _ _ _ _ Hi Hk).
    by rewrite bit_char_testbit by lia. }
  split; [by rewrite string_of_list_ascii_length, bits_length, Hlen|].
  split; [done|]. split; [by intros ->|]. split.
  - intros x Hx Hbit. pose proof (Hget 0%nat 7%nat x Hx ltac:(lia)) as H.
    change (8 * 0 + 7)%nat with 7%nat in H.
    change (7 - Z.of_nat 7) with 0 in H. by rewrite H, Hbit.
  - intros x Hx. pose proof (Hget 15%nat 7%nat x Hx ltac:(lia)) as H.
    change (8 * 15 + 7)%nat with 127%nat in H.
    change (7 - Z.of_nat 7) with 0 in H. rewrite H.
    by destruct (Z.testbit x 0).
Qed.

Lemma bitmask_decoding_witness :
  ∃ s, decode (ITEM_LOWBATT :: 0x01 :: replicate 15 0) 0
              "all_sensor_low_battery" TAG_TYPE_16_BYTES_BITMASK world_init
       = Some (Payload world_init s) ∧
       String.get 7 s = Some "1"%char ∧ String.get 127 s = Some "0"%char.
Proof.
  destruct (bitmask_decoding (ITEM_LOWBATT :: 0x01 :: replicate 15 0) 0
              "all_sensor_low_battery" world_init (0x01 :: replicate 15 0))
    as (s & Hs & _ & Hget & _).
  - reflexivity.
  - intros j x Hj. rewrite <- Hj.
    replace (0 + (1 + Z.of_nat j)) with (Z.of_nat (S j)) by lia.
    rewrite rd_nat. reflexivity.
  - exists s. split; [exact Hs|]. split.
    + exact (Hget 0%nat 7%nat 1 eq_refl ltac:(lia)).
    + exact (Hget 15%nat 7%nat 0 eq_refl ltac:(lia)).
Defined.

(** C4, as stated, fails in its second half: with bit 0 of byte 0 set (data
    01 00 ... 00) the decoder gives 00000001 followed by 120 times '0', and
    the last character is '0'. *)
Lemma bitmask_bit0_not_last :
  Z.testbit 0x01 0 = true ∧
  ∃ s, decode (ITEM_LOWBATT :: 0x01 :: replicate 15 0) 0
              "all_sensor_low_battery" TAG_TYPE_16_BYTES_BITMASK world_init
       = Some (Payload world_init s) ∧
       String.length s = 128%nat ∧
       String.get 127 s = Some "0"%char ∧
       String.get 127 s ≠ Some "1"%char.
Proof.
  split; [reflexivity|]. eexists. split; [vm_compute; reflexivity|].
  repeat split; try reflexivity. discriminate.
Qed.

(** * Tag stream parser: what one call of [process_tag] does *)

Local Ltac bind_inv H :=
  repeat match type of H with
  | (match ?o with Some _ => _ | None => _ end) = Some _ =>
      let E := fresh "E" in destruct o eqn:E; [|discriminate H]
  | (?o ≫= _) = Some _ =>
      let E := fresh "E" in
      destruct o eqn:E; cbn [mbind option_bind] in H; [|discriminate H]
  end.

Lemma decode_Return (buf : list Z) (p : Z) (subtopic : string)
    (tagType : TAG_PROCESSING_TYPE) (w : world) (rc : Z) :
  decode buf p subtopic tagType w = Some (Return rc) →
  tagType = TAG_TYPE_PM25_AQI ∧ rc = -1.
Proof.
  destruct tagType; cbn [decode]; intros H; bind_inv H;
    try discriminate H.
  by injection H as <-.
Qed.

Lemma decode_Payload (buf : list Z) (p : Z) (subtopic : string)
    (tagType : TAG_PROCESSING_TYPE) (w w1 : world) (payload : string) :
  decode buf p subtopic tagType w = Some (Payload w1 payload) →
  1 ≤ tagTypeDataLength tagType ∧
  tagData w1 = tagData w ∧ time_calls w1 = time_calls w ∧
  (tagType ≠ TAG_TYPE_3_BYTES_TEMP_AND_BATT → w1 = w).
Proof.
  destruct tagType; cbn [decode]; intros H; bind_inv H;
    try discriminate H; injection H as <- <-; cbn [tagTypeDataLength];
    repeat split; done || lia.
Qed.

(** The value [process_tag] returns is -1 or one more than the data width of
    a variant, and that width is at least 1. *)
Lemma process_tag_chunk (time : nat → Z) (buf : list Z) (p : Z)
    (w w' : world) (n : Z) :
  process_tag time buf p w = Some (n, w') →
  n = -1 ∨ ∃ tagType, n = 1 + tagTypeDataLength tagType ∧
                       1 ≤ tagTypeDataLength tagType.
Proof.
  unfold process_tag. intros H. bind_inv H.
  destruct (0 <=? _); [|injection H as <- <-; by left].
  bind_inv H. destruct s as [w1 payload|rc].
  - apply decode_Payload in E1 as (Hlen & _).
    right. exists (type t).
    destruct (nonempty payload); bind_inv H; by injection H as <- <-.
  - apply decode_Return in E1 as [_ ->]. injection H as <- <-. by left.
Qed.

(** * Tag stream parser: termination *)

Lemma parse_loop_enough (time : nat → Z) (buf : list Z) (length : Z) :
  ∀ (fuel fuel' : nat) (p readBytes : Z) (w : world),
    (Z.to_nat (length - readBytes) ≤ fuel)%nat →
    (Z.to_nat (length - readBytes) ≤ fuel')%nat →
    parse_loop time fuel buf p readBytes length w
    = parse_loop time fuel' buf p readBytes length w ∧
    parse_loop time fuel buf p readBytes length w ≠ OutOfFuel.
Proof.
  induction fuel as [|fuel IH]; intros fuel' p rb w Hf Hf'.
  - assert (Hge : ¬ rb < length) by lia.
    destruct fuel'; cbn [parse_loop];
      destruct (Z.ltb_spec rb length); done.
  - cbn [parse_loop]. destruct (Z.ltb_spec rb length) as [Hlt|Hge].
    + destruct fuel' as [|fuel']; [lia|]. cbn [parse_loop].
      destruct (Z.ltb_spec rb length) as [_|?]; [|lia].
      destruct (process_tag time buf p w) as [[n w']|] eqn:Hpt; [|done].
      destruct (Z.ltb_spec 0 n) as [Hn|_]; [|done].
      apply process_tag_chunk in Hpt as [->|(ty & -> & Hty)]; [lia|].
      apply IH; lia.
    + destruct fuel'; cbn [parse_loop];
        destruct (Z.ltb_spec rb length); done || lia.
Qed.

(** C9: the loop of the tag stream parser terminates on every input. A call
    of [process_tag] returns -1 (unknown tag, or the variable-length AQI
    variant), which ends the loop, or 1 plus the data width of the variant,
    which is at least 1; so [readBytes] grows by at least 2 per iteration,
    and [length - readBytes] iterations are enough from any state of the
    loop: with that much fuel or more the loop gives one and the same
    result, which is not [OutOfFuel]. [parse_and_publish] runs it with
    [length] iterations from [readBytes = 3]. *)
Theorem parse_loop_terminates (time : nat → Z) (buf : list Z) :
  (∀ p w n w', process_tag time buf p w = Some (n, w') →
     n = -1 ∨ ∃ tagType, n = 1 + tagTypeDataLength tagType ∧
                          1 ≤ tagTypeDataLength tagType) ∧
  (∀ p readBytes length w,
     ∃ r, r ≠ OutOfFuel ∧
          ∀ fuel, (Z.to_nat (length - readBytes) ≤ fuel)%nat →
                  parse_loop time fuel buf p readBytes length w = r) ∧
  (∀ w, parse_and_publish time buf w ≠ OutOfFuel).
Proof.
  split; [|split].
  - intros p w n w'. apply process_tag_chunk.
  - intros p rb length w.
    exists (parse_loop time (Z.to_nat (length - rb)) buf p rb length w).
    split.
    + by apply (parse_loop_enough time buf length _ (Z.to_nat (length - rb))).
    + intros fuel Hfuel.
      by apply (parse_loop_enough time buf length fuel).
  - intros w. unfold parse_and_publish.
    destruct (parse_prologue time buf w) as [[length w1]|]; [|done].
    apply (parse_loop_enough time buf length _ (Z.to_nat length)); lia.
Qed.

Lemma parse_loop_terminates_witness :
  ∃ r, r ≠ OutOfFuel ∧
       ∀ fuel, (Z.to_nat (0x10 - 3) ≤ fuel)%nat →
               parse_loop clock_1000 fuel frame_unknown 5 3 0x10 world_init = r.
Proof.
  exact (proj1 (proj2 (parse_loop_terminates clock_1000 frame_unknown))
               5 3 0x10 world_init).
Defined.

(** * Tag stream parser: the bytes a call of [process_tag] looks at *)

Lemma bit_loop_ext (buf buf' : list Z) (p i : Z) (nb : nat) :
  rd buf' (p + (1 + i)) = rd buf (p + (1 + i)) →
  ∀ b payload, bit_loop buf' p i nb b payload = bit_loop buf p i nb b payload.
Proof.
  intros Hrd. induction nb as [|nb IH]; intros b payload; [done|].
  cbn [bit_loop]. rewrite Hrd.
  destruct (rd buf (p + (1 + i))); cbn [mbind option_bind]; [|done].
  destruct (wr payload _ _); cbn [mbind option_bind]; [|done].
  apply IH.
Qed.

Lemma byte_loop_ext (buf buf' : list Z) (p : Z) (ni : nat) :
  ∀ i payload,
    (∀ j, i ≤ j < i + Z.of_nat ni →
          rd buf' (p + (1 + j)) = rd buf (p + (1 + j))) →
    byte_loop buf' p ni i payload = byte_loop buf p ni i payload.
Proof.
  induction ni as [|ni IH]; intros i payload Hrd; [done|].
  cbn [byte_loop]. rewrite (bit_loop_ext buf buf') by (apply Hrd; lia).
  destruct (bit_loop buf p i 8 0 payload); cbn [mbind option_bind]; [|done].
  apply IH. intros j Hj. apply Hrd. lia.
Qed.

Lemma decode_ext (buf buf' : list Z) (p : Z) (subtopic : string)
    (tagType : TAG_PROCESSING_TYPE) (w : world) :
  (∀ i, p < i ≤ p + tagTypeDataLength tagType → rd buf' i = rd buf i) →
  decode buf' p subtopic tagType w = decode buf p subtopic tagType w.
Proof.
  destruct tagType; cbn [decode tagTypeDataLength]; intros Hrd;
    rewrite ?(Hrd (p + 1)), ?(Hrd (p + 2)), ?(Hrd (p + 3)), ?(Hrd (p + 4))
      by lia;
    try done.
  rewrite (byte_loop_ext buf buf'); [done|].
  intros j Hj. apply Hrd. simpl in Hj. lia.
Qed.

Lemma process_tag_ext (time : nat → Z) (buf buf' : list Z) (p : Z)
    (w w' : world) (n : Z) :
  process_tag time buf p w = Some (n, w') → 0 < n →
  (∀ i, p ≤ i < p + n → rd buf' i = rd buf i) →
  process_tag time buf' p w = Some (n, w').
Proof.
  intros H Hn Hext.
  assert (Hp : rd buf' p = rd buf p) by (apply Hext; lia).
  unfold process_tag in *. rewrite Hp.
  destruct (rd buf p) as [b0|]; cbn [mbind option_bind] in *; [|done].
  destruct (0 <=? _); [|injection H as <- <-; lia].
  destruct (rd (tagData w) _) as [row|]; cbn [mbind option_bind] in *; [|done].
  destruct (decode buf p (topic row) (type row) w) as [[w1 payload|rc]|] eqn:E;
    cbn [mbind option_bind] in H; [| |done].
  - assert (n = 1 + tagTypeDataLength (type row)) as ->.
    { destruct (nonempty payload); bind_inv H; by injection H as <- <-. }
    rewrite (decode_ext buf buf') by (intros; apply Hext; lia).
    by rewrite E.
  - apply decode_Return in E as [_ ->]. injection H as <- <-. lia.
Qed.

Lemma decodes_le (time : nat → Z) (buf : list Z) (length : Z)
    (s s' : parse_state) :
  decodes time buf length s s' → s.1.1 ≤ s'.1.1.
Proof. induction 1; simpl in *; lia. Qed.

Lemma decodes_ext (time : nat → Z) (buf buf' : list Z) (length : Z)
    (s s' : parse_state) :
  decodes time buf length s s' →
  (∀ i, s.1.1 ≤ i < s'.1.1 → rd buf' i = rd buf i) →
  decodes time buf' length s s'.
Proof.
  induction 1 as [|p rb w n w1 s' Hrb Hpt Hn Hrest IH]; intros Hext;
    [constructor|].
  pose proof (decodes_le _ _ _ _ _ Hrest) as Hle. simpl in Hle, Hext.
  eapply decodes_cons; eauto.
  - eapply process_tag_ext; eauto. intros; apply Hext; lia.
  - apply IH. simpl. intros; apply Hext; lia.
Qed.

Lemma process_tag_events (time : nat → Z) (buf : list Z) (p : Z)
    (w w' : world) (n : Z) :
  process_tag time buf p w = Some (n, w') → events w `prefix_of` events w'.
Proof.
  unfold process_tag. intros H. bind_inv H.
  destruct (0 <=? _); [|by injection H as <- <-].
  bind_inv H. destruct s as [w1 payload|rc]; [|by injection H as <- <-].
  assert (events w `prefix_of` events w1).
  { destruct (type t); cbn [decode] in E1; bind_inv E1;
      try discriminate E1; injection E1 as <- <-; try done.
    by apply prefix_app_r. }
  destruct (nonempty payload); bind_inv H; injection H as <- <-; simpl;
    by apply prefix_app_r.
Qed.

Lemma decodes_events (time : nat → Z) (buf : list Z) (length : Z)
    (s s' : parse_state) :
  decodes time buf length s s' → events s.2 `prefix_of` events s'.2.
Proof.
  induction 1 as [|p rb w n w1 s' Hrb Hpt Hn Hrest IH]; [done|].
  simpl in *. etrans; [|exact IH]. by eapply process_tag_events.
Qed.

(** * Tag stream parser: an unknown tag *)

Lemma parse_loop_unknown (time : nat → Z) (buf : list Z)
    (p readBytes length : Z) (w : world) (t : Z) (fuel : nat) :
  readBytes < length → rd buf p = Some t → tag_index (tagData w) t = -1 →
  parse_loop time (S fuel) buf p readBytes length w = Done w.
Proof.
  intros Hrb Ht Hti. cbn [parse_loop].
  destruct (Z.ltb_spec readBytes length) as [_|?]; [|lia].
  unfold process_tag. rewrite Ht. cbn [mbind option_bind]. by rewrite Hti.
Qed.

Lemma parse_loop_decodes (time : nat → Z) (buf : list Z) (length : Z)
    (s s' : parse_state) :
  decodes time buf length s s' →
  ∀ fuel fuel',
    (Z.to_nat (length - s.1.2) ≤ fuel)%nat →
    (Z.to_nat (length - s'.1.2) ≤ fuel')%nat →
    parse_loop time fuel buf s.1.1 s.1.2 length s.2
    = parse_loop time fuel' buf s'.1.1 s'.1.2 length s'.2.
Proof.
  induction 1 as [[[p rb] w]|p rb w n w1 s' Hrb Hpt Hn Hrest IH];
    intros fuel fuel' Hf Hf'; simpl in *.
  - by apply parse_loop_enough.
  - destruct fuel as [|fuel]; [lia|]. cbn [parse_loop].
    destruct (Z.ltb_spec rb length) as [_|?]; [|lia].
    rewrite Hpt. destruct (Z.ltb_spec 0 n) as [_|?]; [|lia].
    apply IH; lia.
Qed.

(** * Value decoder: temperature with battery *)

Lemma strrchr_last_segment (s r : string) :
  strrchr s "/" = Some r → r = String "/" (last_segment s).
Proof.
  induction s as [|a s IH]; cbn [strrchr last_segment]; [done|].
  destruct (strrchr s "/") as [r'|].
  - intros [= <-]. by apply IH.
  - destruct (decide (a = "/"%char)) as [->|]; [|done]. by intros [= <-].
Qed.

Lemma registry_batt_rows : forallb batt_row_ok (registry tagData_init) = true.
Proof. vm_compute. reflexivity. Qed.

Lemma registry_row (tbl : list TagSpec) (ti : Z) (row : TagSpec) :
  registry tbl = registry tagData_init → rd tbl ti = Some row →
  batt_row_ok (tag row, type row, topic row) = true.
Proof.
  intros Hreg [_ Hrow]%rd_Some.
  pose proof registry_batt_rows as Hall. rewrite forallb_forall in Hall.
  apply Hall. rewrite <- Hreg. apply list_elem_of_In.
  apply (list_elem_of_lookup_2 _ (Z.to_nat ti)).
  unfold registry. by rewrite list_lookup_fmap, Hrow.
Qed.

Lemma nonempty_app_r (a b : string) :
  nonempty b = true → nonempty (a +:+ b) = true.
Proof. by destruct a. Qed.

Lemma fmt_tenths_nonempty (n : Z) : nonempty (fmt_tenths n) = true.
Proof.
  unfold fmt_tenths. destruct (n <? 0); [reflexivity|].
  do 2 apply nonempty_app_r. reflexivity.
Qed.

(** C8: for every tag of the registry whose variant is temperature with
    battery, one call of [process_tag] on its three data bytes consumes 4
    bytes and publishes exactly two values, in this order. First, on the
    topic "battery/" followed by the last path segment of the tag's topic,
    the third byte times 0.02: a decimal text with exactly two digits after
    the point which, read back digit by digit, denotes [2 * b3] hundredths.
    Then, on the tag's own topic, the first two bytes decoded as the signed
    tenths variant decodes them: a decimal text with one digit after the
    point that denotes the 16-bit big-endian value, less 0xFFFF when the
    high bit of the first byte is set, in tenths. *)
Theorem temp_and_battery_decoding (time : nat → Z) (buf : list Z) (p : Z)
    (w : world) (t : Z) (row : TagSpec) (b1 b2 b3 : Z) :
  registry (tagData w) = registry tagData_init →
  rd buf p = Some t →
  0 ≤ tag_index (tagData w) t →
  rd (tagData w) (tag_index (tagData w) t) = Some row →
  type row = TAG_TYPE_3_BYTES_TEMP_AND_BATT →
  rd buf (p + 1) = Some b1 → rd buf (p + 2) = Some b2 →
  rd buf (p + 3) = Some b3 →
  ∃ w' battery temperature,
    process_tag time buf p w = Some (4, w') ∧
    events w' = events w ++
      [Publish ("battery/" +:+ last_segment (topic row)) battery;
       Publish (topic row) temperature] ∧
    (is_byte b3 → decimal_value 2 battery = Some (2 * b3)) ∧
    decode buf p (topic row) TAG_TYPE_SHORT_DIVIDE_BY_10_SIGNED w
    = Some (Payload w temperature) ∧
    (is_byte b1 →
     decimal_value 1 temperature
     = Some (256 * b1 + b2 - (if Z.testbit b1 7 then 0xFFFF else 0))).
Proof.
  intros Hreg Ht Hti Hrow Hty H1 H2 H3.
  pose proof (registry_row _ _ _ Hreg Hrow) as Hok.
  unfold batt_row_ok in Hok. cbn [fst snd] in Hok. rewrite Hty in Hok.
  destruct (strrchr (topic row) "/") as [sensor|] eqn:Hs; [|done].
  apply bool_decide_eq_true in Hok.
  pose proof (strrchr_last_segment _ _ Hs) as ->.
  exists (set_tagData
            (<[Z.to_nat (tag_index (tagData w) t) :=
                 record (fmt_tenths (read_short_signed b1 b2))
                        (time (time_calls w)) row]> (tagData w))
            (tick (mqtt_publish (topic row)
                     (fmt_tenths (read_short_signed b1 b2))
                     (mqtt_publish ("battery/" +:+ last_segment (topic row))
                        (fmt_battery b3) w)))),
         (fmt_battery b3), (fmt_tenths (read_short_signed b1 b2)).
  split; [|split; [|split; [|split]]].
  - unfold process_tag. rewrite Ht. cbn [mbind option_bind].
    destruct (Z.leb_spec 0 (tag_index (tagData w) t)) as [_|?]; [|lia].
    rewrite Hrow. cbn [mbind option_bind]. rewrite Hty. cbn [decode].
    rewrite H1, H2. cbn [mbind option_bind]. rewrite Hs.
    cbn [mbind option_bind]. unfold fits. rewrite decide_True by done.
    cbn [mbind option_bind]. rewrite H3. cbn [mbind option_bind].
    rewrite fmt_tenths_nonempty.
    cbn [tagData mqtt_publish emit tick time_calls].
    rewrite wr_Some by (by eapply rd_lt). done.
  - cbn [events set_tagData tick mqtt_publish emit].
    by rewrite <- app_assoc.
  - intros [Hb3 _]. by apply fmt_battery_value.
  - cbn [decode]. by rewrite H1, H2.
  - intros Hb1. by rewrite fmt_tenths_value, read_short_signed_value.
Qed.

Lemma temp_and_battery_decoding_witness :
  ∃ w', process_tag clock_1000 [ITEM_TF_USR1; 0x00; 0x0A; 0x4B] 0 world_init
        = Some (4, w') ∧
        events w' = [Publish "battery/t1" "1.50"; Publish "temperature/t1" "1.0"] ∧
        decimal_value 2 "1.50" = Some (2 * 0x4B) ∧
        decimal_value 1 "1.0" = Some 0x000A.
Proof.
  destruct (temp_and_battery_decoding clock_1000
              [ITEM_TF_USR1; 0x00; 0x0A; 0x4B] 0 world_init ITEM_TF_USR1
              (mkTag ITEM_TF_USR1 TAG_TYPE_3_BYTES_TEMP_AND_BATT
                     "temperature/t1") 0x00 0x0A 0x4B)
    as (w' & battery & temperature & Hpt & Hev & Hbat & Hdec & Htemp);
    [reflexivity|reflexivity|vm_compute; discriminate
    |vm_compute; reflexivity|reflexivity..|].
  exists w'.
  specialize (Hbat ltac:(unfold is_byte; lia)).
  specialize (Htemp ltac:(unfold is_byte; lia)).
  vm_compute in Hdec. injection Hdec as <-.
  vm_compute in Hpt. injection Hpt as <-.
  vm_compute in Hev. injection Hev as <-.
  split; [vm_compute; reflexivity|]. split; [reflexivity|].
  split; [exact Hbat|exact Htemp].
Defined.

(** * Observation cache: what a decode leaves in [lastMessage] *)

Lemma list_ascii_of_string_length (s : string) :
  length (list_ascii_of_string s) = String.length s.
Proof. induction s; simpl; congruence. Qed.

Lemma strncpy_length (s : string) (n : nat) : length (strncpy s n) = n.
Proof.
  unfold strncpy. rewrite length_take, length_app, length_replicate. lia.
Qed.

Lemma strncpy_short (s : string) (n : nat) :
  (String.length s < n)%nat →
  strncpy s n
  = list_ascii_of_string s ++ replicate (n - String.length s) NUL.
Proof.
  intros Hlen. unfold strncpy.
  rewrite take_app_ge by (rewrite list_ascii_of_string_length; lia).
  rewrite take_replicate, list_ascii_of_string_length.
  do 2 f_equal. lia.
Qed.

Lemma strncpy_long (s : string) (n : nat) :
  (n ≤ String.length s)%nat → strncpy s n = take n (list_ascii_of_string s).
Proof.
  intros Hlen. unfold strncpy.
  by rewrite take_app_le by (rewrite list_ascii_of_string_length; lia).
Qed.

Lemma c_str_unterminated (a : list ascii) :
  Forall (λ c, c ≠ NUL) a → c_str a = None.
Proof.
  induction 1 as [|c a Hc _ IH]; [done|].
  cbn [c_str]. by rewrite decide_False, IH.
Qed.

Lemma c_str_strncpy_short (s : string) (n : nat) :
  (String.length s < n)%nat →
  Forall (λ c, c ≠ NUL) (list_ascii_of_string s) →
  c_str (strncpy s n) = Some s.
Proof.
  intros Hlen Hs. rewrite strncpy_short by done.
  destruct (n - String.length s)%nat as [|k] eqn:Hk; [lia|].
  cbn [replicate]. rewrite c_str_app by done.
  by rewrite string_of_list_ascii_of_string.
Qed.

Lemma bit_loop_reads (buf : list Z) (p i : Z) (nb : nat) (b : Z)
    (payload payload' : list ascii) :
  bit_loop buf p i (S nb) b payload = Some payload' →
  is_Some (rd buf (p + (1 + i))).
Proof. cbn [bit_loop]. by destruct (rd buf (p + (1 + i))). Qed.

Lemma byte_loop_reads (buf : list Z) (p : Z) (ni : nat) :
  ∀ (i : Z) (payload payload' : list ascii),
    byte_loop buf p ni i payload = Some payload' →
    ∀ j : nat, (j < ni)%nat → is_Some (rd buf (p + (1 + (i + Z.of_nat j)))).
Proof.
  induction ni as [|ni IH]; intros i payload payload' H j Hj; [lia|].
  cbn [byte_loop] in H.
  destruct (bit_loop buf p i 8 0 payload) as [pl|] eqn:Hbit; [|done].
  cbn [mbind option_bind] in H. destruct j as [|j].
  - replace (i + Z.of_nat 0) with i by lia. by eapply bit_loop_reads.
  - replace (i + Z.of_nat (S j)) with (i + 1 + Z.of_nat j) by lia.
    eapply IH; eauto. lia.
Qed.

Lemma decode_bitmask_inv (buf : list Z) (p : Z) (subtopic : string)
    (w w1 : world) (payload : string) :
  decode buf p subtopic TAG_TYPE_16_BYTES_BITMASK w = Some (Payload w1 payload) →
  ∃ data, length data = 16%nat ∧
          payload = string_of_list_ascii (data ≫= byte_bits).
Proof.
  intros H.
  set (data := (λ j : nat, default 0 (rd buf (p + (1 + Z.of_nat j))))
                 <$> seq 0 16).
  exists data. split; [done|].
  assert (Hrd : ∀ j x, data !! j = Some x →
                       rd buf (p + (1 + Z.of_nat j)) = Some x).
  { intros j x Hj. unfold data in Hj.
    rewrite list_lookup_fmap in Hj.
    destruct (seq 0 16 !! j) as [j'|] eqn:Hseq; [|done].
    apply lookup_seq in Hseq as [-> Hlt]. simpl in Hj. injection Hj as <-.
    cbn [decode] in H.
    destruct (byte_loop buf p 16 0 payload_init) as [pl|] eqn:Hloop; [|done].
    destruct (byte_loop_reads _ _ _ _ _ _ Hloop j Hlt) as [y Hy].
    rewrite Z.add_0_l in Hy. by rewrite Hy. }
  rewrite (decode_bitmask buf p subtopic w data eq_refl Hrd) in H.
  by injection H as _ <-.
Qed.

(** The payloads the decoder prints have no terminator inside. *)
Lemma no_NUL_app (a b : string) : no_NUL a → no_NUL b → no_NUL (a +:+ b).
Proof.
  unfold no_NUL. intros Ha Hb. induction a as [|c a IH]; [done|].
  change (list_ascii_of_string (String c a +:+ b))
    with (c :: list_ascii_of_string (a +:+ b)).
  inversion_clear Ha. constructor; auto.
Qed.

Lemma pretty_N_char_no_NUL (x : N) : pretty_N_char x ≠ NUL.
Proof. unfold pretty_N_char. by repeat (discriminate || case_match). Qed.

Lemma pretty_N_go_no_NUL (x : N) :
  ∀ s, no_NUL s → no_NUL (pretty_N_go x s).
Proof.
  induction (N.lt_wf_0 x) as [x _ IH]; intros s Hs.
  destruct (decide (x = 0)%N) as [->|Hx]; [by rewrite pretty_N_go_0|].
  rewrite pretty_N_go_step by lia. apply IH.
  - apply N.div_lt; lia.
  - constructor; [apply pretty_N_char_no_NUL|done].
Qed.

Lemma pretty_N_no_NUL (x : N) : no_NUL (pretty x).
Proof.
  unfold pretty, pretty_N. destruct (decide (x = 0)%N).
  - by repeat constructor.
  - apply pretty_N_go_no_NUL. constructor.
Qed.

Lemma pretty_Z_no_NUL (x : Z) : no_NUL (pretty x).
Proof.
  unfold pretty, pretty_Z. destruct x as [|x|x].
  - by repeat constructor.
  - apply pretty_N_no_NUL.
  - apply no_NUL_app; [by repeat constructor|apply pretty_N_no_NUL].
Qed.

Lemma fmt_tenths_no_NUL (n : Z) : no_NUL (fmt_tenths n).
Proof.
  unfold fmt_tenths.
  repeat apply no_NUL_app; try apply pretty_Z_no_NUL;
    try destruct (n <? 0); by repeat constructor.
Qed.

Lemma fmt_battery_no_NUL (b : Z) : no_NUL (fmt_battery b).
Proof.
  unfold fmt_battery.
  repeat apply no_NUL_app; try apply pretty_Z_no_NUL; by repeat constructor.
Qed.

Lemma decode_no_NUL (buf : list Z) (p : Z) (subtopic : string)
    (tagType : TAG_PROCESSING_TYPE) (w w1 : world) (payload : string) :
  decode buf p subtopic tagType w = Some (Payload w1 payload) →
  no_NUL payload.
Proof.
  intros H.
  destruct (decide (tagType = TAG_TYPE_16_BYTES_BITMASK)) as [->|Hty].
  { apply decode_bitmask_inv in H as (data & _ & ->). unfold no_NUL.
    rewrite list_ascii_of_string_of_list_ascii. apply bits_not_NUL. }
  destruct tagType; cbn [decode] in H; bind_inv H; try discriminate H;
    try done; injection H as _ <-;
    first [apply pretty_Z_no_NUL | apply fmt_tenths_no_NUL | constructor].
Qed.

Lemma nonempty_false (s : string) : nonempty s = false → s = EmptyString.
Proof. by destruct s. Qed.

Lemma nonempty_true (s : string) : nonempty s = true → s ≠ EmptyString.
Proof. by destruct s. Qed.

(** What a call of [process_tag] that returns a chunk size has done. *)
Lemma process_tag_inv (time : nat → Z) (buf : list Z) (p : Z)
    (w w' : world) (n : Z) :
  process_tag time buf p w = Some (n, w') → 0 < n →
  ∃ ti row w1 payload,
    rd (tagData w) ti = Some row ∧
    decode buf p (topic row) (type row) w = Some (Payload w1 payload) ∧
    n = 1 + tagTypeDataLength (type row) ∧
    (nonempty payload = true ∧
     w' = set_tagData (<[Z.to_nat ti := record payload (time (time_calls w)) row]>
                         (tagData w))
                      (tick (mqtt_publish (topic row) payload w1))
     ∨ payload = EmptyString ∧
       w' = emit (Stderr ("No payload to publish" +:+ LF)) w1).
Proof.
  unfold process_tag. intros H Hn.
  destruct (rd buf p) as [b0|]; cbn [mbind option_bind] in H; [|done].
  destruct (0 <=? _); [|injection H as <- <-; lia].
  destruct (rd (tagData w) _) as [row|] eqn:Hrow;
    cbn [mbind option_bind] in H; [|done].
  destruct (decode buf p (topic row) (type row) w) as [[w1 payload|rc]|] eqn:E;
    cbn [mbind option_bind] in H; [| |done].
  - pose proof (decode_Payload _ _ _ _ _ _ _ E) as (_ & Htbl & Htc & _).
    exists (tag_index (tagData w) b0), row, w1, payload.
    split; [done|]. split; [done|].
    destruct (nonempty payload) eqn:Hne.
    + cbn [tagData time_calls tick mqtt_publish emit] in H.
      rewrite Htbl, Htc in H.
      rewrite wr_Some in H by (by eapply rd_lt).
      cbn [mbind option_bind] in H. injection H as <- <-.
      split; [done|]. by left.
    + injection H as <- <-. split; [done|]. right.
      split; [by apply nonempty_false|done].
  - apply decode_Return in E as [_ ->]. injection H as <- <-. lia.
Qed.

(** The registry part of the table is the same in every world the daemon
    reaches. *)
Lemma process_tag_registry (time : nat → Z) (buf : list Z) (p : Z)
    (w w' : world) (n : Z) :
  process_tag time buf p w = Some (n, w') →
  registry (tagData w') = registry (tagData w).
Proof.
  intros H. destruct (decide (0 < n)) as [Hn|Hn].
  - destruct (process_tag_inv _ _ _ _ _ _ H Hn)
      as (ti & row & w1 & payload & Hrow & Hdec & _ & Hw').
    pose proof (decode_Payload _ _ _ _ _ _ _ Hdec) as (_ & Htbl & _ & _).
    destruct Hw' as [[_ ->]|[_ ->]]; [|by cbn [tagData emit]; rewrite Htbl].
    cbn [tagData set_tagData]. unfold registry.
    rewrite list_fmap_insert. apply list_insert_id.
    apply rd_Some in Hrow as [_ Hrow]. by rewrite list_lookup_fmap, Hrow.
  - unfold process_tag in H. bind_inv H.
    destruct (0 <=? _); [|by injection H as <- <-].
    bind_inv H. destruct s as [w1 payload|rc]; [|by injection H as <- <-].
    apply decode_Payload in E1 as (Hlen & _).
    destruct (nonempty payload); bind_inv H; injection H as <- <-;
      exfalso; lia.
Qed.

Lemma parse_loop_registry (time : nat → Z) (buf : list Z) (length : Z) :
  ∀ (fuel : nat) (p readBytes : Z) (w w' : world),
    parse_loop time fuel buf p readBytes length w = Done w' →
    registry (tagData w') = registry (tagData w).
Proof.
  induction fuel as [|fuel IH]; intros p rb w w'; cbn [parse_loop];
    destruct (rb <? length); cbv beta iota; try by intros [= <-].
  destruct (process_tag time buf p w) as [[n w1]|] eqn:Hpt;
    [|intros H; discriminate H].
  apply process_tag_registry in Hpt.
  destruct (0 <? n); [|by intros [= <-]].
  intros H. apply IH in H. congruence.
Qed.

(** * Observation cache: the snapshot *)

Lemma append_assoc (a b c : string) : (a +:+ b) +:+ c = a +:+ (b +:+ c).
Proof.
  induction a as [|x a IH]; [done|].
  change (String x ((a +:+ b) +:+ c) = String x (a +:+ (b +:+ c))).
  by rewrite IH.
Qed.

Lemma append_nil_r (a : string) : a +:+ EmptyString = a.
Proof.
  induction a as [|x a IH]; [done|].
  change (String x (a +:+ EmptyString) = String x a). by rewrite IH.
Qed.

Lemma add_entries_false (entries : list string) :
  ∀ b, add_entries false b entries = b +:+ comma_lines entries.
Proof.
  induction entries as [|e entries IH]; intros b; cbn [add_entries comma_lines].
  - by rewrite append_nil_r.
  - by rewrite IH, !append_assoc.
Qed.

Lemma concat_comma_lines (entries : list string) :
  ∀ e, String.concat ("," +:+ LF) (e :: entries) = e +:+ comma_lines entries.
Proof.
  induction entries as [|e' entries IH]; intros e.
  - cbn [String.concat comma_lines]. by rewrite append_nil_r.
  - change (String.concat ("," +:+ LF) (e :: e' :: entries))
      with (e +:+ ("," +:+ LF) +:+ String.concat ("," +:+ LF) (e' :: entries)).
    rewrite IH. cbn [comma_lines]. by rewrite !append_assoc.
Qed.

(** The text the loop builds from its initial buffer is the snapshot. *)
Lemma add_entries_render (e : string) (entries : list string) :
  add_entries true ("{" +:+ LF) (e :: entries) +:+ LF +:+ "}"
  = render_snapshot (e :: entries).
Proof.
  unfold render_snapshot. cbn [add_entries].
  by rewrite add_entries_false, concat_comma_lines, !append_assoc.
Qed.

Lemma json_includes_fresh (now : Z) (row : TagSpec) (inc : bool) :
  json_includes now row = Some inc → inc = bool_decide (is_fresh now row).
Proof.
  intros H.
  destruct (bool_decide_reflect (is_fresh now row)) as [Hf|Hf];
    unfold json_includes, is_fresh, has_value, rd in *;
    destruct (lastMessage row) as [|c a]; try done;
    cbn in H; injection H as <-.
  - destruct Hf as [Hc Hts]. rewrite bool_decide_eq_false_2 by done.
    by destruct (Z.leb_spec (now - lastMessageTimestamp row)
                   MESSAGE_EXPIRATION_SECONDS); [|lia].
  - destruct (decide (c = NUL)) as [->|Hc].
    + by rewrite bool_decide_eq_true_2.
    + rewrite bool_decide_eq_false_2 by done.
      destruct (Z.leb_spec (now - lastMessageTimestamp row)
                  MESSAGE_EXPIRATION_SECONDS); [tauto|done].
Qed.

Lemma fits_Some (cap : nat) (s s' : string) : fits cap s = Some s' → s' = s.
Proof. unfold fits. by destruct (decide _); intros [= <-]. Qed.

Lemma json_loop_entries (tbl : list TagSpec) (now : Z) :
  ∀ (n : nat) (json_buffer : string) (firstTopic : bool) r,
    json_loop tbl now n json_buffer firstTopic = Some r →
    ∃ entries,
      mapM json_entry (filter (is_fresh now) (reverse (take n tbl)))
      = Some entries ∧
      r = (add_entries firstTopic json_buffer entries,
           match entries with [] => firstTopic | _ :: _ => false end).
Proof.
  induction n as [|n IH]; intros buf first r H.
  - injection H as <-. exists []. by rewrite take_0.
  - cbn [json_loop] in H.
    destruct (tbl !! n) as [row|] eqn:Hrow; cbn [mbind option_bind] in H;
      [|done].
    rewrite (take_S_r _ _ _ Hrow), reverse_snoc, filter_cons.
    destruct (json_includes now row) as [inc|] eqn:Hinc;
      cbn [mbind option_bind] in H; [|done].
    apply json_includes_fresh in Hinc. subst inc.
    destruct (decide (is_fresh now row)) as [Hf|Hf].
    + rewrite bool_decide_eq_true_2 in H by done.
      destruct (if first then Some buf else fits 1024 (buf +:+ "," +:+ LF))
        as [buf1|] eqn:Hbuf1; cbn [mbind option_bind] in H; [|done].
      destruct (json_entry row) as [e|] eqn:He;
        cbn [mbind option_bind] in H; [|done].
      destruct (fits 1024 (buf1 +:+ e)) as [buf2|] eqn:Hbuf2;
        cbn [mbind option_bind] in H; [|done].
      apply fits_Some in Hbuf2 as ->.
      destruct (IH _ _ _ H) as (entries & Hentries & ->).
      exists (e :: entries). split.
      * cbn. rewrite He. cbn. by rewrite Hentries.
      * cbn [add_entries]. f_equal; [|by destruct entries].
        destruct first; [by injection Hbuf1 as <-|].
        by apply fits_Some in Hbuf1 as ->.
    + rewrite bool_decide_eq_false_2 in H by done. by apply IH.
Qed.

Lemma json_includes_total (now : Z) (row : TagSpec) :
  lastMessage row ≠ [] →
  json_includes now row = Some (bool_decide (is_fresh now row)).
Proof.
  intros Hne.
  destruct (json_includes now row) as [inc|] eqn:H.
  - by rewrite (json_includes_fresh _ _ _ H).
  - unfold json_includes, rd in H. by destruct (lastMessage row).
Qed.

Lemma json_loop_stale (tbl : list TagSpec) (now : Z) :
  ∀ (n : nat) (json_buffer : string) (firstTopic : bool),
    (n ≤ length tbl)%nat →
    (∀ row, row ∈ take n tbl → lastMessage row ≠ [] ∧ ¬ is_fresh now row) →
    json_loop tbl now n json_buffer firstTopic = Some (json_buffer, firstTopic).
Proof.
  induction n as [|n IH]; intros buf first Hn Hrows; [done|].
  cbn [json_loop].
  destruct (lookup_lt_is_Some_2 tbl n ltac:(lia)) as [row Hrow].
  rewrite Hrow. cbn [mbind option_bind].
  rewrite (take_S_r _ _ _ Hrow) in Hrows.
  destruct (Hrows row) as [Hne Hstale];
    [apply elem_of_app; right; apply list_elem_of_singleton; done|].
  rewrite json_includes_total by done. cbn [mbind option_bind].
  rewrite bool_decide_eq_false_2 by done.
  apply IH; [lia|]. intros row' Hrow'. apply Hrows.
  apply elem_of_app. by left.
Qed.

(** C7: [publish_json] renders the rows that are fresh at the time [now] it
    reads, last row of the table first. A row is among them if and only if
    it is in the table, has a value and [now - lastMessageTimestamp <= 60];
    a row updated more than 60 seconds before [now] is not. When no row is
    fresh nothing is published and "No recent data to publish" goes to
    [stderr] (and the call is then defined on every table of non-empty
    arrays); otherwise the snapshot of exactly the fresh rows is published on
    all_data/json. *)
Theorem publish_json_snapshot (time : nat → Z) (w : world) :
  let now := time (time_calls w) in
  let rows := filter (is_fresh now) (reverse (tagData w)) in
  (∀ row, row ∈ rows ↔
          row ∈ tagData w ∧ has_value row ∧
          now - lastMessageTimestamp row ≤ 60) ∧
  (∀ row, 60 < now - lastMessageTimestamp row → row ∉ rows) ∧
  (∀ w', publish_json time w = Some w' →
     match rows with
     | [] => w' = emit (Stderr ("No recent data to publish" +:+ LF)) (tick w)
     | _ :: _ =>
         ∃ entries, mapM json_entry rows = Some entries ∧
           w' = mqtt_publish TOPIC_ALL_DATA_JSON (render_snapshot entries)
                             (tick w)
     end) ∧
  ((∀ row, row ∈ tagData w → lastMessage row ≠ []) → rows = [] →
   publish_json time w
   = Some (emit (Stderr ("No recent data to publish" +:+ LF)) (tick w))).
Proof.
  intros now rows.
  assert (Hin : ∀ row, row ∈ rows ↔
            row ∈ tagData w ∧ has_value row ∧
            now - lastMessageTimestamp row ≤ 60).
  { intros row. unfold rows. rewrite list_elem_of_filter, elem_of_reverse.
    unfold is_fresh, MESSAGE_EXPIRATION_SECONDS. tauto. }
  split; [done|]. split; [|split].
  - intros row Hold [_ [_ Hts]]%Hin. lia.
  - intros w' H. unfold publish_json in H.
    cbn [tagData tick] in H. fold now in H.
    destruct (json_loop (tagData w) now (length (tagData w)) ("{" +:+ LF) true)
      as [r|] eqn:Hloop; cbn [mbind option_bind] in H; [|done].
    apply json_loop_entries in Hloop as (entries & Hentries & ->).
    rewrite firstn_all in Hentries. fold rows in Hentries.
    cbn [fst snd] in H.
    destruct (fits 1024 _) as [json_buffer|] eqn:Hfit;
      cbn [mbind option_bind] in H; [|done].
    apply fits_Some in Hfit as ->.
    pose proof (length_mapM _ _ _ Hentries) as Hlen.
    destruct rows as [|row rows'], entries as [|e entries]; try done.
    + by injection H as <-.
    + injection H as <-. exists (e :: entries). split; [done|].
      by rewrite <- add_entries_render.
  - intros Harr Hrows. unfold publish_json.
    cbn [tagData tick]. fold now.
    rewrite json_loop_stale; [done|done|].
    intros row Hrow. rewrite firstn_all in Hrow. split; [by apply Harr|].
    intros Hf. assert (row ∈ rows) as Hr; [|by rewrite Hrows in Hr; inversion Hr].
    apply Hin. unfold is_fresh, MESSAGE_EXPIRATION_SECONDS in Hf. tauto.
Qed.

Lemma publish_json_snapshot_witness :
  let now := clock_30 (time_calls world_after_frame) in
  match filter (is_fresh now) (reverse (tagData world_after_frame)) with
  | [] => world_after_snapshot
          = emit (Stderr ("No recent data to publish" +:+ LF))
                 (tick world_after_frame)
  | _ :: _ =>
      ∃ entries,
        mapM json_entry
             (filter (is_fresh now) (reverse (tagData world_after_frame)))
        = Some entries ∧
        world_after_snapshot
        = mqtt_publish TOPIC_ALL_DATA_JSON (render_snapshot entries)
                       (tick world_after_frame)
  end.
Proof.
  apply (proj1 (proj2 (proj2
           (publish_json_snapshot clock_30 world_after_frame)))).
  vm_compute. reflexivity.
Defined.

(** * More on the frame codec *)

(** X1: whatever the buffer, [check_receive_buffer] returns one of three
    codes, [RECEIVE_BUFFER_OK], [INVALID_HEADER] or [INVALID_CHECKSUM]; the
    fourth code of the source, [INVALID_LENGTH], is never returned. *)
Theorem check_receive_buffer_codes (buf : list Z) (rc : Z) :
  check_receive_buffer buf = Some rc →
  (rc = RECEIVE_BUFFER_OK ∨ rc = INVALID_HEADER ∨ rc = INVALID_CHECKSUM) ∧
  rc ≠ INVALID_LENGTH.
Proof.
  unfold check_receive_buffer, INVALID_LENGTH, INVALID_HEADER,
    INVALID_CHECKSUM, RECEIVE_BUFFER_OK.
  intros H.
  destruct (rd buf 0) as [b0|]; cbn [mbind option_bind] in H; [|done].
  destruct (negb (b0 =? 255)); [injection H as <-; split; [auto|lia]|].
  destruct (rd buf 1) as [b1|]; cbn [mbind option_bind] in H; [|done].
  destruct (negb (b1 =? 255)); [injection H as <-; split; [auto|lia]|].
  destruct (frame_length buf) as [L|]; cbn [mbind option_bind] in H; [|done].
  destruct (checksum_loop buf L) as [s|]; cbn [mbind option_bind] in H; [|done].
  destruct (rd buf (L + 1)) as [c|]; cbn [mbind option_bind] in H; [|done].
  destruct (negb (s `mod` 256 =? c)); injection H as <-; split; auto; lia.
Qed.

Lemma check_receive_buffer_codes_witness :
  (INVALID_CHECKSUM = RECEIVE_BUFFER_OK ∨ INVALID_CHECKSUM = INVALID_HEADER
   ∨ INVALID_CHECKSUM = INVALID_CHECKSUM) ∧
  INVALID_CHECKSUM ≠ INVALID_LENGTH.
Proof.
  apply (check_receive_buffer_codes (<[5%nat := 5]> frame_6)). reflexivity.
Defined.

Lemma sum_bytes_app (l : list Z) :
  ∀ (pre post : list Z) (acc : Z),
    sum_bytes (pre ++ l ++ post) (Z.of_nat (length pre)) (length l) acc
    = Some (acc + sum_list l).
Proof.
  induction l as [|x l IH]; intros pre post acc.
  - cbn. f_equal. lia.
  - cbn [length sum_bytes]. rewrite rd_nat, lookup_app_r by lia.
    rewrite Nat.sub_diag. cbn [app lookup list_lookup mbind option_bind].
    replace (Z.of_nat (length pre) + 1)
      with (Z.of_nat (length (pre ++ [x]))) by (rewrite length_app; simpl; lia).
    replace (pre ++ x :: l ++ post) with ((pre ++ [x]) ++ l ++ post)
      by (by rewrite <- app_assoc).
    rewrite IH. cbn [sum_list foldr]. f_equal. unfold sum_list. lia.
Qed.

(** X2: a reply frame (header FF FF, command, big-endian size
    [4 + |payload|], payload, checksum byte, anything after) is accepted
    exactly when its checksum byte is the sum of command, size bytes and
    payload modulo 256, and is refused with [INVALID_CHECKSUM] otherwise;
    what follows the checksum byte in the buffer plays no part. *)
Theorem check_receive_buffer_reply_frame
    (cmd : Z) (payload : list Z) (cs : Z) (rest : list Z) :
  check_receive_buffer (reply_frame cmd payload cs rest)
  = Some (if cs =? reply_checksum cmd payload
          then RECEIVE_BUFFER_OK else INVALID_CHECKSUM).
Proof.
  unfold reply_frame, reply_checksum.
  set (L := reply_size payload).
  assert (HL : L = 4 + Z.of_nat (length payload)) by done.
  set (hi := L / 256). set (lo := L `mod` 256).
  assert (Hsize : Z.shiftl hi 8 + lo = L).
  { rewrite Z.shiftl_mul_pow2 by lia. unfold hi, lo.
    change (2 ^ 8) with 256. pose proof (Z.div_mod L 256). lia. }
  unfold check_receive_buffer, frame_length.
  change (rd ([255; 255; cmd; hi; lo] ++ payload ++ cs :: rest) 0)
    with (Some 255).
  cbn [mbind option_bind]. change (negb (255 =? 255)) with false. cbv iota.
  change (rd ([255; 255; cmd; hi; lo] ++ payload ++ cs :: rest) 1)
    with (Some 255).
  cbn [mbind option_bind]. change (negb (255 =? 255)) with false. cbv iota.
  change (rd ([255; 255; cmd; hi; lo] ++ payload ++ cs :: rest) 3)
    with (Some hi).
  change (rd ([255; 255; cmd; hi; lo] ++ payload ++ cs :: rest) 4)
    with (Some lo).
  cbn [mbind option_bind]. rewrite Hsize.
  unfold checksum_loop.
  replace (Z.to_nat (L - 1)) with (length (cmd :: hi :: lo :: payload))
    by (simpl; lia).
  change ([255; 255; cmd; hi; lo] ++ payload ++ cs :: rest)
    with ([255; 255] ++ (cmd :: hi :: lo :: payload) ++ cs :: rest).
  rewrite (sum_bytes_app _ [255; 255]). cbn [mbind option_bind].
  replace (L + 1)
    with (Z.of_nat (length ([255; 255] ++ cmd :: hi :: lo :: payload)))
    by (rewrite length_app; simpl; lia).
  rewrite app_assoc, rd_nat, lookup_app_r by lia.
  rewrite Nat.sub_diag. cbn [lookup list_lookup mbind option_bind].
  replace (0 + sum_list (cmd :: hi :: lo :: payload))
    with (cmd + hi + lo + sum_list payload) by (unfold sum_list; simpl; lia).
  rewrite (Z.eqb_sym cs).
  by destruct (_ =? cs).
Qed.

Lemma rd_is_Some {A} (buf : list A) (i : Z) :
  0 ≤ i < Z.of_nat (length buf) → is_Some (rd buf i).
Proof.
  intros Hi. unfold rd. rewrite decide_True by lia.
  apply lookup_lt_is_Some. lia.
Qed.

Lemma rd_None {A} (buf : list A) (i : Z) :
  Z.of_nat (length buf) ≤ i → rd buf i = None.
Proof.
  intros Hi. unfold rd. destruct (decide (0 ≤ i)); [|done].
  apply lookup_ge_None. lia.
Qed.

Lemma sum_bytes_defined (buf : list Z) (n : nat) :
  ∀ i acc, 0 ≤ i → i + Z.of_nat n ≤ Z.of_nat (length buf) →
    is_Some (sum_bytes buf i n acc).
Proof.
  induction n as [|n IH]; intros i acc Hi Hn; cbn [sum_bytes]; [done|].
  destruct (rd_is_Some buf i ltac:(lia)) as [b ->]. cbn [mbind option_bind].
  apply IH; lia.
Qed.

(** X3: [check_receive_buffer] trusts the size field: on a buffer with the
    FF FF header it reads every offset up to [length + 1], so it stays
    inside the buffer exactly when the declared length is below the buffer
    size minus one; a frame that declares more (1023 or more in the 1024
    bytes of [RECEIVE_BUFFER]) makes it read past the end. *)
Theorem check_receive_buffer_bounds (buf : list Z) (L : Z) :
  bytes buf →
  rd buf 0 = Some 0xFF → rd buf 1 = Some 0xFF →
  frame_length buf = Some L →
  check_receive_buffer buf = None ↔ Z.of_nat (length buf) ≤ L + 1.
Proof.
  intros Hb H0 H1 HL.
  assert (0 ≤ L) as HL0.
  { unfold frame_length in HL.
    destruct (rd buf 3) as [b3|] eqn:H3; cbn [mbind option_bind] in HL; [|done].
    destruct (rd buf 4) as [b4|] eqn:H4; cbn [mbind option_bind] in HL; [|done].
    injection HL as <-.
    pose proof (rd_byte _ _ _ Hb H3) as [? ?].
    pose proof (rd_byte _ _ _ Hb H4) as [? ?].
    rewrite Z.shiftl_mul_pow2 by lia. lia. }
  unfold check_receive_buffer. rewrite H0. cbn [mbind option_bind].
  change (negb (255 =? 255)) with false. cbv iota.
  rewrite H1. cbn [mbind option_bind].
  change (negb (255 =? 255)) with false. cbv iota.
  rewrite HL. cbn [mbind option_bind].
  destruct (decide (Z.of_nat (length buf) ≤ L + 1)) as [Hout|Hin].
  - split; [done|]. intros _. rewrite (rd_None buf (L + 1)) by done.
    by destruct (checksum_loop buf L).
  - split; [|done]. intros H. exfalso.
    destruct (sum_bytes_defined buf (Z.to_nat (L - 1)) 2 0) as [s Hs];
      [lia|lia|].
    unfold checksum_loop in H. rewrite Hs in H. cbn [mbind option_bind] in H.
    destruct (rd_is_Some buf (L + 1)) as [c Hc]; [lia|].
    rewrite Hc in H. cbn [mbind option_bind] in H. by destruct (negb _).
Qed.

Lemma check_receive_buffer_bounds_witness :
  check_receive_buffer [0xFF; 0xFF; 0x27; 0x03; 0xFF; 0; 0; 0] = None
  ↔ Z.of_nat (length [0xFF; 0xFF; 0x27; 0x03; 0xFF; 0; 0; 0]) ≤ 0x03FF + 1.
Proof.
  apply (check_receive_buffer_bounds [0xFF; 0xFF; 0x27; 0x03; 0xFF; 0; 0; 0]).
  - unfold bytes, is_byte. repeat constructor; lia.
  - reflexivity.
  - reflexivity.
  - reflexivity.
Defined.

(** X4: what [prepare_command_buffer] can do with a length that is not
    negative: it returns -1 and leaves the buffer as it was (length 252 or
    more, or a positive length with a non-null payload pointer), or it
    returns 5 for the empty payload, having written the first five bytes
    only. It never builds a frame that carries a payload. *)
Theorem prepare_command_buffer_outcomes (buf : list Z) (cmd : Z)
    (payload : option (list Z)) (len rc : Z) (b' : list Z) :
  0 ≤ len →
  prepare_command_buffer buf cmd payload len = Some (rc, b') →
  rc = -1 ∧ b' = buf ∧ (252 ≤ len ∨ 0 < len ∧ payload ≠ None)
  ∨ rc = 5 ∧ len = 0 ∧ length b' = length buf ∧ drop 5 b' = drop 5 buf.
Proof.
  intros Hlen H.
  destruct (decide (252 ≤ len)) as [Hbig|Hsmall].
  { rewrite prepare_command_buffer_too_large in H by done.
    injection H as <- <-. left. auto. }
  destruct (decide (len = 0)) as [->|Hpos].
  - right. unfold prepare_command_buffer in H. cbn [andb Z.ltb Z.compare] in H.
    change (255 - 3 <=? 0) with false in H. cbv iota in H.
    unfold wr in H.
    repeat (destruct (decide _) as [?|?] in H;
            cbn [mbind option_bind] in H; [|done]).
    change (negb (0 =? 0)) with false in H. cbv iota in H.
    cbn [mbind option_bind] in H.
    destruct (checksum_loop _ _); cbn [mbind option_bind] in H; [|done].
    destruct (decide _) as [Hw|?] in H; cbn [mbind option_bind] in H; [|done].
    injection H as <- <-.
    split; [done|]. split; [done|].
    rewrite !length_insert in *. split; [done|].
    rewrite !drop_insert_lt by (simpl; lia). done.
  - destruct payload as [data|].
    + rewrite prepare_command_buffer_nonnull_rejected in H by lia.
      injection H as <- <-. left. split; [done|]. split; [done|].
      right. split; [lia|done].
    + rewrite prepare_command_buffer_null_undefined in H by lia. done.
Qed.

Lemma prepare_command_buffer_outcomes_witness :
  5 = -1 ∧ [0xFF; 0xFF; 0x27; 0x03; 0x2A; 0; 0; 0] = replicate 8 0
  ∧ (252 ≤ 0 ∨ 0 < 0 ∧ (None : option (list Z)) ≠ None)
  ∨ 5 = 5 ∧ 0 = 0 ∧
    length [0xFF; 0xFF; 0x27; 0x03; 0x2A; 0; 0; 0] = length (replicate 8 0) ∧
    drop 5 [0xFF; 0xFF; 0x27; 0x03; 0x2A; 0; 0; 0] = drop 5 (replicate 8 0).
Proof.
  apply (prepare_command_buffer_outcomes (replicate 8 0) CMD_GW1000_LIVEDATA
           None 0 5 [0xFF; 0xFF; 0x27; 0x03; 0x2A; 0; 0; 0]).
  - lia.
  - reflexivity.
Defined.

(** * More on the tag registry *)

Lemma tag_index_from_spec (tbl : list TagSpec) (tg : Z) (n : nat) :
  (n ≤ length tbl)%nat →
  (tag_index_from tbl n tg = -1 ∧
   ∀ j row, (j < n)%nat → tbl !! j = Some row → tag row ≠ tg)
  ∨ ∃ i row, (i < n)%nat ∧ tag_index_from tbl n tg = Z.of_nat i ∧
             tbl !! i = Some row ∧ tag row = tg ∧
             ∀ j row', (i < j < n)%nat → tbl !! j = Some row' → tag row' ≠ tg.
Proof.
  induction n as [|n IH]; intros Hn.
  - left. split; [done|]. intros; lia.
  - cbn [tag_index_from].
    destruct (lookup_lt_is_Some_2 tbl n ltac:(lia)) as [s Hs]. rewrite Hs.
    destruct (Z.eqb_spec tg (tag s)) as [Heq|Hne].
    + right. exists n, s. repeat split; auto; lia.
    + destruct (IH ltac:(lia)) as [[Hfrom Hall]|(i & row & Hi & Hfrom & Hrow & Htag & Hlast)].
      * left. split; [done|]. intros j row Hj Hrow.
        destruct (decide (j = n)) as [->|]; [congruence|]. apply (Hall j); [lia|done].
      * right. exists i, row. repeat split; auto; try lia.
        intros j row' Hj Hrow'.
        destruct (decide (j = n)) as [->|]; [congruence|].
        apply (Hlast j); [lia|done].
Qed.

(** X5: [tag_index] returns -1 exactly when no row of the table has the tag,
    and otherwise the index of the LAST row that has it (the scan runs from
    the end of the table). *)
Theorem tag_index_spec (tbl : list TagSpec) (tg : Z) :
  (tag_index tbl tg = -1 ∧ ∀ row, row ∈ tbl → tag row ≠ tg)
  ∨ ∃ i row, tag_index tbl tg = Z.of_nat i ∧ tbl !! i = Some row ∧
             tag row = tg ∧
             ∀ j row', (i < j)%nat → tbl !! j = Some row' → tag row' ≠ tg.
Proof.
  unfold tag_index.
  destruct (tag_index_from_spec tbl tg (length tbl) ltac:(lia))
    as [[Hfrom Hall]|(i & row & Hi & Hfrom & Hrow & Htag & Hlast)].
  - left. split; [done|]. intros row [j Hj]%list_elem_of_lookup_1.
    apply (Hall j); [by eapply lookup_lt_Some|done].
  - right. exists i, row. repeat split; auto.
    intros j row' Hj Hrow'. apply (Hlast j); [|done].
    split; [done|]. by eapply lookup_lt_Some.
Qed.

Lemma tag_index_from_registry (tbl tbl' : list TagSpec) (tg : Z) :
  registry tbl = registry tbl' →
  ∀ n, tag_index_from tbl n tg = tag_index_from tbl' n tg.
Proof.
  intros Hreg. induction n as [|n IH]; [done|]. cbn [tag_index_from].
  assert (Hn : registry tbl !! n = registry tbl' !! n) by (by rewrite Hreg).
  unfold registry in Hn. rewrite !list_lookup_fmap in Hn.
  destruct (tbl !! n) as [s|], (tbl' !! n) as [s'|]; try done.
  injection Hn as -> _ _. by rewrite IH.
Qed.

Lemma tag_index_registry (tbl tbl' : list TagSpec) (tg : Z) :
  registry tbl = registry tbl' → tag_index tbl tg = tag_index tbl' tg.
Proof.
  intros Hreg. unfold tag_index.
  assert (length tbl = length tbl') as ->.
  { apply (f_equal length) in Hreg. unfold registry in Hreg.
    by rewrite !length_fmap in Hreg. }
  by apply tag_index_from_registry.
Qed.

Lemma registry_init_round_trip :
  Forall (λ ir : nat * (Z * TAG_PROCESSING_TYPE * string),
            tag_index tagData_init ir.2.1.1 = Z.of_nat ir.1)
         (imap (λ i r, (i, r)) (registry tagData_init)).
Proof. apply (bool_decide_unpack _). vm_compute. reflexivity. Qed.

(** X6: in every world that has the registry of [tagData], looking up the
    tag of row [i] gives [i]: each of the 116 registered tags is found at
    its own row, so no two rows share a tag id. *)
Theorem registry_lookup_round_trip (w : world) (i : nat) (row : TagSpec) :
  registry (tagData w) = registry tagData_init →
  tagData w !! i = Some row →
  tag_index (tagData w) (tag row) = Z.of_nat i ∧
  ∀ j row', tagData w !! j = Some row' → tag row' = tag row → j = i.
Proof.
  intros Hreg Hrow.
  assert (Hfind : ∀ k r, tagData w !! k = Some r →
                         tag_index (tagData w) (tag r) = Z.of_nat k).
  { intros k r Hr. rewrite (tag_index_registry _ _ _ Hreg).
    assert (Hk : registry tagData_init !! k = Some (tag r, type r, topic r)).
    { rewrite <- Hreg. unfold registry. by rewrite list_lookup_fmap, Hr. }
    pose proof registry_init_round_trip as Hall.
    eapply (Forall_lookup_1 _ _ k) in Hall;
      [|by rewrite list_lookup_imap, Hk]. exact Hall. }
  split; [by apply Hfind|].
  intros j row' Hrow' Htag.
  pose proof (Hfind _ _ Hrow) as H1. pose proof (Hfind _ _ Hrow') as H2.
  rewrite Htag in H2. lia.
Qed.

Lemma registry_lookup_round_trip_witness :
  tag_index (tagData world_init) (tag (mkTag ITEM_LOWBATT TAG_TYPE_16_BYTES_BITMASK
                                             "all_sensor_low_battery"))
  = Z.of_nat 74 ∧
  ∀ j row', tagData world_init !! j = Some row' →
            tag row' = tag (mkTag ITEM_LOWBATT TAG_TYPE_16_BYTES_BITMASK
                                  "all_sensor_low_battery") → j = 74%nat.
Proof.
  apply (registry_lookup_round_trip world_init 74); reflexivity.
Defined.

(** * More on [process_tag] *)

Lemma decode_same_raw (buf : list Z) (p : Z) (subtopic : string)
    (tagType : TAG_PROCESSING_TYPE) (w w1 : world) (payload : string) :
  decode buf p subtopic tagType w = Some (Payload w1 payload) → same_raw w w1.
Proof.
  destruct tagType; cbn [decode]; intros H; bind_inv H;
    try discriminate H; injection H as <- <-; by repeat split.
Qed.

(** What [process_tag] does, with the row named by the tag byte. *)
Lemma process_tag_cases (time : nat → Z) (buf : list Z) (p : Z)
    (w w' : world) (n b0 : Z) :
  process_tag time buf p w = Some (n, w') → rd buf p = Some b0 →
  n = -1 ∧ w' = w
  ∨ ∃ row w1 payload,
      0 ≤ tag_index (tagData w) b0 ∧
      rd (tagData w) (tag_index (tagData w) b0) = Some row ∧
      decode buf p (topic row) (type row) w = Some (Payload w1 payload) ∧
      n = 1 + tagTypeDataLength (type row) ∧
      (nonempty payload = true ∧
       w' = set_tagData
              (<[Z.to_nat (tag_index (tagData w) b0)
                 := record payload (time (time_calls w)) row]> (tagData w))
              (tick (mqtt_publish (topic row) payload w1))
       ∨ payload = EmptyString ∧
         w' = emit (Stderr ("No payload to publish" +:+ LF)) w1).
Proof.
  unfold process_tag. intros H Hb0. rewrite Hb0 in H.
  cbn [mbind option_bind] in H.
  destruct (Z.leb_spec 0 (tag_index (tagData w) b0)) as [Hti|Hti];
    [|injection H as <- <-; by left].
  destruct (rd (tagData w) _) as [row|] eqn:Hrow;
    cbn [mbind option_bind] in H; [|done].
  destruct (decode buf p (topic row) (type row) w) as [[w1 payload|rc]|] eqn:E;
    cbn [mbind option_bind] in H; [| |done].
  - pose proof (decode_Payload _ _ _ _ _ _ _ E) as (_ & Htbl & Htc & _).
    right. exists row, w1, payload. do 3 (split; [done|]).
    destruct (nonempty payload) eqn:Hne.
    + cbn [tagData time_calls tick mqtt_publish emit] in H.
      rewrite Htbl, Htc in H.
      rewrite wr_Some in H by (by eapply rd_lt).
      cbn [mbind option_bind] in H. injection H as <- <-.
      split; [done|]. by left.
    + injection H as <- <-. split; [done|]. right.
      split; [by apply nonempty_false|done].
  - apply decode_Return in E as [_ ->]. injection H as <- <-. by left.
Qed.

(** X7: a call of [process_tag] writes at most one row of the table, the
    row [tag_index] gives for the tag byte: the table keeps its length, every
    other row is as before, and the raw snapshot ([data_buffer], its length
    and its time) is not touched. *)
Theorem process_tag_touches_one_row (time : nat → Z) (buf : list Z) (p : Z)
    (w w' : world) (n b0 : Z) :
  process_tag time buf p w = Some (n, w') → rd buf p = Some b0 →
  length (tagData w') = length (tagData w) ∧
  same_raw w w' ∧
  ∀ j : nat, Z.of_nat j ≠ tag_index (tagData w) b0 →
             tagData w' !! j = tagData w !! j.
Proof.
  intros H Hb0.
  destruct (process_tag_cases _ _ _ _ _ _ _ H Hb0)
    as [[_ ->]|(row & w1 & payload & Hti & Hrow & Hdec & _ & Hw')];
    [by repeat split|].
  pose proof (decode_Payload _ _ _ _ _ _ _ Hdec) as (_ & Htbl & _ & _).
  pose proof (decode_same_raw _ _ _ _ _ _ _ Hdec) as Hraw.
  destruct Hw' as [[_ ->]|[_ ->]].
  - cbn [tagData set_tagData]. split; [by rewrite length_insert|].
    split; [exact Hraw|].
    intros j Hj. apply list_lookup_insert_ne. lia.
  - cbn [tagData emit]. rewrite Htbl. split; [done|]. split; [exact Hraw|done].
Qed.

Lemma process_tag_touches_one_row_witness :
  length (tagData world_after_bitmask) = length (tagData world_init) ∧
  same_raw world_init world_after_bitmask ∧
  ∀ j : nat, Z.of_nat j ≠ tag_index (tagData world_init) ITEM_LOWBATT →
             tagData world_after_bitmask !! j = tagData world_init !! j.
Proof.
  apply (process_tag_touches_one_row clock_1000
           (ITEM_LOWBATT :: 0x01 :: replicate 15 0) 0 world_init
           world_after_bitmask 17 ITEM_LOWBATT).
  - vm_compute. reflexivity.
  - reflexivity.
Defined.

(** X8: a tag of one of the four reserved variants (the two time stamps,
    the CO2 record, the piezo gain) is skipped: [process_tag] returns one
    plus the data width without reading any data byte, publishes nothing,
    leaves the cache and the clock alone and only writes "No payload to
    publish" to [stderr]. *)
Theorem process_tag_reserved (time : nat → Z) (buf : list Z) (p : Z)
    (w : world) (b0 : Z) (row : TagSpec) :
  rd buf p = Some b0 →
  0 ≤ tag_index (tagData w) b0 →
  rd (tagData w) (tag_index (tagData w) b0) = Some row →
  is_reserved (type row) = true →
  process_tag time buf p w
  = Some (1 + tagTypeDataLength (type row),
          emit (Stderr ("No payload to publish" +:+ LF)) w).
Proof.
  intros Hb0 Hti Hrow Hres. unfold process_tag.
  rewrite Hb0. cbn [mbind option_bind].
  destruct (Z.leb_spec 0 (tag_index (tagData w) b0)) as [_|?]; [|lia].
  rewrite Hrow. cbn [mbind option_bind].
  by destruct (type row).
Qed.

Lemma process_tag_reserved_witness :
  process_tag clock_1000 [ITEM_TIME] 0 world_init
  = Some (1 + 6, emit (Stderr ("No payload to publish" +:+ LF)) world_init).
Proof.
  apply (process_tag_reserved clock_1000 [ITEM_TIME] 0 world_init ITEM_TIME
           (mkTag ITEM_TIME TAG_TYPE_6_BYTES_TIME "date_and_time")).
  - reflexivity.
  - vm_compute. discriminate.
  - vm_compute. reflexivity.
  - reflexivity.
Defined.

Lemma pretty_N_go_nonempty (x : N) :
  ∀ s, nonempty s = true → nonempty (pretty_N_go x s) = true.
Proof.
  induction (N.lt_wf_0 x) as [x _ IH]; intros s Hs.
  destruct (decide (x = 0)%N) as [->|Hx]; [by rewrite pretty_N_go_0|].
  rewrite pretty_N_go_step by lia. apply IH; [apply N.div_lt; lia|done].
Qed.

Lemma pretty_N_nonempty (x : N) : nonempty (pretty x) = true.
Proof.
  unfold pretty, pretty_N. destruct (decide (x = 0)%N); [done|].
  destruct (decide (x = 0)%N) as [->|Hx]; [done|].
  rewrite pretty_N_go_step by lia. by apply pretty_N_go_nonempty.
Qed.

Lemma pretty_Z_nonempty (x : Z) : nonempty (pretty x) = true.
Proof.
  unfold pretty, pretty_Z. destruct x as [|x|x]; [done| |done].
  apply pretty_N_nonempty.
Qed.

Lemma decode_value_nonempty (buf : list Z) (p : Z) (subtopic : string)
    (tagType : TAG_PROCESSING_TYPE) (w w1 : world) (payload : string) :
  decode buf p subtopic tagType w = Some (Payload w1 payload) →
  is_reserved tagType = false → nonempty payload = true.
Proof.
  intros H Hres.
  destruct (decide (tagType = TAG_TYPE_16_BYTES_BITMASK)) as [->|Hty].
  { apply decode_bitmask_inv in H as (data & Hlen & ->).
    destruct data as [|x data]; [done|]. reflexivity. }
  destruct tagType; try done; cbn [decode] in H; bind_inv H;
    try discriminate H; injection H as _ <-;
    first [apply pretty_Z_nonempty | apply fmt_tenths_nonempty].
Qed.

(** X9: a known tag of a value variant is never dropped: whenever
    [process_tag] returns a chunk size for a row that is not reserved, it
    has published a non-empty payload on the row's topic (a reading of zero
    prints as "0" or "0.0", which passes the test on [payload[0]]) and has
    stamped the row with one clock reading. *)
Theorem process_tag_value_published (time : nat → Z) (buf : list Z) (p : Z)
    (w w' : world) (n b0 : Z) (row : TagSpec) :
  process_tag time buf p w = Some (n, w') → 0 < n →
  rd buf p = Some b0 →
  rd (tagData w) (tag_index (tagData w) b0) = Some row →
  is_reserved (type row) = false →
  ∃ payload,
    payload ≠ EmptyString ∧
    last (events w') = Some (Publish (topic row) payload) ∧
    time_calls w' = S (time_calls w) ∧
    ∃ row', rd (tagData w') (tag_index (tagData w) b0) = Some row' ∧
            lastMessageTimestamp row' = time (time_calls w).
Proof.
  intros H Hn Hb0 Hrow Hres.
  destruct (process_tag_cases _ _ _ _ _ _ _ H Hb0)
    as [[-> _]|(row0 & w1 & payload & Hti & Hrow0 & Hdec & _ & Hw')]; [lia|].
  rewrite Hrow in Hrow0. injection Hrow0 as <-.
  pose proof (decode_value_nonempty _ _ _ _ _ _ _ Hdec Hres) as Hne.
  pose proof (decode_Payload _ _ _ _ _ _ _ Hdec) as (_ & _ & Htc & _).
  destruct Hw' as [[_ ->]|[-> _]]; [|done].
  exists payload. split; [by apply nonempty_true|].
  split; [cbn [events set_tagData tick mqtt_publish emit]; apply last_snoc|].
  split; [cbn [time_calls set_tagData tick mqtt_publish emit]; by rewrite Htc|].
  exists (record payload (time (time_calls w)) row).
  split; [|done]. cbn [tagData set_tagData].
  apply rd_insert_eq. by eapply rd_lt.
Qed.

Lemma process_tag_value_published_witness :
  ∃ w' payload,
    process_tag clock_1000 [ITEM_INHUMI; 0] 0 world_init = Some (2, w') ∧
    payload ≠ EmptyString ∧
    last (events w') = Some (Publish "humidity/indoors" payload).
Proof.
  destruct (process_tag clock_1000 [ITEM_INHUMI; 0] 0 world_init)
    as [[n w']|] eqn:Hpt; [|vm_compute in Hpt; discriminate Hpt].
  assert (n = 2) as -> by (vm_compute in Hpt; by injection Hpt as <- _).
  destruct (process_tag_value_published clock_1000 [ITEM_INHUMI; 0] 0
              world_init w' 2 ITEM_INHUMI
              (mkTag ITEM_INHUMI TAG_TYPE_BYTE_LEAVE_ALONE "humidity/indoors")
              Hpt)
    as (payload & Hne & Hlast & _);
    [lia|reflexivity|vm_compute; reflexivity|reflexivity|].
  exists w', payload. auto.
Defined.

(** * More on the signed 16-bit rule *)

Lemma high_bit_ge (b : Z) :
  is_byte b → negb (Z.land b 0x80 =? 0) = (128 <=? b).
Proof.
  intros [Hlo Hhi].
  assert (H : forallb (λ n, Bool.eqb (negb (Z.land (Z.of_nat n) 0x80 =? 0))
                                   (128 <=? Z.of_nat n))
                      (seq 0 256) = true) by (vm_compute; reflexivity).
  rewrite forallb_forall in H. specialize (H (Z.to_nat b)).
  rewrite Z2Nat.id in H by lia. apply Bool.eqb_prop, H, in_seq. lia.
Qed.

(** X10: the signed rule of the two temperature variants against 16-bit
    two's complement. With the high bit clear the two agree; with the high
    bit set the rule subtracts 0xFFFF where two's complement subtracts
    0x10000, so the decoded number is one more (a tenth of a degree) than
    the two's-complement value of the same two bytes. The results range
    over -32767 .. 32767, and both 00 00 and FF FF decode to zero. *)
Theorem read_short_signed_twos_complement (b1 b2 : Z) :
  is_byte b1 → is_byte b2 →
  read_short_signed b1 b2
  = twos_complement_16 b1 b2 + (if 128 <=? b1 then 1 else 0)
  ∧ -32767 ≤ read_short_signed b1 b2 ≤ 32767
  ∧ (read_short_signed b1 b2 = 0
     ↔ b1 = 0 ∧ b2 = 0 ∨ b1 = 0xFF ∧ b2 = 0xFF).
Proof.
  intros Hb1 Hb2. unfold read_short_signed, read_short, twos_complement_16.
  rewrite (high_bit_ge _ Hb1), Z.shiftl_mul_pow2 by lia.
  destruct Hb1 as [? ?], Hb2 as [? ?].
  destruct (Z.leb_spec 128 b1) as [Hhi|Hlo].
  - replace ((256 * b1 + b2 + 32768) `mod` 65536)
      with (256 * b1 + b2 - 32768)
      by (apply (Z.mod_unique _ _ 1); lia).
    repeat split; lia.
  - rewrite (Z.mod_small (256 * b1 + b2 + 32768)) by lia.
    repeat split; lia.
Qed.

Lemma read_short_signed_twos_complement_witness :
  read_short_signed 0xFF 0xF6 = twos_complement_16 0xFF 0xF6 + 1.
Proof.
  refine (proj1 (read_short_signed_twos_complement 0xFF 0xF6 _ _));
    unfold is_byte; lia.
Defined.

(** * Invariants of the parser *)

Lemma process_tag_reads (time : nat → Z) (buf : list Z) (p : Z)
    (w w' : world) (n : Z) :
  process_tag time buf p w = Some (n, w') → ∃ b0, rd buf p = Some b0.
Proof.
  unfold process_tag. destruct (rd buf p) as [b0|]; [by exists b0|done].
Qed.

(** A property of the world every call of [process_tag] keeps is kept by
    the loop. *)
Lemma parse_loop_invariant (time : nat → Z) (buf : list Z) (length : Z)
    (I : world → Prop) :
  (∀ p w n w', I w → process_tag time buf p w = Some (n, w') → I w') →
  ∀ (fuel : nat) (p readBytes : Z) (w w' : world),
    I w → parse_loop time fuel buf p readBytes length w = Done w' → I w'.
Proof.
  intros Hstep. induction fuel as [|fuel IH]; intros p rb w w' Hw;
    cbn [parse_loop]; destruct (rb <? length); try done;
    try (by intros [= <-]).
  destruct (process_tag time buf p w) as [[n w1]|] eqn:Hpt; [|done].
  pose proof (Hstep _ _ _ _ Hw Hpt) as Hw1.
  destruct (0 <? n); [by apply IH|by intros [= <-]].
Qed.

Lemma process_tag_time_calls (time : nat → Z) (buf : list Z) (p : Z)
    (w w' : world) (n : Z) :
  process_tag time buf p w = Some (n, w') →
  time_calls w' = time_calls w ∨ time_calls w' = S (time_calls w).
Proof.
  intros H. destruct (process_tag_reads _ _ _ _ _ _ H) as [b0 Hb0].
  destruct (process_tag_cases _ _ _ _ _ _ _ H Hb0)
    as [[_ ->]|(row & w1 & payload & _ & _ & Hdec & _ & Hw')]; [by left|].
  pose proof (decode_Payload _ _ _ _ _ _ _ Hdec) as (_ & _ & Htc & _).
  destruct Hw' as [[_ ->]|[_ ->]]; [right|left];
    cbn [time_calls set_tagData tick mqtt_publish emit]; by rewrite Htc.
Qed.

Lemma process_tag_stamped (time : nat → Z) (buf : list Z) (p : Z)
    (w w' : world) (n : Z) :
  (∀ i j : nat, (i ≤ j)%nat → time i ≤ time j) →
  stamped time w ∧ data_buffer_last_update w ≤ time (time_calls w) →
  process_tag time buf p w = Some (n, w') →
  stamped time w' ∧ data_buffer_last_update w' ≤ time (time_calls w').
Proof.
  intros Hmono [Hst Hup] H.
  destruct (process_tag_reads _ _ _ _ _ _ H) as [b0 Hb0].
  destruct (process_tag_cases _ _ _ _ _ _ _ H Hb0)
    as [[_ ->]|(row & w1 & payload & _ & _ & Hdec & _ & Hw')]; [done|].
  pose proof (decode_Payload _ _ _ _ _ _ _ Hdec) as (_ & Htbl & Htc & _).
  pose proof (decode_same_raw _ _ _ _ _ _ _ Hdec) as (_ & _ & Hlu).
  pose proof (Hmono (time_calls w) (S (time_calls w)) ltac:(lia)) as Hnext.
  destruct Hw' as [[_ ->]|[_ ->]]; unfold stamped in *;
    cbn [tagData time_calls data_buffer_last_update set_tagData tick
         mqtt_publish emit]; rewrite ?Htbl, Htc, Hlu.
  - split; [|lia]. apply Forall_insert; [|done].
    eapply Forall_impl; [exact Hst|]. intros r Hr. cbn beta in *. lia.
  - done.
Qed.

(** X11: under a clock that never goes back, no timestamp of the world is
    ever ahead of the clock: if every [lastMessageTimestamp] and
    [data_buffer_last_update] is at most the next clock reading before
    [parse_and_publish], the same holds after it. So the ages [publish_json]
    and [publish_raw] compute from them are never negative. *)
Theorem parse_and_publish_stamped (time : nat → Z) (buf : list Z)
    (w w' : world) :
  (∀ i j : nat, (i ≤ j)%nat → time i ≤ time j) →
  stamped time w →
  parse_and_publish time buf w = Done w' →
  stamped time w' ∧ data_buffer_last_update w' ≤ time (time_calls w').
Proof.
  intros Hmono Hst. unfold parse_and_publish.
  destruct (parse_prologue time buf w) as [[L w0]|] eqn:Hpro; [|done].
  intros Hloop.
  eapply (parse_loop_invariant time buf L
            (λ w, stamped time w
                  ∧ data_buffer_last_update w ≤ time (time_calls w)));
    [| |exact Hloop].
  - intros p w1 n w2 Hw1 Hpt. by eapply process_tag_stamped.
  - unfold parse_prologue in Hpro. bind_inv Hpro. injection Hpro as <- <-.
    pose proof (Hmono (time_calls w) (S (time_calls w)) ltac:(lia)) as Hnext.
    unfold stamped in *.
    cbn [tagData time_calls data_buffer_last_update set_data_buffer
         set_data_buffer_last_update tick].
    split; [|done].
    eapply Forall_impl; [exact Hst|]. intros r Hr. cbn beta in *. lia.
Qed.

Lemma parse_and_publish_stamped_witness :
  stamped clock_30 world_after_frame
  ∧ data_buffer_last_update world_after_frame
    ≤ clock_30 (time_calls world_after_frame).
Proof.
  apply (parse_and_publish_stamped clock_30 frame_unknown world_init).
  - intros i j Hij. unfold clock_30. lia.
  - apply (bool_decide_unpack _). vm_compute. reflexivity.
  - vm_compute. reflexivity.
Defined.

(** * More on [parse_and_publish] *)

Lemma copy_from_closed (n : nat) :
  ∀ (dst src : list Z) (k : nat), (k ≤ length dst)%nat →
    copy_from dst (Z.of_nat k) src n
    = if decide (n ≤ length src ∧ k + n ≤ length dst)%nat
      then Some (take k dst ++ take n src ++ drop (k + n) dst) else None.
Proof.
  induction n as [|n IH]; intros dst src k Hk.
  - rewrite decide_True by lia. rewrite Nat.add_0_r.
    change (take 0 src) with (@nil Z). cbn [app]. rewrite take_drop.
    by destruct src.
  - destruct src as [|x src]; cbn [copy_from];
      [by rewrite decide_False by (cbn [length]; lia)|].
    destruct (decide (k < length dst)%nat) as [Hlt|Hge].
    + rewrite wr_Some by lia. cbn [mbind option_bind]. rewrite Nat2Z.id.
      replace (Z.of_nat k + 1) with (Z.of_nat (S k)) by lia.
      rewrite IH by (rewrite length_insert; lia).
      rewrite length_insert. cbn [length].
      destruct (decide (n ≤ length src ∧ S k + n ≤ length dst)%nat);
        [rewrite decide_True by lia|by rewrite decide_False by lia].
      f_equal.
      rewrite (take_S_r _ _ x) by (apply list_lookup_insert_eq; lia).
      rewrite take_insert_ge by lia. rewrite drop_insert_lt by lia.
      rewrite <- app_assoc. cbn [take app].
      by replace (k + S n)%nat with (S k + n)%nat by lia.
    + unfold wr. rewrite decide_False by lia. cbn [mbind option_bind].
      by rewrite decide_False by lia.
Qed.

Lemma frame_length_reads (buf : list Z) (L : Z) :
  frame_length buf = Some L →
  ∃ b3 b4, rd buf 3 = Some b3 ∧ rd buf 4 = Some b4 ∧ L = Z.shiftl b3 8 + b4.
Proof.
  unfold frame_length. intros H. bind_inv H. injection H as <-. eauto.
Qed.

(** The prologue of [parse_and_publish] in closed form. *)
Lemma parse_prologue_closed (time : nat → Z) (buf : list Z) (w : world)
    (L : Z) :
  frame_length buf = Some L → 0 ≤ L →
  parse_prologue time buf w
  = if decide (5 + L ≤ Z.of_nat (length buf)
               ∧ L ≤ Z.of_nat (length (data_buffer w)))
    then Some (L, set_data_buffer_last_update (time (time_calls w))
                    (tick (set_data_buffer
                             (take (Z.to_nat L) (drop 5 buf)
                              ++ drop (Z.to_nat L) (data_buffer w)) L w)))
    else None.
Proof.
  intros (b3 & b4 & H3 & H4 & ->)%frame_length_reads HL.
  pose proof (rd_lt _ _ _ H4) as Hlen.
  unfold parse_prologue. rewrite H3, H4. cbn [mbind option_bind].
  change 0 with (Z.of_nat 0) at 1.
  rewrite copy_from_closed by lia. rewrite length_drop.
  set (L := Z.shiftl b3 8 + b4) in *.
  destruct (decide (5 + L ≤ _ ∧ L ≤ _)) as [Hin|Hout].
  - rewrite decide_True by lia. done.
  - rewrite decide_False by lia. done.
Qed.

(** X12: the prologue of [parse_and_publish] trusts the declared length
    [L]: it copies [L] bytes from offset 5 of the frame into [data_buffer],
    so it is undefined exactly when the frame buffer has fewer than [5 + L]
    bytes or [data_buffer] fewer than [L]. Otherwise the raw snapshot is
    those [L] bytes followed by what [data_buffer] held beyond them, its
    length is [L], its time is one clock reading, and the table and the
    outputs are not touched. *)
Theorem parse_prologue_spec (time : nat → Z) (buf : list Z) (w : world)
    (L : Z) :
  frame_length buf = Some L → 0 ≤ L →
  (parse_prologue time buf w = None
   ↔ Z.of_nat (length buf) < 5 + L ∨ Z.of_nat (length (data_buffer w)) < L)
  ∧ ∀ L' w0, parse_prologue time buf w = Some (L', w0) →
      L' = L ∧
      data_buffer w0 = take (Z.to_nat L) (drop 5 buf)
                       ++ drop (Z.to_nat L) (data_buffer w) ∧
      data_buffer_len w0 = L ∧
      data_buffer_last_update w0 = time (time_calls w) ∧
      time_calls w0 = S (time_calls w) ∧
      tagData w0 = tagData w ∧ events w0 = events w.
Proof.
  intros HL HL0. rewrite (parse_prologue_closed _ _ _ _ HL HL0).
  destruct (decide _) as [Hin|Hout].
  - split; [split; [done|lia]|]. intros L' w0 [= <- <-]. by repeat split.
  - split; [split; [lia|done]|]. by intros L' w0 ?.
Qed.

Lemma parse_prologue_spec_witness :
  parse_prologue clock_1000 frame_6 world_init = None
  ↔ Z.of_nat (length frame_6) < 5 + 6
    ∨ Z.of_nat (length (data_buffer world_init)) < 6.
Proof.
  apply (parse_prologue_spec clock_1000 frame_6 world_init 6);
    [reflexivity|lia].
Defined.

Lemma process_tag_same_raw (time : nat → Z) (buf : list Z) (p : Z)
    (w w' : world) (n : Z) :
  process_tag time buf p w = Some (n, w') → same_raw w w'.
Proof.
  intros H. destruct (process_tag_reads _ _ _ _ _ _ H) as [b0 Hb0].
  destruct (process_tag_cases _ _ _ _ _ _ _ H Hb0)
    as [[_ ->]|(row & w1 & payload & _ & _ & Hdec & _ & Hw')]; [done|].
  pose proof (decode_same_raw _ _ _ _ _ _ _ Hdec) as Hraw.
  destruct Hw' as [[_ ->]|[_ ->]]; exact Hraw.
Qed.

Lemma parse_loop_same_raw (time : nat → Z) (buf : list Z) (length : Z)
    (fuel : nat) (p readBytes : Z) (w w' : world) :
  parse_loop time fuel buf p readBytes length w = Done w' → same_raw w w'.
Proof.
  apply (parse_loop_invariant time buf length (λ w', same_raw w w'));
    [|done].
  intros q w1 n w2 (H1 & H2 & H3) Hpt.
  apply process_tag_same_raw in Hpt as (H1' & H2' & H3').
  unfold same_raw. rewrite H1', H2', H3'. done.
Qed.

Lemma frame_length_reply_frame (cmd : Z) (payload : list Z) (cs : Z)
    (rest : list Z) :
  frame_length (reply_frame cmd payload cs rest) = Some (reply_size payload).
Proof.
  unfold frame_length, reply_frame. cbn [app].
  change (rd (255 :: 255 :: cmd :: ?a :: ?b :: ?l) 3) with (Some a).
  change (rd (255 :: 255 :: cmd :: ?a :: ?b :: ?l) 4) with (Some b).
  cbn [mbind option_bind]. f_equal.
  rewrite Z.shiftl_mul_pow2 by lia. change (2 ^ 8) with 256.
  pose proof (Z.div_mod (reply_size payload) 256). lia.
Qed.

(** X13: what a raw request gets after a reply frame has been parsed. The
    declared size of a reply counts command, size field and checksum
    besides the payload, and [parse_and_publish] copies that many bytes
    from the start of the payload; so, asked within the expiration time,
    [publish_raw] publishes on [all_data/raw] the payload, the checksum
    byte of the frame and the three bytes that follow the frame in the
    receive buffer. *)
Theorem publish_raw_after_reply (time : nat → Z) (cmd : Z)
    (payload : list Z) (cs : Z) (rest : list Z) (w w' : world) :
  (3 ≤ length rest)%nat →
  reply_size payload ≤ Z.of_nat (length (data_buffer w)) →
  parse_and_publish time (reply_frame cmd payload cs rest) w = Done w' →
  time (time_calls w') - time (time_calls w) ≤ MESSAGE_EXPIRATION_SECONDS →
  publish_raw time w'
  = Some (emit (Publish TOPIC_ALL_DATA_RAW
                  (bytes_string (payload ++ cs :: take 3 rest))) (tick w')).
Proof.
  intros Hrest Hroom Hparse Hfresh.
  set (buf := reply_frame cmd payload cs rest) in *.
  set (L := reply_size payload) in *.
  assert (HL : L = 4 + Z.of_nat (length payload)) by done.
  unfold parse_and_publish in Hparse.
  rewrite (parse_prologue_closed time buf w L) in Hparse
    by (apply frame_length_reply_frame || lia).
  assert (Hlen : length buf = (5 + length payload + S (length rest))%nat).
  { unfold buf, reply_frame. rewrite !length_app. cbn [length]. lia. }
  rewrite decide_True in Hparse by lia.
  apply parse_loop_same_raw in Hparse as (Hbuf & Hblen & Hupd).
  cbn [data_buffer data_buffer_len data_buffer_last_update set_data_buffer
       set_data_buffer_last_update tick] in Hbuf, Hblen, Hupd.
  assert (Hsnap : take (Z.to_nat L) (drop 5 buf)
                  = payload ++ cs :: take 3 rest).
  { change (take (Z.to_nat L) (payload ++ cs :: rest)
            = payload ++ cs :: take 3 rest).
    replace (Z.to_nat L) with (length payload + 4)%nat by lia.
    rewrite take_app_add. done. }
  rewrite Hsnap in Hbuf.
  assert (Hsl : length (payload ++ cs :: take 3 rest) = Z.to_nat L).
  { rewrite length_app. cbn [length]. rewrite length_take. lia. }
  unfold publish_raw.
  cbn [data_buffer data_buffer_len data_buffer_last_update time_calls tick].
  rewrite Hupd, Hblen, Hbuf.
  destruct (Z.ltb_spec MESSAGE_EXPIRATION_SECONDS
              (time (time_calls w') - time (time_calls w))) as [?|_]; [lia|].
  destruct (Z.eqb_spec L 0) as [?|_]; [lia|].
  unfold mqtt_publish_data.
  rewrite decide_True
    by (rewrite length_app, Hsl, length_drop; lia).
  by rewrite (take_app_length' _ _ _ (eq_sym Hsl)).
Qed.

Lemma publish_raw_after_reply_witness :
  ∃ w', parse_and_publish clock_1000 frame_checksum_tag world_init = Done w' ∧
        publish_raw clock_1000 w'
        = Some (emit (Publish TOPIC_ALL_DATA_RAW
                        (bytes_string [0x01; 0x00; 0x0A; 0x39; 0xFF; 0xF6; 0]))
                     (tick w')).
Proof.
  destruct (parse_and_publish clock_1000 frame_checksum_tag world_init)
    as [w'| |] eqn:Hparse;
    [|vm_compute in Hparse; discriminate Hparse
     |vm_compute in Hparse; discriminate Hparse].
  exists w'. split; [done|].
  apply (publish_raw_after_reply clock_1000 0x27 [0x01; 0x00; 0x0A] 0x39
           [0xFF; 0xF6; 0; 0; 0; 0] world_init w').
  - cbn [length]. lia.
  - vm_compute. discriminate.
  - exact Hparse.
  - assert (Htc : time_calls w' = 3%nat)
      by (vm_compute in Hparse; by injection Hparse as <-).
    rewrite Htc. vm_compute. discriminate.
Defined.

(** The last call of [process_tag] of a parse: one that ends the loop, by
    its return value or by reaching the declared length. *)
Lemma parse_loop_last (time : nat → Z) (buf : list Z) (length : Z)
    (s : parse_state) (p readBytes : Z) (w1 w2 : world) (n : Z) (fuel : nat) :
  decodes time buf length s (p, readBytes, w1) →
  readBytes < length →
  process_tag time buf p w1 = Some (n, w2) →
  n ≤ 0 ∨ length ≤ readBytes + n →
  (Z.to_nat (length - s.1.2) ≤ fuel)%nat →
  parse_loop time fuel buf s.1.1 s.1.2 length s.2 = Done w2.
Proof.
  intros Hdec Hrb Hpt Hn Hfuel.
  rewrite (parse_loop_decodes _ _ _ _ _ Hdec fuel
             (S (Z.to_nat (length - readBytes)))) by (simpl; lia).
  cbn [fst snd parse_loop].
  destruct (Z.ltb_spec readBytes length) as [_|?]; [|lia].
  rewrite Hpt. destruct (Z.ltb_spec 0 n) as [Hpos|_]; [|done].
  destruct (Z.to_nat (length - readBytes)); cbn [parse_loop];
    destruct (Z.ltb_spec (readBytes + n) length); done || lia.
Qed.

(** X14: the parser takes the checksum byte of a frame for a tag. The loop
    runs while [readBytes < length], with [readBytes] starting at 3 for a
    cursor at offset 5, and the declared length counts the checksum byte;
    so when the tags fill the payload exactly, the loop is entered once
    more with the cursor on the checksum byte [cs]. The parse then ends
    with whatever [process_tag] does there: nothing when [cs] is no tag id,
    and otherwise a reading made of the bytes that follow the frame in the
    receive buffer. *)
Theorem parse_takes_checksum_for_a_tag (time : nat → Z) (cmd : Z)
    (payload : list Z) (cs : Z) (rest : list Z) (w w0 w1 : world) :
  parse_prologue time (reply_frame cmd payload cs rest) w
  = Some (reply_size payload, w0) →
  decodes time (reply_frame cmd payload cs rest) (reply_size payload)
          (5, 3, w0)
          (5 + Z.of_nat (length payload), 3 + Z.of_nat (length payload), w1) →
  rd (reply_frame cmd payload cs rest) (5 + Z.of_nat (length payload))
  = Some cs
  ∧ parse_and_publish time (reply_frame cmd payload cs rest) w
    = match process_tag time (reply_frame cmd payload cs rest)
                        (5 + Z.of_nat (length payload)) w1 with
      | Some (_, w2) => Done w2
      | None => Undefined
      end.
Proof.
  intros Hpro Hdec. split.
  { unfold reply_frame.
    replace (5 + Z.of_nat (length payload))
      with (Z.of_nat (length ([255; 255; cmd; reply_size payload / 256;
                               reply_size payload `mod` 256] ++ payload)))
      by (rewrite length_app; cbn [length]; lia).
    rewrite app_assoc, rd_nat, lookup_app_r by lia.
    by rewrite Nat.sub_diag. }
  unfold parse_and_publish. rewrite Hpro.
  assert (HL : reply_size payload = 4 + Z.of_nat (length payload)) by done.
  destruct (process_tag time _ (5 + Z.of_nat (length payload)) w1)
    as [[n w2]|] eqn:Hpt.
  - apply (parse_loop_last time _ _ (5, 3, w0)
             (5 + Z.of_nat (length payload)) (3 + Z.of_nat (length payload))
             w1 w2 n); try done; [lia| |simpl; lia].
    apply process_tag_chunk in Hpt as [->|(ty & -> & Hty)]; lia.
  - rewrite (parse_loop_decodes _ _ _ _ _ Hdec _ 1%nat) by (simpl; lia).
    cbn [fst snd parse_loop].
    destruct (Z.ltb_spec (3 + Z.of_nat (length payload)) (reply_size payload))
      as [_|?]; [|lia].
    by rewrite Hpt.
Qed.

Lemma parse_takes_checksum_for_a_tag_witness :
  ∃ w2, parse_and_publish clock_1000 frame_checksum_tag world_init = Done w2 ∧
        events w2 = [Publish "temperature/indoors" "1.0";
                     Publish "temperature/soil_8" "-0.9"].
Proof.
  edestruct (parse_takes_checksum_for_a_tag clock_1000 0x27 [0x01; 0x00; 0x0A]
               0x39 [0xFF; 0xF6; 0; 0; 0; 0] world_init) as [_ H].
  - vm_compute. reflexivity.
  - eapply decodes_cons; [vm_compute; reflexivity|vm_compute; reflexivity
                          |lia|].
    apply decodes_nil.
  - eexists. split; [exact H|]. vm_compute. reflexivity.
Defined.

Lemma decodes_registry (time : nat → Z) (buf : list Z) (length : Z)
    (s s' : parse_state) :
  decodes time buf length s s' →
  registry (tagData s'.2) = registry (tagData s.2).
Proof.
  induction 1 as [|p rb w n w1 s' Hrb Hpt Hn Hrest IH]; [done|].
  simpl in *. rewrite IH. by eapply process_tag_registry.
Qed.

Lemma process_tag_aqi (time : nat → Z) (buf : list Z) (p : Z) (w : world) :
  registry (tagData w) = registry tagData_init →
  rd buf p = Some ITEM_PM25_AQI →
  process_tag time buf p w = Some (-1, w).
Proof.
  intros Hreg Ht. unfold process_tag. rewrite Ht. cbn [mbind option_bind].
  rewrite (tag_index_registry _ _ _ Hreg).
  assert (Hti : tag_index tagData_init ITEM_PM25_AQI = 98)
    by (vm_compute; reflexivity).
  rewrite Hti. change (0 <=? 98) with true. cbv iota.
  assert (Hrow : registry (tagData w) !! 98%nat
                 = Some (ITEM_PM25_AQI, TAG_TYPE_PM25_AQI, "aqi"))
    by (rewrite Hreg; vm_compute; reflexivity).
  unfold registry in Hrow. rewrite list_lookup_fmap in Hrow.
  change (rd (tagData w) 98) with (tagData w !! 98%nat).
  destruct (tagData w !! 98%nat) as [row|]; [|done].
  injection Hrow as _ Hty _. cbn [mbind option_bind]. by rewrite Hty.
Qed.

(** X15: the AQI record (tag 0x71) ends the parse although the registry
    knows it: its data width is declared 0 and [process_tag] returns -1 for
    it, so in a world with the registry of [tagData] the parser, having
    decoded the tags before it, returns there and drops every tag that
    follows in the frame. *)
Theorem parse_stops_at_aqi_tag (time : nat → Z) (buf : list Z)
    (w w0 w1 : world) (length p readBytes : Z) :
  registry (tagData w) = registry tagData_init →
  parse_prologue time buf w = Some (length, w0) →
  decodes time buf length (5, 3, w0) (p, readBytes, w1) →
  readBytes < length →
  rd buf p = Some ITEM_PM25_AQI →
  parse_and_publish time buf w = Done w1.
Proof.
  intros Hreg Hpro Hdec Hrb Ht.
  assert (Hreg1 : registry (tagData w1) = registry tagData_init).
  { pose proof (decodes_registry _ _ _ _ _ Hdec) as Hreg1. simpl in Hreg1.
    rewrite Hreg1. unfold parse_prologue in Hpro. bind_inv Hpro.
    by injection Hpro as _ <-. }
  unfold parse_and_publish. rewrite Hpro.
  apply (parse_loop_last time buf length (5, 3, w0) p readBytes w1 w1 (-1));
    [done|done|by apply process_tag_aqi|lia|simpl; lia].
Qed.

Lemma parse_stops_at_aqi_tag_witness :
  ∃ w1, parse_and_publish clock_1000 frame_aqi world_init = Done w1 ∧
        events w1 = [Publish "temperature/indoors" "1.0"].
Proof.
  edestruct (parse_stops_at_aqi_tag clock_1000 frame_aqi world_init) as [].
  - reflexivity.
  - vm_compute. reflexivity.
  - eapply decodes_cons; [vm_compute; reflexivity|vm_compute; reflexivity
                          |lia|].
    apply decodes_nil.
  - vm_compute. reflexivity.
  - reflexivity.
  - eexists. split; [reflexivity|]. vm_compute. reflexivity.
Defined.

(** * The dispatch of a reply in [main] *)

(** X16: validation does not make a frame safe to parse. In the 1024
    bytes of [RECEIVE_BUFFER] a frame that [check_receive_buffer] accepts
    can declare a length of up to 1022, but [parse_and_publish] copies
    [length] bytes from offset 5: for an accepted frame that declares more
    than 1019 the copy reads past the end of the receive buffer. *)
Theorem main_switch_oversize (time : nat → Z) (buf : list Z) (w : world)
    (L : Z) :
  length buf = RECEIVE_BUFFER_SIZE →
  check_receive_buffer buf = Some RECEIVE_BUFFER_OK →
  frame_length buf = Some L →
  1019 < L →
  L ≤ 1022 ∧ main_switch time buf w = Undefined.
Proof.
  intros Hlen Hok HL Hbig. unfold RECEIVE_BUFFER_SIZE in Hlen. split.
  - apply check_receive_buffer_ok_inv in Hok
      as (L' & s & _ & _ & HL' & _ & Hc).
    rewrite HL in HL'. injection HL' as <-.
    apply rd_lt in Hc. lia.
  - unfold main_switch. rewrite Hok.
    change (RECEIVE_BUFFER_OK =? RECEIVE_BUFFER_OK) with true. cbv iota.
    unfold parse_and_publish.
    rewrite (parse_prologue_closed time buf w L HL) by lia.
    by rewrite decide_False by lia.
Qed.

Lemma main_switch_oversize_witness :
  1020 ≤ 1022 ∧ main_switch clock_1000 frame_oversize world_init = Undefined.
Proof.
  apply (main_switch_oversize clock_1000 frame_oversize world_init 1020).
  - reflexivity.
  - vm_compute. reflexivity.
  - vm_compute. reflexivity.
  - lia.
Defined.

(** X17: a reply that [check_receive_buffer] refuses is dropped: the
    dispatch in [main] writes one line to [stderr] and nothing else, so the
    cache, the raw snapshot and the clock are as before and nothing is
    published. *)
Theorem main_switch_invalid_frame (time : nat → Z) (buf : list Z) (w : world)
    (rc : Z) :
  (2 ≤ length buf)%nat →
  check_receive_buffer buf = Some rc →
  rc ≠ RECEIVE_BUFFER_OK →
  ∃ msg, main_switch time buf w = Done (emit (Stderr msg) w).
Proof.
  intros Hlen Hrc Hne. unfold main_switch. rewrite Hrc.
  destruct (rd_is_Some buf 0 ltac:(lia)) as [b0 H0].
  destruct (rd_is_Some buf 1 ltac:(lia)) as [b1 H1].
  rewrite H0, H1.
  assert (Hcodes : rc = RECEIVE_BUFFER_OK ∨ rc = INVALID_HEADER
                   ∨ rc = INVALID_CHECKSUM).
  { revert Hrc. unfold check_receive_buffer. rewrite H0, H1.
    cbn [mbind option_bind].
    destruct (negb (b0 =? 255)); [intros [= <-]; auto|].
    destruct (negb (b1 =? 255)); [intros [= <-]; auto|].
    destruct (frame_length buf) as [L|]; cbn [mbind option_bind]; [|done].
    destruct (checksum_loop buf L) as [s|]; cbn [mbind option_bind]; [|done].
    destruct (rd buf (L + 1)) as [c|]; cbn [mbind option_bind]; [|done].
    destruct (negb (s `mod` 256 =? c)); intros [= <-]; auto. }
  destruct Hcodes as [->|[->| ->]]; [done| |]; eexists; reflexivity.
Qed.

Lemma main_switch_invalid_frame_witness :
  ∃ msg, main_switch clock_1000 (<[5%nat := 5]> frame_6) world_init
         = Done (emit (Stderr msg) world_init).
Proof.
  apply (main_switch_invalid_frame clock_1000 (<[5%nat := 5]> frame_6)
           world_init INVALID_CHECKSUM).
  - cbn. lia.
  - reflexivity.
  - discriminate.
Defined.

(** * More on the snapshot *)

Lemma length_append (a b : string) :
  String.length (a +:+ b) = (String.length a + String.length b)%nat.
Proof.
  induction a as [|x a IH]; [done|].
  change (S (String.length (a +:+ b)) = S (String.length a + String.length b)).
  by rewrite IH.
Qed.

Lemma fits_lt (cap : nat) (s s' : string) :
  fits cap s = Some s' → (String.length s < cap)%nat.
Proof. unfold fits. by destruct (decide _). Qed.

Lemma fits_fit (cap : nat) (s : string) :
  (String.length s < cap)%nat → fits cap s = Some s.
Proof. intros. unfold fits. by rewrite decide_True. Qed.

Lemma add_entries_length (first : bool) (buf : string) (entries : list string) :
  (String.length buf ≤ String.length (add_entries first buf entries))%nat.
Proof.
  destruct entries as [|e entries]; [done|]. cbn [add_entries].
  rewrite add_entries_false, !length_append.
  destruct first; rewrite ?length_append; lia.
Qed.

(** What a defined call of [publish_json] has rendered. *)
Lemma publish_json_Some_inv (time : nat → Z) (w w' : world) :
  publish_json time w = Some w' →
  ∃ entries,
    mapM json_entry (filter (is_fresh (time (time_calls w)))
                            (reverse (tagData w))) = Some entries ∧
    (String.length (render_snapshot entries) < 1024)%nat.
Proof.
  unfold publish_json. cbn [tagData tick]. intros H.
  destruct (json_loop _ _ _ _ _) as [r|] eqn:Hloop;
    cbn [mbind option_bind] in H; [|done].
  apply json_loop_entries in Hloop as (entries & Hentries & ->).
  rewrite firstn_all in Hentries. exists entries. split; [done|].
  cbn [fst snd] in H.
  destruct (fits 1024 _) as [json_buffer|] eqn:Hfit;
    cbn [mbind option_bind] in H; [|done].
  apply fits_lt in Hfit.
  destruct entries as [|e entries]; [vm_compute; lia|].
  by rewrite <- add_entries_render.
Qed.

Lemma json_loop_defined (tbl : list TagSpec) (now : Z) :
  ∀ (n : nat) (json_buffer : string) (firstTopic : bool) entries,
    (n ≤ length tbl)%nat →
    (∀ row, row ∈ take n tbl → lastMessage row ≠ []) →
    mapM json_entry (filter (is_fresh now) (reverse (take n tbl)))
    = Some entries →
    (String.length (add_entries firstTopic json_buffer entries) < 1024)%nat →
    json_loop tbl now n json_buffer firstTopic
    = Some (add_entries firstTopic json_buffer entries,
            match entries with [] => firstTopic | _ :: _ => false end).
Proof.
  induction n as [|n IH]; intros buf first entries Hn Harr Hmap Hlen.
  - rewrite take_0 in Hmap. injection Hmap as <-. done.
  - cbn [json_loop].
    destruct (lookup_lt_is_Some_2 tbl n ltac:(lia)) as [row Hrow].
    rewrite Hrow. cbn [mbind option_bind].
    rewrite (take_S_r _ _ _ Hrow) in Hmap, Harr.
    rewrite reverse_snoc, filter_cons in Hmap.
    rewrite json_includes_total
      by (apply Harr, elem_of_app; right; by apply list_elem_of_singleton).
    cbn [mbind option_bind].
    assert (Harr' : ∀ row', row' ∈ take n tbl → lastMessage row' ≠ [])
      by (intros row' Hin; apply Harr, elem_of_app; by left).
    destruct (decide (is_fresh now row)) as [Hf|Hf].
    + rewrite bool_decide_eq_true_2 by done.
      cbn [mapM] in Hmap.
      destruct (json_entry row) as [e|] eqn:He;
        cbn [mbind option_bind] in Hmap; [|done].
      destruct (mapM json_entry _) as [entries'|] eqn:Hmap';
        cbn [mbind option_bind mret option_ret] in Hmap; [|done].
      injection Hmap as <-. cbn [add_entries] in Hlen.
      pose proof (add_entries_length false
        ((if first then buf else buf +:+ "," +:+ LF) +:+ e) entries') as Hle.
      rewrite length_append in Hle.
      assert (Hbuf1 : (if first then Some buf
                       else fits 1024 (buf +:+ "," +:+ LF))
                      = Some (if first then buf else buf +:+ "," +:+ LF)).
      { destruct first; [done|]. apply fits_fit. lia. }
      rewrite Hbuf1. cbn [mbind option_bind].
      rewrite fits_fit by (rewrite length_append; lia).
      cbn [mbind option_bind].
      rewrite (IH _ false entries') by (done || lia).
      cbn [add_entries]. by destruct entries'.
    + rewrite bool_decide_eq_false_2 by done. apply IH; done || lia.
Qed.

(** X18: when a snapshot request is safe. On a table whose [lastMessage]
    arrays are not empty, [publish_json] is defined exactly when every fresh
    row renders to an entry (its [lastMessage] has a terminator and the
    entry fits the 128 bytes of [strbuf]) and the whole snapshot, braces
    and separators included, is shorter than the 1024 bytes of
    [json_buffer]. With more fresh rows than that the [strcat] calls write
    past the end of [json_buffer]. *)
Theorem publish_json_defined (time : nat → Z) (w : world) :
  Forall (λ row, lastMessage row ≠ []) (tagData w) →
  is_Some (publish_json time w)
  ↔ ∃ entries,
      mapM json_entry (filter (is_fresh (time (time_calls w)))
                              (reverse (tagData w))) = Some entries ∧
      (String.length (render_snapshot entries) < 1024)%nat.
Proof.
  intros Harr. split.
  - intros [w' H]. by eapply publish_json_Some_inv.
  - intros (entries & Hmap & Hlen).
    assert (Hadd : (String.length (add_entries true ("{" +:+ LF) entries)
                    < 1024)%nat).
    { destruct entries as [|e entries]; [vm_compute; lia|].
      rewrite <- add_entries_render, !length_append in Hlen. lia. }
    unfold publish_json. cbn [tagData tick].
    rewrite (json_loop_defined _ _ _ _ _ entries); [|done| | |done].
    + cbn [mbind option_bind fst snd].
      assert (Hfit : fits 1024 (add_entries true ("{" +:+ LF) entries
                                +:+ LF +:+ "}")
                     = Some (add_entries true ("{" +:+ LF) entries
                             +:+ LF +:+ "}")).
      { apply fits_fit. destruct entries as [|e entries]; [vm_compute; lia|].
        by rewrite add_entries_render. }
      rewrite Hfit. cbn [mbind option_bind]. by destruct entries.
    + intros row Hrow. rewrite firstn_all in Hrow.
      by eapply (proj1 (Forall_forall _ _) Harr).
    + by rewrite firstn_all.
Qed.

Lemma publish_json_defined_witness :
  is_Some (publish_json clock_30 world_after_frame)
  ↔ ∃ entries,
      mapM json_entry
           (filter (is_fresh (clock_30 (time_calls world_after_frame)))
                   (reverse (tagData world_after_frame))) = Some entries ∧
      (String.length (render_snapshot entries) < 1024)%nat.
Proof.
  apply (publish_json_defined clock_30 world_after_frame).
  apply (bool_decide_unpack _). vm_compute. reflexivity.
Defined.

(** X19: [json_buffer] overflows when too much is fresh. If the fresh rows
    render to entries whose snapshot, braces and separators included, has
    1024 characters or more, [publish_json] is undefined: a [strcat] writes
    past the 1024 bytes of [json_buffer]. One reply of a station with
    eight temperature and humidity sensors and sixteen soil sensors is
    enough. *)
Theorem publish_json_overflow (time : nat → Z) (w : world)
    (entries : list string) :
  mapM json_entry (filter (is_fresh (time (time_calls w)))
                          (reverse (tagData w))) = Some entries →
  (1024 ≤ String.length (render_snapshot entries))%nat →
  publish_json time w = None.
Proof.
  intros Hmap Hlen.
  destruct (publish_json time w) as [w'|] eqn:H; [|done].
  apply publish_json_Some_inv in H as (entries' & Hmap' & Hlen').
  rewrite Hmap in Hmap'. injection Hmap' as <-. lia.
Qed.

Lemma publish_json_overflow_witness :
  publish_json clock_still world_full_station = None.
Proof.
  eapply (publish_json_overflow clock_still world_full_station).
  - vm_compute. reflexivity.
  - apply Nat.leb_le. vm_compute. reflexivity.
Defined.

(** X20: a snapshot request after a bitmask tag is undefined. The decoder
    publishes 128 characters for the 16-byte bitmask and [strncpy] leaves
    the first 32 of them in [lastMessage[32]] with no terminator; as long
    as that row is fresh (the next clock reading is within the expiration
    time), [publish_json] prints the row with [%s] and reads past the end
    of the array. *)
Theorem publish_json_after_bitmask (time : nat → Z) (buf : list Z) (p : Z)
    (w w' : world) (n b0 : Z) (row : TagSpec) :
  process_tag time buf p w = Some (n, w') →
  rd buf p = Some b0 →
  rd (tagData w) (tag_index (tagData w) b0) = Some row →
  type row = TAG_TYPE_16_BYTES_BITMASK →
  time (S (time_calls w)) - time (time_calls w) ≤ MESSAGE_EXPIRATION_SECONDS →
  publish_json time w' = None.
Proof.
  intros H Hb0 Hrow Hty Hfresh.
  destruct (process_tag_cases _ _ _ _ _ _ _ H Hb0)
    as [[-> ->]|(row0 & w1 & payload & Hti & Hrow0 & Hdec & _ & Hw')].
  { exfalso. pose proof (rd_lt _ _ _ Hrow) as Hlt. unfold process_tag in H.
    rewrite Hb0 in H. cbn [mbind option_bind] in H.
    destruct (Z.leb_spec 0 (tag_index (tagData w) b0)) as [_|?]; [|lia].
    rewrite Hrow in H. cbn [mbind option_bind] in H. rewrite Hty in H.
    destruct (decode buf p (topic row) TAG_TYPE_16_BYTES_BITMASK w)
      as [[w1 payload|rc]|] eqn:Hdec; cbn [mbind option_bind] in H;
      [|by apply decode_Return in Hdec as [? _]|done].
    pose proof (decode_Payload _ _ _ _ _ _ _ Hdec) as (Hlen & _).
    destruct (nonempty payload); bind_inv H; injection H as H _; lia. }
  rewrite Hrow in Hrow0. injection Hrow0 as <-. rewrite Hty in Hdec.
  pose proof (decode_Payload _ _ _ _ _ _ _ Hdec) as (_ & Htbl & Htc & _).
  pose proof (decode_bitmask_inv _ _ _ _ _ _ Hdec) as (data & Hlen & ->).
  destruct Hw' as [[_ ->]|[Hempty _]];
    [|by destruct data as [|x data]].
  set (payload := string_of_list_ascii (data ≫= byte_bits)) in *.
  set (ti := tag_index (tagData w) b0) in *.
  set (row' := record payload (time (time_calls w)) row).
  assert (Hmsg : lastMessage row' = take 32 (data ≫= byte_bits)).
  { cbn [row' record lastMessage]. unfold MQTT_MESSAGE_MAXLEN.
    rewrite strncpy_long
      by (unfold payload; rewrite string_of_list_ascii_length, bits_length; lia).
    unfold payload. by rewrite list_ascii_of_string_of_list_ascii. }
  assert (Hnn : Forall (λ c, c ≠ NUL) (lastMessage row'))
    by (rewrite Hmsg; apply Forall_take, bits_not_NUL).
  destruct (publish_json time _) as [w''|] eqn:Hpub; [exfalso|done].
  apply publish_json_Some_inv in Hpub as (entries & Hmap & _).
  cbn [tagData time_calls set_tagData tick mqtt_publish emit] in Hmap.
  rewrite Htc in Hmap.
  apply mapM_Some_1 in Hmap.
  assert (Hin : row' ∈ filter (is_fresh (time (S (time_calls w))))
                         (reverse (<[Z.to_nat ti := row']> (tagData w)))).
  { apply list_elem_of_filter. split.
    - split; [|by cbn [row' record lastMessageTimestamp]].
      unfold has_value. destruct (lastMessage row') as [|c a] eqn:Hc.
      + apply (f_equal length) in Hmsg.
        rewrite ?Hc, length_take, bits_length in Hmsg.
        cbn [length] in Hmsg. lia.
      + rewrite ?Hc in Hnn. by inversion Hnn.
    - apply elem_of_reverse, (list_elem_of_lookup_2 _ (Z.to_nat ti)).
      apply list_lookup_insert_eq. apply rd_lt in Hrow. lia. }
  apply list_elem_of_lookup in Hin as [i Hi].
  destruct (Forall2_lookup_l _ _ _ _ _ Hmap Hi) as (e & _ & He).
  unfold json_entry in He. by rewrite (c_str_unterminated _ Hnn) in He.
Qed.

Lemma publish_json_after_bitmask_witness :
  publish_json clock_1000 world_after_bitmask = None.
Proof.
  apply (publish_json_after_bitmask clock_1000
           (ITEM_LOWBATT :: 0x01 :: replicate 15 0) 0 world_init
           world_after_bitmask 17 ITEM_LOWBATT
           (mkTag ITEM_LOWBATT TAG_TYPE_16_BYTES_BITMASK
                  "all_sensor_low_battery")).
  - vm_compute. reflexivity.
  - reflexivity.
  - vm_compute. reflexivity.
  - reflexivity.
  - vm_compute. discriminate.
Defined.

(** * Requests *)

Lemma strn_read_spec (n : nat) :
  ∀ (src : list ascii) (s : string),
    strn_read src n = Some s →
    Forall (λ c, c ≠ NUL) (list_ascii_of_string s) ∧ (String.length s ≤ n)%nat.
Proof.
  induction n as [|n IH]; intros src s.
  - destruct src; cbn [strn_read]; intros [= <-]; (split; [constructor|done]).
  - destruct src as [|c src]; cbn [strn_read]; [done|].
    destruct (decide (c = NUL)) as [->|Hc].
    + intros [= <-]. split; [constructor|cbn; lia].
    + destruct (strn_read src n) as [s'|] eqn:Hs'; [|done].
      intros [= <-]. destruct (IH _ _ Hs') as [Hnn Hlen].
      split; [by constructor|cbn; lia].
Qed.

(** The string [on_message] compares: what [payload] reads as after the
    [strncpy] and the terminator written at [payloadlen]. *)
Lemma on_message_payload (s : string) (n : nat) :
  (n < 128)%nat → (String.length s ≤ n)%nat →
  Forall (λ c, c ≠ NUL) (list_ascii_of_string s) →
  (payload ← write_cells (replicate 128 NUL) (strncpy s n);
   payload ← wr payload (Z.of_nat n) NUL;
   c_str payload) = Some s.
Proof.
  intros Hn Hlen Hnn. unfold write_cells.
  rewrite strncpy_length, length_replicate, decide_True by lia.
  cbn [mbind option_bind].
  rewrite wr_Some
    by (rewrite length_app, strncpy_length, length_drop, length_replicate; lia).
  cbn [mbind option_bind]. rewrite Nat2Z.id.
  set (l := <[n := NUL]> (strncpy s n ++ drop n (replicate 128 NUL))).
  pose proof (list_ascii_of_string_length s) as Hk.
  assert (Htake : take (String.length s) l = list_ascii_of_string s).
  { unfold l. rewrite take_insert_ge by lia.
    rewrite take_app_le by (rewrite strncpy_length; lia).
    unfold strncpy. rewrite take_take, Nat.min_l by lia.
    by rewrite take_app_length'. }
  assert (Hat : l !! String.length s = Some NUL).
  { unfold l. destruct (decide (String.length s = n)) as [->|Hne].
    - apply list_lookup_insert_eq.
      rewrite length_app, strncpy_length, length_drop, length_replicate. lia.
    - rewrite list_lookup_insert_ne by lia.
      rewrite lookup_app_l by (rewrite strncpy_length; lia).
      unfold strncpy. rewrite lookup_take_lt by lia.
      rewrite lookup_app_r by lia.
      apply lookup_replicate_2. lia. }
  rewrite <- (take_drop_middle l _ _ Hat), Htake, c_str_app by done.
  by rewrite string_of_list_ascii_of_string.
Qed.

(** X21: what [on_message] does with a request whose payload is shorter
    than the 128 bytes of [payload]. The request is the bytes of the
    message payload before its first zero byte, [payloadlen] at most; on
    the topic [<base>/all_data/request] the request "json" runs
    [publish_json], "raw" runs [publish_raw], and anything else only writes
    "Data type not supported" to [stderr]; on another topic the message is
    only reported as having no handler. *)
Theorem on_message_dispatch (time : nat → Z) (mqtt_base_topic : string)
    (message : mosquitto_message) (w : world) (s : string) :
  0 ≤ message_payloadlen message < 128 →
  strn_read (message_payload message)
            (Z.to_nat (message_payloadlen message)) = Some s →
  on_message time mqtt_base_topic message w
  = if decide (message_topic message
               = snprintf 128 (mqtt_base_topic +:+ "/" +:+ TOPIC_ALL_DATA_REQUEST))
    then if decide (s = "json") then publish_json time w
         else if decide (s = "raw") then publish_raw time w
         else Some (emit (Stderr ("Data type not supported for message "
                                  +:+ message_topic message +:+ ": " +:+ s
                                  +:+ LF)) w)
    else Some (emit (Stderr ("Missing topic handler for subscribed topic: "
                             +:+ message_topic message +:+ LF)) w).
Proof.
  intros Hn Hs. unfold on_message.
  rewrite decide_True by lia. rewrite Hs. cbn [mbind option_bind].
  destruct (strn_read_spec _ _ _ Hs) as [Hnn Hlen].
  pose proof (on_message_payload s (Z.to_nat (message_payloadlen message))
                ltac:(lia) Hlen Hnn) as Hp.
  rewrite Z2Nat.id in Hp by lia.
  destruct (write_cells _ _) as [p1|]; cbn [mbind option_bind] in Hp |- *;
    [|done].
  destruct (wr p1 _ NUL) as [p2|]; cbn [mbind option_bind] in Hp |- *;
    [|done].
  rewrite Hp. cbn [mbind option_bind]. done.
Qed.

Lemma on_message_dispatch_witness :
  on_message clock_1000 "weather"
    {| message_topic := "weather/all_data/request";
       message_payload := ["r"; "a"; "w"]%char;
       message_payloadlen := 3 |} world_init
  = publish_raw clock_1000 world_init.
Proof.
  apply (on_message_dispatch clock_1000 "weather"
           {| message_topic := "weather/all_data/request";
              message_payload := ["r"; "a"; "w"]%char;
              message_payloadlen := 3 |} world_init "raw").
  - cbn. lia.
  - reflexivity.
Defined.

(** X22: a request of 128 bytes or more overruns [payload[128]]: the
    [strncpy] writes [payloadlen] bytes and the terminator goes to
    [payload[payloadlen]], so [on_message] is undefined whatever the topic
    and the content of the message. *)
Theorem on_message_oversize (time : nat → Z) (mqtt_base_topic : string)
    (message : mosquitto_message) (w : world) :
  128 ≤ message_payloadlen message →
  on_message time mqtt_base_topic message w = None.
Proof.
  intros Hn. unfold on_message. rewrite decide_True by lia.
  destruct (strn_read _ _) as [s|]; cbn [mbind option_bind]; [|done].
  unfold write_cells. rewrite strncpy_length, length_replicate.
  destruct (decide (Z.to_nat (message_payloadlen message) ≤ 128)%nat)
    as [Hle|Hgt]; cbn [mbind option_bind]; [|done].
  unfold wr. rewrite decide_False; [done|].
  rewrite length_app, strncpy_length, length_drop, length_replicate. lia.
Qed.

Lemma on_message_oversize_witness :
  on_message clock_1000 "weather"
    {| message_topic := "weather/all_data/request";
       message_payload := replicate 128 "j"%char;
       message_payloadlen := 128 |} world_init
  = None.
Proof.
  apply (on_message_oversize clock_1000 "weather"
           {| message_topic := "weather/all_data/request";
              message_payload := replicate 128 "j"%char;
              message_payloadlen := 128 |} world_init).
  cbn. lia.
Defined.

Lemma publish_json_frame (time : nat → Z) (w w' : world) :
  publish_json time w = Some w' → ∃ e, w' = emit e (tick w).
Proof.
  unfold publish_json. intros H. bind_inv H.
  destruct (p.2); injection H as <-; eexists; reflexivity.
Qed.

Lemma publish_raw_frame (time : nat → Z) (w w' : world) :
  publish_raw time w = Some w' → ∃ e, w' = emit e (tick w).
Proof.
  unfold publish_raw, mqtt_publish_data. intros H.
  destruct (_ <? _); [injection H as <-; eexists; reflexivity|].
  destruct (_ =? _); [injection H as <-; eexists; reflexivity|].
  destruct (decide _); [|done]. injection H as <-. eexists; reflexivity.
Qed.

(** X23: requests only read. Whatever the message, a defined call of
    [on_message] leaves the table and the raw snapshot as they were, reads
    the clock at most once, and adds exactly one output: one message to the
    broker or one line on [stderr]. *)
Theorem on_message_read_only (time : nat → Z) (mqtt_base_topic : string)
    (message : mosquitto_message) (w w' : world) :
  on_message time mqtt_base_topic message w = Some w' →
  tagData w' = tagData w ∧ same_raw w w' ∧
  (time_calls w' = time_calls w ∨ time_calls w' = S (time_calls w)) ∧
  ∃ e, events w' = events w ++ [e].
Proof.
  intros H.
  assert (Hw' : ∃ e, w' = emit e w ∨ w' = emit e (tick w)).
  { unfold on_message in H. destruct (decide (0 ≤ _)); [|done].
    bind_inv H.
    destruct (decide (message_topic message = _)) as [Ht|Ht];
      [|injection H as <-; eexists; by left].
    destruct (decide (_ = MSG_ALL_DATA_JSON)) as [Hj|Hj].
    { apply publish_json_frame in H as [e ->]. eexists; by right. }
    destruct (decide (_ = MSG_ALL_DATA_RAW)) as [Hr|Hr].
    { apply publish_raw_frame in H as [e ->]. eexists; by right. }
    injection H as <-. eexists; by left. }
  destruct Hw' as [e [-> | ->]]; (split; [done|]); (split; [done|]);
    (split; [auto|by exists e]).
Qed.

Lemma on_message_read_only_witness :
  ∃ w', on_message clock_30 "weather"
          {| message_topic := "weather/all_data/request";
             message_payload := ["j"; "s"; "o"; "n"]%char;
             message_payloadlen := 4 |} world_after_frame = Some w' ∧
        tagData w' = tagData world_after_frame ∧
        ∃ e, events w' = events world_after_frame ++ [e].
Proof.
  destruct (on_message clock_30 "weather"
              {| message_topic := "weather/all_data/request";
                 message_payload := ["j"; "s"; "o"; "n"]%char;
                 message_payloadlen := 4 |} world_after_frame)
    as [w'|] eqn:H; [|vm_compute in H; discriminate H].
  destruct (on_message_read_only _ _ _ _ _ H) as (Htbl & _ & _ & He).
  exists w'. auto.
Defined.

(** * The shape of the state *)

Lemma copy_from_length (n : nat) :
  ∀ (dst src : list Z) (off : Z) (dst' : list Z),
    copy_from dst off src n = Some dst' → length dst' = length dst.
Proof.
  induction n as [|n IH]; intros dst src off dst'.
  - destruct src; cbn [copy_from]; by intros [= <-].
  - destruct src as [|x src]; cbn [copy_from]; [done|].
    unfold wr. destruct (decide _); cbn [mbind option_bind]; [|done].
    intros H. apply IH in H. by rewrite length_insert in H.
Qed.

Lemma process_tag_arrays (time : nat → Z) (buf : list Z) (p : Z)
    (w w' : world) (n : Z) :
  Forall (λ row, length (lastMessage row) = MQTT_MESSAGE_MAXLEN) (tagData w) →
  process_tag time buf p w = Some (n, w') →
  Forall (λ row, length (lastMessage row) = MQTT_MESSAGE_MAXLEN) (tagData w').
Proof.
  intros Harr H. destruct (process_tag_reads _ _ _ _ _ _ H) as [b0 Hb0].
  destruct (process_tag_cases _ _ _ _ _ _ _ H Hb0)
    as [[_ ->]|(row & w1 & payload & _ & _ & Hdec & _ & Hw')]; [done|].
  pose proof (decode_Payload _ _ _ _ _ _ _ Hdec) as (_ & Htbl & _ & _).
  destruct Hw' as [[_ ->]|[_ ->]].
  - cbn [tagData set_tagData]. apply Forall_insert; [done|].
    apply strncpy_length.
  - cbn [tagData emit]. by rewrite Htbl.
Qed.

(** X24: the shape of the state is fixed. [parse_and_publish] never changes
    a tag id, a variant or a topic of the table, adds or removes no row,
    keeps [data_buffer] at its size, and keeps every [lastMessage] array at
    its 32 cells. *)
Theorem parse_and_publish_shape (time : nat → Z) (buf : list Z)
    (w w' : world) :
  parse_and_publish time buf w = Done w' →
  registry (tagData w') = registry (tagData w) ∧
  length (tagData w') = length (tagData w) ∧
  length (data_buffer w') = length (data_buffer w) ∧
  (Forall (λ row, length (lastMessage row) = MQTT_MESSAGE_MAXLEN) (tagData w) →
   Forall (λ row, length (lastMessage row) = MQTT_MESSAGE_MAXLEN)
          (tagData w')).
Proof.
  unfold parse_and_publish.
  destruct (parse_prologue time buf w) as [[L w0]|] eqn:Hpro; [|done].
  intros Hloop.
  assert (Hw0 : tagData w0 = tagData w
                ∧ length (data_buffer w0) = length (data_buffer w)).
  { unfold parse_prologue in Hpro. bind_inv Hpro. injection Hpro as _ <-.
    split; [done|]. by eapply copy_from_length. }
  destruct Hw0 as [Htbl Hbuf].
  pose proof (parse_loop_registry _ _ _ _ _ _ _ _ Hloop) as Hreg.
  rewrite Htbl in Hreg.
  pose proof (parse_loop_same_raw _ _ _ _ _ _ _ _ Hloop) as (Hraw & _).
  split; [done|]. split.
  { apply (f_equal length) in Hreg. unfold registry in Hreg.
    by rewrite !length_fmap in Hreg. }
  split; [by rewrite Hraw|].
  intros Harr.
  eapply (parse_loop_invariant time buf L
            (λ w, Forall (λ row, length (lastMessage row) = MQTT_MESSAGE_MAXLEN)
                         (tagData w))); [| |exact Hloop].
  - intros q w1 n w2 Hw1 Hpt. by eapply process_tag_arrays.
  - by rewrite Htbl.
Qed.

Lemma parse_and_publish_shape_witness :
  registry (tagData world_after_frame) = registry (tagData world_init) ∧
  length (tagData world_after_frame) = length (tagData world_init) ∧
  length (data_buffer world_after_frame) = length (data_buffer world_init) ∧
  (Forall (λ row, length (lastMessage row) = MQTT_MESSAGE_MAXLEN)
          (tagData world_init) →
   Forall (λ row, length (lastMessage row) = MQTT_MESSAGE_MAXLEN)
          (tagData world_after_frame)).
Proof.
  apply (parse_and_publish_shape clock_30 frame_unknown world_init).
  vm_compute. reflexivity.
Defined.

(** * When a tag can be decoded *)

Lemma decode_bitmask_defined (buf : list Z) (p : Z) (subtopic : string)
    (w : world) :
  0 ≤ p →
  is_Some (decode buf p subtopic TAG_TYPE_16_BYTES_BITMASK w)
  ↔ p + 16 < Z.of_nat (length buf).
Proof.
  intros Hp. split.
  - intros [sw H]. cbn [decode] in H.
    destruct (byte_loop buf p 16 0 payload_init) as [pl|] eqn:Hloop; [|done].
    destruct (byte_loop_reads _ _ _ _ _ _ Hloop 15 ltac:(lia)) as [y Hy].
    apply rd_lt in Hy. lia.
  - intros Hlt.
    set (data := (λ j : nat, default 0 (rd buf (p + (1 + Z.of_nat j))))
                   <$> seq 0 16).
    rewrite (decode_bitmask buf p subtopic w data eq_refl); [done|].
    intros j x Hj. unfold data in Hj. rewrite list_lookup_fmap in Hj.
    destruct (seq 0 16 !! j) as [j'|] eqn:Hseq; [|done].
    apply lookup_seq in Hseq as [-> Hj']. simpl in Hj. injection Hj as <-.
    destruct (rd_is_Some buf (p + (1 + Z.of_nat j)) ltac:(lia)) as [y ->].
    done.
Qed.

Lemma decode_defined (buf : list Z) (p : Z) (tg : Z) (subtopic : string)
    (tagType : TAG_PROCESSING_TYPE) (w : world) :
  0 ≤ p → is_reserved tagType = false → tagType ≠ TAG_TYPE_PM25_AQI →
  batt_row_ok (tg, tagType, subtopic) = true →
  is_Some (decode buf p subtopic tagType w)
  ↔ p + tagTypeDataLength tagType < Z.of_nat (length buf).
Proof.
  intros Hp Hres Haqi Hok.
  destruct (decide (tagType = TAG_TYPE_16_BYTES_BITMASK)) as [->|Hbm];
    [by apply decode_bitmask_defined|].
  split.
  - intros [sw H].
    destruct tagType; try done; cbn [decode tagTypeDataLength] in *;
      bind_inv H;
      repeat match goal with
             | E : rd buf _ = Some _ |- _ => apply rd_lt in E
             end; lia.
  - intros Hlt.
    destruct tagType; try done; cbn [decode tagTypeDataLength] in *;
      repeat match goal with
             | |- context [rd buf ?i] =>
                 destruct (rd_is_Some buf i ltac:(lia)) as [? ->];
                 cbn [mbind option_bind]
             end; try done.
    unfold batt_row_ok in Hok. cbn [fst snd] in Hok.
    destruct (strrchr subtopic "/") as [sensor|]; [|done].
    apply bool_decide_eq_true in Hok. cbn [mbind option_bind].
    rewrite fits_fit by done. done.
Qed.

(** X25: when a value tag can be decoded. In a world with the registry of
    [tagData], for a tag of a value variant at offset [p], [process_tag] is
    defined exactly when all the data bytes of the variant lie inside the
    buffer; nothing else is asked of the frame, so the declared length
    plays no part and a tag near the end of the frame is decoded from the
    bytes that follow it in the receive buffer. *)
Theorem process_tag_defined (time : nat → Z) (buf : list Z) (p : Z)
    (w : world) (b0 : Z) (row : TagSpec) :
  registry (tagData w) = registry tagData_init →
  rd buf p = Some b0 →
  rd (tagData w) (tag_index (tagData w) b0) = Some row →
  is_reserved (type row) = false → type row ≠ TAG_TYPE_PM25_AQI →
  is_Some (process_tag time buf p w)
  ↔ p + tagTypeDataLength (type row) < Z.of_nat (length buf).
Proof.
  intros Hreg Hb0 Hrow Hres Haqi.
  pose proof (rd_lt _ _ _ Hb0) as Hp. pose proof (rd_lt _ _ _ Hrow) as Hti.
  pose proof (registry_row _ _ _ Hreg Hrow) as Hok.
  rewrite <- (decode_defined buf p (tag row) (topic row) (type row) w)
    by (done || lia).
  unfold process_tag. rewrite Hb0. cbn [mbind option_bind].
  destruct (Z.leb_spec 0 (tag_index (tagData w) b0)) as [_|?]; [|lia].
  rewrite Hrow. cbn [mbind option_bind].
  destruct (decode buf p (topic row) (type row) w) as [[w1 payload|rc]|] eqn:E;
    cbn [mbind option_bind]; [| |by split; intros [? ?]].
  - pose proof (decode_Payload _ _ _ _ _ _ _ E) as (_ & Htbl & _ & _).
    split; [done|]. intros _.
    destruct (nonempty payload); [|done].
    cbn [tagData tick mqtt_publish emit]. rewrite Htbl.
    rewrite wr_Some by done. done.
  - done.
Qed.

Lemma process_tag_defined_witness :
  is_Some (process_tag clock_1000 frame_checksum_tag 8 world_init)
  ↔ 8 + 2 < Z.of_nat (length frame_checksum_tag).
Proof.
  apply (process_tag_defined clock_1000 frame_checksum_tag 8 world_init
           ITEM_SOILTEMP8
           (mkTag ITEM_SOILTEMP8 TAG_TYPE_SHORT_DIVIDE_BY_10_SIGNED
                  "temperature/soil_8")).
  - reflexivity.
  - reflexivity.
  - vm_compute. reflexivity.
  - reflexivity.
  - discriminate.
Defined.

(** * Observation cache: the value a decode leaves in the tag's row *)

Lemma decode_events (buf : list Z) (p : Z) (subtopic : string)
    (tagType : TAG_PROCESSING_TYPE) (w w1 : world) (payload : string) :
  decode buf p subtopic tagType w = Some (Payload w1 payload) →
  events w1 = events w
  ∨ tagType = TAG_TYPE_3_BYTES_TEMP_AND_BATT
    ∧ ∃ batttopic battery,
        events w1 = events w ++ [Publish batttopic battery].
Proof.
  destruct tagType; cbn [decode]; intros H; bind_inv H;
    try discriminate H; injection H as <- <-; try (by left).
  right. split; [done|]. by eexists _, _.
Qed.

(** C10: what a call of [process_tag] that decodes a tag leaves in the
    cache. The tag byte [b] selects the row, the switch decodes [payload]
    (and, for temperature with battery only, publishes the battery value
    before), and every row but that of the tag is left as it was. With no
    payload only "No payload to publish" is added to the outputs and the
    table is unchanged. Otherwise [payload] is the last value published, on
    the tag's own topic, and the tag's row, its id, variant and topic
    unchanged, holds in [lastMessage] the first 32 characters of that
    published value followed, when there are fewer, by terminators: a
    payload shorter than 32 is cached whole (the array reads back as the
    published string), a payload of 32 characters or more is cached as its
    first 32 characters with no terminator, and for the bitmask variant,
    whose payload has 128 characters, the cached array differs from the
    published value and reading it as a string runs past its end. The
    battery value is in no row: it is published and not cached. *)
Theorem cache_keeps_first_32_bytes (time : nat → Z) (buf : list Z) (p : Z)
    (w w' : world) (n : Z) :
  process_tag time buf p w = Some (n, w') → 0 < n →
  ∃ b row w1 payload,
    rd buf p = Some b ∧
    rd (tagData w) (tag_index (tagData w) b) = Some row ∧
    decode buf p (topic row) (type row) w = Some (Payload w1 payload) ∧
    (events w1 = events w
     ∨ type row = TAG_TYPE_3_BYTES_TEMP_AND_BATT
       ∧ ∃ batttopic battery,
           events w1 = events w ++ [Publish batttopic battery]) ∧
    (∀ j : nat, Z.of_nat j ≠ tag_index (tagData w) b →
                tagData w' !! j = tagData w !! j) ∧
    (payload = EmptyString ∧
     events w' = events w1 ++ [Stderr ("No payload to publish" +:+ LF)] ∧
     tagData w' = tagData w
     ∨ payload ≠ EmptyString ∧
       events w' = events w1 ++ [Publish (topic row) payload] ∧
       ∃ row', rd (tagData w') (tag_index (tagData w) b) = Some row' ∧
         (tag row', type row', topic row') = (tag row, type row, topic row) ∧
         lastMessage row'
         = take MQTT_MESSAGE_MAXLEN
             (list_ascii_of_string payload ++ replicate MQTT_MESSAGE_MAXLEN NUL) ∧
         length (lastMessage row') = MQTT_MESSAGE_MAXLEN ∧
         ((String.length payload < MQTT_MESSAGE_MAXLEN)%nat →
            lastMessage row'
            = list_ascii_of_string payload
              ++ replicate (MQTT_MESSAGE_MAXLEN - String.length payload) NUL ∧
            c_str (lastMessage row') = Some payload) ∧
         ((MQTT_MESSAGE_MAXLEN ≤ String.length payload)%nat →
            lastMessage row'
            = take MQTT_MESSAGE_MAXLEN (list_ascii_of_string payload)) ∧
         (type row = TAG_TYPE_16_BYTES_BITMASK →
            String.length payload = 128%nat ∧
            lastMessage row' ≠ list_ascii_of_string payload ∧
            c_str (lastMessage row') = None)).
Proof.
  intros H Hn.
  destruct (process_tag_reads _ _ _ _ _ _ H) as [b Hb].
  destruct (process_tag_cases _ _ _ _ _ _ _ H Hb)
    as [[-> _]|(row & w1 & payload & Hti & Hrow & Hdec & _ & Hw')]; [lia|].
  exists b, row, w1, payload. do 3 (split; [done|]).
  split; [by eapply decode_events|].
  pose proof (decode_Payload _ _ _ _ _ _ _ Hdec) as (_ & Htbl & _ & _).
  destruct Hw' as [[Hne ->]|[-> ->]].
  - split.
    { intros j Hj. cbn [tagData set_tagData].
      apply list_lookup_insert_ne. lia. }
    right. split; [by apply nonempty_true|]. split; [done|].
    exists (record payload (time (time_calls w)) row).
    split; [|split; [done|split; [done|split; [apply strncpy_length|]]]].
    { cbn [tagData set_tagData]. apply rd_insert_eq. by eapply rd_lt. }
    cbn [lastMessage record]. split; [|split].
    + intros Hlen. split; [by apply strncpy_short|].
      apply c_str_strncpy_short; [done|]. by eapply decode_no_NUL.
    + apply strncpy_long.
    + intros Hty. rewrite Hty in Hdec.
      apply decode_bitmask_inv in Hdec as (data & Hlen & ->).
      assert (Hl : String.length (string_of_list_ascii (data ≫= byte_bits))
                   = 128%nat).
      { by rewrite string_of_list_ascii_length, bits_length, Hlen. }
      split; [done|].
      rewrite strncpy_long by (rewrite Hl; unfold MQTT_MESSAGE_MAXLEN; lia).
      rewrite list_ascii_of_string_of_list_ascii. split.
      * intros Heq. apply (f_equal length) in Heq.
        rewrite length_take, bits_length, Hlen in Heq.
        unfold MQTT_MESSAGE_MAXLEN in Heq. lia.
      * apply c_str_unterminated, Forall_take, bits_not_NUL.
  - split; [by cbn [tagData emit]; rewrite Htbl|].
    left. split; [done|]. split; [done|]. by cbn [tagData emit].
Qed.

Lemma cache_keeps_first_32_bytes_witness :
  ∃ payload row',
    events world_after_bitmask = [Publish "all_sensor_low_battery" payload] ∧
    String.length payload = 128%nat ∧
    rd (tagData world_after_bitmask) 74 = Some row' ∧
    lastMessage row' = take 32 (list_ascii_of_string payload) ∧
    c_str (lastMessage row') = None.
Proof.
  destruct (cache_keeps_first_32_bytes clock_1000
              (ITEM_LOWBATT :: 0x01 :: replicate 15 0) 0 world_init
              world_after_bitmask 17)
    as (b & row & w1 & payload & Hb & Hrow & Hdec & _ & _ & Hcases);
    [vm_compute; reflexivity|lia|].
  injection Hb as <-.
  vm_compute in Hrow. injection Hrow as <-.
  vm_compute in Hdec. injection Hdec as <- <-.
  destruct Hcases as [(Hempty & _)|(_ & Hev & row' & Hrow' & _ & _ & _ & _
                                    & Hlong & Hbm)];
    [discriminate Hempty|].
  destruct (Hbm eq_refl) as (Hlen & _ & Hstr).
  eexists _, row'. split; [exact Hev|]. split; [exact Hlen|].
  split; [exact Hrow'|]. split; [|exact Hstr].
  apply Hlong. vm_compute. lia.
Defined.

(** C10, as stated, fails for the battery value: the tag 0x63 with data
    00 0A 4B publishes "1.50" on battery/t1 and "1.0" on temperature/t1;
    "1.50" is a published payload shorter than 32 bytes, and after the
    decode no [lastMessage] of the table reads "1.50". *)
Lemma battery_value_published_not_cached :
  ∃ w', process_tag clock_1000 [ITEM_TF_USR1; 0x00; 0x0A; 0x4B] 0 world_init
        = Some (4, w') ∧
        events w' = [Publish "battery/t1" "1.50";
                     Publish "temperature/t1" "1.0"] ∧
        (String.length "1.50" < MQTT_MESSAGE_MAXLEN)%nat ∧
        Forall (λ row, c_str (lastMessage row) ≠ Some "1.50") (tagData w').
Proof.
  eexists. split; [vm_compute; reflexivity|].
  split; [reflexivity|]. split; [vm_compute; lia|].
  apply (bool_decide_unpack _). vm_compute. reflexivity.
Qed.

(** * Tag stream parser: what is kept when it stops at an unknown tag *)

Lemma tag_index_row (tbl : list TagSpec) (b : Z) :
  0 ≤ tag_index tbl b →
  ∃ row, rd tbl (tag_index tbl b) = Some row ∧ tag row = b.
Proof.
  unfold tag_index. intros Hti.
  destruct (tag_index_from_spec tbl b (length tbl) ltac:(lia))
    as [[Hfrom _]|(i & row & _ & Hfrom & Hrow & Htag & _)]; [lia|].
  exists row. rewrite Hfrom, rd_nat. done.
Qed.

(** A tag other than [b] leaves the row of [b] alone. *)
Lemma process_tag_keeps_row (time : nat → Z) (buf : list Z) (q : Z)
    (w w' : world) (n b b' : Z) :
  process_tag time buf q w = Some (n, w') →
  rd buf q = Some b' → b' ≠ b →
  0 ≤ tag_index (tagData w) b →
  rd (tagData w') (tag_index (tagData w) b)
  = rd (tagData w) (tag_index (tagData w) b).
Proof.
  intros H Hb' Hne Hti.
  destruct (process_tag_cases _ _ _ _ _ _ _ H Hb')
    as [[_ ->]|(row & w1 & payload & Hti' & Hrow & Hdec & _ & Hw')]; [done|].
  pose proof (decode_Payload _ _ _ _ _ _ _ Hdec) as (_ & Htbl & _ & _).
  destruct Hw' as [[_ ->]|[_ ->]]; [|by cbn [tagData emit]; rewrite Htbl].
  cbn [tagData set_tagData]. apply rd_insert_ne; [done|].
  intros Heq.
  destruct (tag_index_row _ _ Hti) as (r1 & Hr1 & Ht1).
  destruct (tag_index_row _ _ Hti') as (r2 & Hr2 & Ht2).
  rewrite Heq, Hr2 in Hr1. injection Hr1 as <-. congruence.
Qed.

Lemma decodes_tag_index (time : nat → Z) (buf : list Z) (length : Z)
    (s s' : parse_state) (b : Z) :
  decodes time buf length s s' →
  tag_index (tagData s'.2) b = tag_index (tagData s.2) b.
Proof.
  intros H. apply tag_index_registry. by eapply decodes_registry.
Qed.

Lemma decodes_trans (time : nat → Z) (buf : list Z) (length : Z)
    (s1 s2 s3 : parse_state) :
  decodes time buf length s1 s2 → decodes time buf length s2 s3 →
  decodes time buf length s1 s3.
Proof.
  induction 1 as [|p rb w n w1 s' Hrb Hpt Hn Hrest IH]; [done|].
  intros H. eapply decodes_cons; eauto.
Qed.

(** The row of [b] is kept along a run of the loop in which no tag [b] is
    decoded. *)
Lemma decodes_keeps_row (time : nat → Z) (buf : list Z) (length : Z)
    (s s' : parse_state) (b : Z) :
  decodes time buf length s s' →
  0 ≤ tag_index (tagData s.2) b →
  (∀ q r wq, decodes time buf length s (q, r, wq) →
             decodes time buf length (q, r, wq) s' →
             q < s'.1.1 → rd buf q ≠ Some b) →
  rd (tagData s'.2) (tag_index (tagData s.2) b)
  = rd (tagData s.2) (tag_index (tagData s.2) b).
Proof.
  induction 1 as [|p rb w n w1 s' Hrb Hpt Hn Hrest IH]; [done|].
  cbn [fst snd]. intros Hti Hno.
  pose proof (decodes_le _ _ _ _ _ Hrest) as Hle. cbn [fst snd] in Hle.
  destruct (process_tag_reads _ _ _ _ _ _ Hpt) as [b' Hb'].
  assert (Hne : b' ≠ b).
  { intros ->. apply (Hno p rb w); [constructor| |lia|done].
    eapply decodes_cons; eauto. }
  pose proof (process_tag_keeps_row _ _ _ _ _ _ _ _ Hpt Hb' Hne Hti) as Hkeep.
  assert (Hidx : tag_index (tagData w1) b = tag_index (tagData w) b)
    by (apply tag_index_registry; by eapply process_tag_registry).
  cbn [fst snd] in IH. rewrite Hidx in IH. rewrite IH; [done|lia|].
  intros q r wq H1 H2 Hq. apply (Hno q r wq); [|done|done].
  eapply decodes_cons; eauto.
Qed.

(** C6: when the parser, having decoded the tags before offset [p] of the
    frame (which took the world from [w0], the world after the prologue, to
    [w1]), finds at [p] a tag the registry does not have, it stops there and
    returns normally with exactly [w1]; nothing after the unknown tag is
    looked at, since the loop gives the same [w1] on every buffer that
    agrees with the frame up to offset [p]. Every value decoded before is
    kept: for each tag decoded on the way, at offset [q] with tag byte [b],
    whatever its switch published (the battery value) and the [payload] it
    published on its own topic are among the outputs of [w1]; and unless
    the same tag byte is decoded again before [p], the row of the tag still
    holds in [w1] the first 32 characters of [payload], padded with
    terminators, and the time of that decode. *)
Theorem parse_stops_at_unknown_tag (time : nat → Z) (buf : list Z)
    (w w0 w1 : world) (length p readBytes t : Z) :
  parse_prologue time buf w = Some (length, w0) →
  decodes time buf length (5, 3, w0) (p, readBytes, w1) →
  readBytes < length →
  rd buf p = Some t → tag_index (tagData w1) t = -1 →
  parse_and_publish time buf w = Done w1 ∧
  events w0 `prefix_of` events w1 ∧
  (∀ buf', (∀ i, i ≤ p → rd buf' i = rd buf i) →
           ∀ fuel, (Z.to_nat (length - 3) ≤ fuel)%nat →
                   parse_loop time fuel buf' 5 3 length w0 = Done w1) ∧
  (∀ q rq wq n wq' b row wd payload,
     decodes time buf length (5, 3, w0) (q, rq, wq) →
     process_tag time buf q wq = Some (n, wq') → 0 < n →
     decodes time buf length (q + n, rq + n, wq') (p, readBytes, w1) →
     rd buf q = Some b →
     rd (tagData wq) (tag_index (tagData wq) b) = Some row →
     decode buf q (topic row) (type row) wq = Some (Payload wd payload) →
     payload ≠ EmptyString →
     events wd `prefix_of` events w1 ∧
     Publish (topic row) payload ∈ events w1 ∧
     ((∀ q' r' w', decodes time buf length (q + n, rq + n, wq') (q', r', w') →
                   decodes time buf length (q', r', w') (p, readBytes, w1) →
                   q' < p → rd buf q' ≠ Some b) →
      ∃ row1, rd (tagData w1) (tag_index (tagData w1) b) = Some row1 ∧
              tag row1 = b ∧ topic row1 = topic row ∧
              lastMessage row1
              = take MQTT_MESSAGE_MAXLEN
                  (list_ascii_of_string payload
                   ++ replicate MQTT_MESSAGE_MAXLEN NUL) ∧
              lastMessageTimestamp row1 = time (time_calls wq))).
Proof.
  intros Hpro Hdec Hrb Ht Hti.
  assert (Hloop : ∀ buf', (∀ i, i ≤ p → rd buf' i = rd buf i) →
            ∀ fuel, (Z.to_nat (length - 3) ≤ fuel)%nat →
                    parse_loop time fuel buf' 5 3 length w0 = Done w1).
  { intros buf' Hext fuel Hfuel.
    assert (Hdec' : decodes time buf' length (5, 3, w0) (p, readBytes, w1)).
    { eapply decodes_ext; [exact Hdec|]. simpl. intros; apply Hext; lia. }
    pose proof (parse_loop_decodes _ _ _ _ _ Hdec' fuel
                  (S (Z.to_nat (length - readBytes)))) as Heq.
    simpl in Heq. rewrite Heq by lia.
    eapply parse_loop_unknown; eauto. rewrite Hext by lia. done. }
  split; [|split; [|split; [done|]]].
  - unfold parse_and_publish. rewrite Hpro. apply Hloop; [done|lia].
  - apply (decodes_events _ _ _ _ _ Hdec).
  - intros q rq wq n wq' b row wd payload Hhead Hpt Hn Htail Hb Hrow Hd Hne.
    destruct (process_tag_cases _ _ _ _ _ _ _ Hpt Hb)
      as [[-> _]|(row0 & wd0 & payload0 & Hidx & Hrow0 & Hd0 & _ & Hw')];
      [lia|].
    rewrite Hrow in Hrow0. injection Hrow0 as <-.
    rewrite Hd in Hd0. injection Hd0 as <- <-.
    destruct Hw' as [[_ Hwq']|[Hempty _]]; [|done].
    pose proof (decodes_events _ _ _ _ _ Htail) as [k Hk].
    cbn [fst snd] in Hk. rewrite Hwq' in Hk.
    cbn [events set_tagData tick mqtt_publish emit] in Hk.
    split; [|split].
    + rewrite Hk, <- app_assoc. by apply prefix_app_r.
    + rewrite Hk. apply elem_of_app. left. apply elem_of_app. right.
      by apply list_elem_of_singleton.
    + intros Hno.
      pose proof (decodes_tag_index _ _ _ _ _ b Htail) as Hi1.
      cbn [fst snd] in Hi1.
      assert (Hi2 : tag_index (tagData wq') b = tag_index (tagData wq) b)
        by (apply tag_index_registry; by eapply process_tag_registry).
      pose proof (decodes_keeps_row _ _ _ _ _ b Htail) as Hkeep.
      cbn [fst snd] in Hkeep.
      rewrite Hi1, Hi2. rewrite Hi2 in Hkeep.
      rewrite Hkeep; [|done|exact Hno].
      exists (record payload (time (time_calls wq)) row).
      split; [|split; [|done]].
      * rewrite Hwq'. cbn [tagData set_tagData].
        apply rd_insert_eq. by eapply rd_lt.
      * destruct (tag_index_row _ _ Hidx) as (r & Hr & Htag).
        rewrite Hrow in Hr. by injection Hr as <-.
Qed.

Lemma parse_stops_at_unknown_tag_witness :
  ∃ w1 row1,
    parse_and_publish clock_1000 frame_unknown world_init = Done w1 ∧
    Publish "battery/t1" "1.50" ∈ events w1 ∧
    Publish "temperature/t1" "1.0" ∈ events w1 ∧
    rd (tagData w1) (tag_index (tagData w1) ITEM_TF_USR1) = Some row1 ∧
    lastMessage row1
    = take MQTT_MESSAGE_MAXLEN
        (list_ascii_of_string "1.0" ++ replicate MQTT_MESSAGE_MAXLEN NUL).
Proof.
  edestruct (parse_stops_at_unknown_tag clock_1000 frame_unknown world_init)
    as (Hparse & _ & _ & Hkept).
  - vm_compute. reflexivity.
  - eapply decodes_cons; [lia|vm_compute; reflexivity|lia|].
    eapply decodes_cons; [lia|vm_compute; reflexivity|lia|].
    eapply decodes_cons; [lia|vm_compute; reflexivity|lia|].
    apply decodes_nil.
  - lia.
  - reflexivity.
  - vm_compute. reflexivity.
  - edestruct (Hkept 11 9) as (Hpre & Hin & Hcache).
    + eapply decodes_cons; [lia|vm_compute; reflexivity|lia|].
      eapply decodes_cons; [lia|vm_compute; reflexivity|lia|].
      apply decodes_nil.
    + vm_compute. reflexivity.
    + lia.
    + apply decodes_nil.
    + reflexivity.
    + vm_compute. reflexivity.
    + vm_compute. reflexivity.
    + discriminate.
    + destruct Hcache as (row1 & Hrow1 & _ & _ & Hmsg & _).
      { intros q' r' w' Hq' _ Hlt. apply decodes_le in Hq'.
        cbn [fst snd] in Hq'. lia. }
      eexists _, row1. split; [exact Hparse|].
      split; [|split; [exact Hin|split; [exact Hrow1|exact Hmsg]]].
      destruct Hpre as [k ->]. apply elem_of_app. left.
      vm_compute. apply list_elem_of_further, list_elem_of_further, list_elem_of_here.
Defined.

(** C6, as stated, fails for the cache: in [frame_unknown] the tag 0x63,
    decoded before the unknown tag 0x4B, has the battery value "1.50"
    decoded and published on battery/t1, and after the parse no
    [lastMessage] of the table reads "1.50": the value is published and not
    recorded in the cache. *)
Lemma parse_keeps_battery_value_uncached :
  ∃ w1, parse_and_publish clock_1000 frame_unknown world_init = Done w1 ∧
        events w1 = [Publish "temperature/indoors" "1.0";
                     Publish "temperature/outdoors" "-0.9";
                     Publish "battery/t1" "1.50";
                     Publish "temperature/t1" "1.0"] ∧
        Forall (λ row, c_str (lastMessage row) ≠ Some "1.50") (tagData w1).
Proof.
  eexists. split; [vm_compute; reflexivity|]. split; [reflexivity|].
  apply (bool_decide_unpack _). vm_compute. reflexivity.
Qed.
